(** * Storyteller state reducers (storyteller_lib/models.py)

    A shallow embedding of the reducer functions of [models.py]
    ([merge_lists], [merge_dicts], [merge_characters], [merge_scenes],
    [merge_chapters], [merge_revelations], [merge_creative_elements],
    [merge_plot_threads], [merge_world_elements]) together with the
    properties the specification states about them.

    The reducers are dynamically typed Python, so the embedding has two
    layers:

    - [Py]: Python values as trees ([None], [bool], [int], [str], [list],
      [dict] with insertion order), the builtin operations the reducers
      use, each returning a result or the exception Python raises, and
      the reducers as functions from argument values to the returned
      value.  This is the semantics of a call whose arguments share no
      object.
    - [Store]: the same values as references into a store of mutable
      lists and dicts, and the two reducers that update objects in place
      ([merge_plot_threads], [merge_world_elements]) as store
      transformers, so that aliasing between snapshots is observable.

    Floats, tuples, sets and user classes do not occur in the state the
    reducers receive and are not modelled. *)

From Stdlib Require Import ZArith List String Ascii Bool Lia DecimalString.
Import ListNotations.

Local Open Scope string_scope.
Local Open Scope list_scope.

(* ================================================================== *)
(** * Python values *)
(* ================================================================== *)

Module Py.

Set Warnings "-register-all".

(** Hashable values, the ones a dict accepts as keys. *)
Inductive pykey : Type :=
| KNone
| KBool (b : bool)
| KInt (z : Z)
| KStr (s : string).

(** Values.  A dict is the list of its items in insertion order.  A
    string is the sequence of its characters, one [ascii] each; the
    reducers take the length of a string and index it only to compare
    a one-entry [reflection_notes] with the revision marker, which no
    single character equals. *)
Inductive pyval : Type :=
| VNone
| VBool (b : bool)
| VInt (z : Z)
| VStr (s : string)
| VList (l : list pyval)
| VDict (d : list (pykey * pyval)).

Definition items : Type := list (pykey * pyval).

(** Exceptions raised by the builtin operations. *)
Inductive pyexc : Type :=
| KeyError
| AttributeError
| TypeError
| IndexError
| RecursionError.

Inductive result (A : Type) : Type :=
| Ok (a : A)
| Raise (e : pyexc).

Arguments Ok {A} a.
Arguments Raise {A} e.

Definition bind {A B : Type} (c : result A) (k : A -> result B) : result B :=
  match c with
  | Ok a => k a
  | Raise e => Raise e
  end.

Notation "x <- c ;; k" := (bind c (fun x => k))
  (at level 61, c at next level, right associativity).

(** [try: body except Exception: handler]. *)
Definition try_except {A : Type} (body : result A) (handler : result A) : result A :=
  match body with
  | Ok a => Ok a
  | Raise _ => handler
  end.

(** [for x in xs: s = body s x]. *)
Fixpoint for_each {A S : Type} (xs : list A) (body : S -> A -> result S) (s : S)
  : result S :=
  match xs with
  | [] => Ok s
  | x :: xs' => s' <- body s x ;; for_each xs' body s'
  end.

(** [a and b], [a or b] on conditions: the right operand is evaluated
    only when the left one does not decide. *)
Definition and_then (a : result bool) (b : result bool) : result bool :=
  x <- a ;; if x then b else Ok false.

Definition or_else (a : result bool) (b : result bool) : result bool :=
  x <- a ;; if x then Ok true else b.

(* ------------------------------------------------------------------ *)
(** ** Keys and dict items *)

(** Python's [==] (with equal hashes) on keys: [True == 1], [False == 0]. *)
Definition key_eqb (a b : pykey) : bool :=
  match a, b with
  | KNone, KNone => true
  | KBool x, KBool y => Bool.eqb x y
  | KBool x, KInt y => Z.eqb (Z.b2z x) y
  | KInt x, KBool y => Z.eqb x (Z.b2z y)
  | KInt x, KInt y => Z.eqb x y
  | KStr x, KStr y => String.eqb x y
  | _, _ => false
  end.

Definition key_val (k : pykey) : pyval :=
  match k with
  | KNone => VNone
  | KBool b => VBool b
  | KInt z => VInt z
  | KStr s => VStr s
  end.

(** [hash(v)]: lists and dicts are unhashable. *)
Definition to_key (v : pyval) : result pykey :=
  match v with
  | VNone => Ok KNone
  | VBool b => Ok (KBool b)
  | VInt z => Ok (KInt z)
  | VStr s => Ok (KStr s)
  | VList _ | VDict _ => Raise TypeError
  end.

Section Dict.
Context {V : Type}.

Fixpoint dict_get (k : pykey) (d : list (pykey * V)) : option V :=
  match d with
  | [] => None
  | (k', v) :: d' => if key_eqb k k' then Some v else dict_get k d'
  end.

Definition dict_mem (k : pykey) (d : list (pykey * V)) : bool :=
  match dict_get k d with
  | Some _ => true
  | None => false
  end.

(** [d[k] = v]: an existing key keeps its place (and the key object it
    was inserted with); a new key goes last. *)
Fixpoint dict_set (k : pykey) (v : V) (d : list (pykey * V)) : list (pykey * V) :=
  match d with
  | [] => [(k, v)]
  | (k', v') :: d' =>
      if key_eqb k k' then (k', v) :: d' else (k', v') :: dict_set k v d'
  end.

(** [{**a, **b}]. *)
Definition dict_union (a b : list (pykey * V)) : list (pykey * V) :=
  fold_left (fun acc kv => dict_set (fst kv) (snd kv) acc) b a.

(** No two items of a dict have equal keys. *)
Fixpoint keys_distinct (d : list (pykey * V)) : bool :=
  match d with
  | [] => true
  | (k, _) :: d' => negb (dict_mem k d') && keys_distinct d'
  end.
End Dict.

Definition dict_values (d : items) : list pyval := map snd d.
Definition dict_keys (d : items) : list pykey := map fst d.

(* ------------------------------------------------------------------ *)
(** ** Truth value, equality, [str()] *)

(** [bool(v)]. *)
Definition truthy (v : pyval) : bool :=
  match v with
  | VNone => false
  | VBool b => b
  | VInt z => negb (Z.eqb z 0)
  | VStr s => negb (String.eqb s "")
  | VList l => match l with [] => false | _ => true end
  | VDict d => match d with [] => false | _ => true end
  end.

Definition is_none (v : pyval) : bool :=
  match v with VNone => true | _ => false end.

Definition is_list (v : pyval) : bool :=
  match v with VList _ => true | _ => false end.

Definition is_dict (v : pyval) : bool :=
  match v with VDict _ => true | _ => false end.

(** [a == b]: lists compare element by element, dicts item by item
    whatever the insertion order. *)
Fixpoint py_eq (a b : pyval) {struct a} : bool :=
  match a, b with
  | VNone, VNone => true
  | VBool x, VBool y => Bool.eqb x y
  | VBool x, VInt y => Z.eqb (Z.b2z x) y
  | VInt x, VBool y => Z.eqb x (Z.b2z y)
  | VInt x, VInt y => Z.eqb x y
  | VStr x, VStr y => String.eqb x y
  | VList x, VList y =>
      (fix go (x y : list pyval) {struct x} : bool :=
         match x, y with
         | [], [] => true
         | a' :: x', b' :: y' => py_eq a' b' && go x' y'
         | _, _ => false
         end) x y
  | VDict x, VDict y =>
      Nat.eqb (List.length x) (List.length y) &&
      (fix go (x : items) {struct x} : bool :=
         match x with
         | [] => true
         | (k, v) :: x' =>
             match dict_get k y with
             | Some w => py_eq v w
             | None => false
             end && go x'
         end) x
  | _, _ => false
  end.

Definition dquote : ascii := ascii_of_nat 34.
Definition squote : ascii := ascii_of_nat 39.
Definition backslash : ascii := ascii_of_nat 92.

Fixpoint str_has (c : ascii) (s : string) : bool :=
  match s with
  | EmptyString => false
  | String c' s' => Ascii.eqb c c' || str_has c s'
  end.

Definition hex_digit (n : nat) : ascii :=
  ascii_of_nat (if Nat.ltb n 10 then 48 + n else 87 + n).

(** One character of the [repr] of a string quoted with [q]. *)
Definition repr_char (q c : ascii) : string :=
  let n := nat_of_ascii c in
  if Ascii.eqb c backslash then String backslash (String backslash "")
  else if Ascii.eqb c q then String backslash (String q "")
  else if Nat.eqb n 10 then String backslash "n"
  else if Nat.eqb n 13 then String backslash "r"
  else if Nat.eqb n 9 then String backslash "t"
  else if Nat.ltb n 32 || Nat.eqb n 127 then
    String backslash
      (String "x" (String (hex_digit (n / 16)) (String (hex_digit (n mod 16)) "")))
  else String c "".

Fixpoint repr_chars (q : ascii) (s : string) : string :=
  match s with
  | EmptyString => EmptyString
  | String c s' => (repr_char q c ++ repr_chars q s')%string
  end.

(** [repr(s)] for a string: single quotes unless the string holds a
    single quote and no double quote. *)
Definition str_repr (s : string) : string :=
  let q := if str_has squote s && negb (str_has dquote s) then dquote else squote in
  String q (repr_chars q s ++ String q "")%string.

Definition int_str (z : Z) : string := NilZero.string_of_int (Z.to_int z).
Definition nat_str (n : nat) : string := NilZero.string_of_uint (Nat.to_uint n).

Definition key_repr (k : pykey) : string :=
  match k with
  | KNone => "None"
  | KBool b => if b then "True" else "False"
  | KInt z => int_str z
  | KStr s => str_repr s
  end.

Fixpoint py_repr (v : pyval) : string :=
  match v with
  | VNone => "None"
  | VBool b => if b then "True" else "False"
  | VInt z => int_str z
  | VStr s => str_repr s
  | VList l => ("[" ++ String.concat ", " (map py_repr l) ++ "]")%string
  | VDict d =>
      ("{" ++ String.concat ", "
                (map (fun kv => let '(k, w) := kv in key_repr k ++ ": " ++ py_repr w) d)
           ++ "}")%string
  end.

(** [str(v)], which is also what an f-string field [{v}] formats to. *)
Definition py_str (v : pyval) : string :=
  match v with
  | VStr s => s
  | _ => py_repr v
  end.

(* ------------------------------------------------------------------ *)
(** ** Builtin operations *)

Fixpoint str_contains (needle hay : string) : bool :=
  String.prefix needle hay ||
  match hay with
  | EmptyString => false
  | String _ hay' => str_contains needle hay'
  end.

Fixpoint str_chars (s : string) : list pyval :=
  match s with
  | EmptyString => []
  | String c s' => VStr (String c "") :: str_chars s'
  end.

(** [x.copy()]: dicts and lists have the method. *)
Definition py_copy (x : pyval) : result pyval :=
  match x with
  | VDict d => Ok (VDict d)
  | VList l => Ok (VList l)
  | _ => Raise AttributeError
  end.

(** [x.items()]. *)
Definition py_items (x : pyval) : result items :=
  match x with
  | VDict d => Ok d
  | _ => Raise AttributeError
  end.

(** [k in x]. *)
Definition py_contains (k : pykey) (x : pyval) : result bool :=
  match x with
  | VDict d => Ok (dict_mem k d)
  | VList l => Ok (existsb (py_eq (key_val k)) l)
  | VStr s =>
      match k with
      | KStr t => Ok (str_contains t s)
      | _ => Raise TypeError
      end
  | _ => Raise TypeError
  end.

(** Position of index [z] in a sequence of length [n] ([-1] is the last). *)
Definition seq_index (z : Z) (n : nat) : option nat :=
  if (0 <=? z)%Z then
    (if (z <? Z.of_nat n)%Z then Some (Z.to_nat z) else None)
  else
    (if (0 <=? z + Z.of_nat n)%Z then Some (Z.to_nat (z + Z.of_nat n)) else None).

Definition key_index (k : pykey) : option Z :=
  match k with
  | KInt z => Some z
  | KBool b => Some (Z.b2z b)
  | _ => None
  end.

(** [x[k]]. *)
Definition py_getitem (x : pyval) (k : pykey) : result pyval :=
  match x with
  | VDict d =>
      match dict_get k d with
      | Some v => Ok v
      | None => Raise KeyError
      end
  | VList l =>
      match key_index k with
      | Some z =>
          match seq_index z (List.length l) with
          | Some i =>
              match nth_error l i with
              | Some v => Ok v
              | None => Raise IndexError
              end
          | None => Raise IndexError
          end
      | None => Raise TypeError
      end
  | VStr s =>
      match key_index k with
      | Some z =>
          match seq_index z (String.length s) with
          | Some i =>
              match String.get i s with
              | Some c => Ok (VStr (String c ""))
              | None => Raise IndexError
              end
          | None => Raise IndexError
          end
      | None => Raise TypeError
      end
  | _ => Raise TypeError
  end.

Fixpoint list_set {A : Type} (i : nat) (v : A) (l : list A) : list A :=
  match l, i with
  | [], _ => []
  | _ :: l', O => v :: l'
  | x :: l', S i' => x :: list_set i' v l'
  end.

(** [x[k] = v]. *)
Definition py_setitem (x : pyval) (k : pykey) (v : pyval) : result pyval :=
  match x with
  | VDict d => Ok (VDict (dict_set k v d))
  | VList l =>
      match key_index k with
      | Some z =>
          match seq_index z (List.length l) with
          | Some i => Ok (VList (list_set i v l))
          | None => Raise IndexError
          end
      | None => Raise TypeError
      end
  | _ => Raise TypeError
  end.

(** [x.get(k, default)] for a literal key. *)
Definition py_get (x : pyval) (k : string) (default : pyval) : result pyval :=
  match x with
  | VDict d =>
      match dict_get (KStr k) d with
      | Some v => Ok v
      | None => Ok default
      end
  | _ => Raise AttributeError
  end.

(** [a + b]. *)
Definition num_val (v : pyval) : option Z :=
  match v with
  | VInt z => Some z
  | VBool b => Some (Z.b2z b)
  | _ => None
  end.

Definition py_add (a b : pyval) : result pyval :=
  match a, b with
  | VList x, VList y => Ok (VList (x ++ y))
  | VStr x, VStr y => Ok (VStr (x ++ y)%string)
  | _, _ =>
      match num_val a, num_val b with
      | Some x, Some y => Ok (VInt (x + y))
      | _, _ => Raise TypeError
      end
  end.

(** [len(x)]. *)
Definition py_len (x : pyval) : result Z :=
  match x with
  | VList l => Ok (Z.of_nat (List.length l))
  | VDict d => Ok (Z.of_nat (List.length d))
  | VStr s => Ok (Z.of_nat (String.length s))
  | _ => Raise TypeError
  end.

(** The elements [for e in x] visits. *)
Definition py_iter (x : pyval) : result (list pyval) :=
  match x with
  | VList l => Ok l
  | VDict d => Ok (map key_val (dict_keys d))
  | VStr s => Ok (str_chars s)
  | _ => Raise TypeError
  end.

(** [x.append(v)]. *)
Definition py_append (x : pyval) (v : pyval) : result pyval :=
  match x with
  | VList l => Ok (VList (l ++ [v]))
  | _ => Raise AttributeError
  end.

End Py.

(* ================================================================== *)
(** * The reducers of models.py, on values *)
(* ================================================================== *)

Module Models.
Import Py.

(** [k in x and x[k] is not None]. *)
Definition has_value (x : pyval) (k : string) : result bool :=
  and_then (py_contains (KStr k) x)
           (v <- py_getitem x (KStr k) ;; Ok (negb (is_none v))).

(** [k in x and x[k]]. *)
Definition has_truthy (x : pyval) (k : string) : result bool :=
  and_then (py_contains (KStr k) x)
           (v <- py_getitem x (KStr k) ;; Ok (truthy v)).

(** [if field in data and data[field]: target[field] = data[field]]. *)
Definition replace_if_truthy (data : pyval) (target : pyval) (field : string)
  : result pyval :=
  c <- has_truthy data field ;;
  if c then v <- py_getitem data (KStr field) ;; py_setitem target (KStr field) v
  else Ok target.

Definition merge_lists (existing new : pyval) : result pyval :=
  if negb (truthy existing) then Ok new
  else if negb (truthy new) then Ok existing
  else py_add existing new.

Definition merge_dicts (existing new : pyval) : result pyval :=
  result <- py_copy existing ;;
  new_items <- py_items new ;;
  for_each new_items
    (fun result kv => let '(key, value) := kv in py_setitem result key value)
    result.

(* ------------------------------------------------------------------ *)
(** ** merge_characters *)

Definition list_fields : list string :=
  ["evolution"; "known_facts"; "secret_facts"; "revealed_facts"].

Definition scalar_fields : list string := ["name"; "role"; "backstory"].

Fixpoint enumerate_from {A : Type} (i : nat) (l : list A) : list (nat * A) :=
  match l with
  | [] => []
  | x :: l' => (i, x) :: enumerate_from (S i) l'
  end.

(** [all(isinstance(item, dict) for item in rel)]. *)
Definition all_dicts (rel : pyval) : result bool :=
  its <- py_iter rel ;; Ok (forallb is_dict its).

(** [{item.get("character", f"char_{i}"): item.get("relationship", "")
      for i, item in enumerate(rel)}]. *)
Definition relationships_of_list (rel : pyval) : result pyval :=
  its <- py_iter rel ;;
  d <- for_each (enumerate_from 0 its)
         (fun d ix =>
            let '(i, item) := ix in
            k <- py_get item "character" (VStr ("char_" ++ nat_str i)%string) ;;
            v <- py_get item "relationship" (VStr "") ;;
            key <- to_key k ;;
            Ok (dict_set key v d))
         [] ;;
  Ok (VDict d).

(** Lines 53-61, one [list_field]. *)
Definition append_list_field (char_data : pyval) (result_char : pyval)
           (list_field : string) : result pyval :=
  c <- has_value char_data list_field ;;
  if c then
    v <- py_getitem char_data (KStr list_field) ;;
    if truthy v then
      c' <- has_value result_char list_field ;;
      if c' then
        w <- py_getitem result_char (KStr list_field) ;;
        s <- py_add w v ;;
        py_setitem result_char (KStr list_field) s
      else py_setitem result_char (KStr list_field) v
    else Ok result_char
  else Ok result_char.

(** Lines 64-103. *)
Definition merge_relationships (char_data : pyval) (result_char : pyval)
  : result pyval :=
  let rel := KStr "relationships" in
  c <- has_value char_data "relationships" ;;
  if c then
    new_rel <- py_getitem char_data rel ;;
    c' <- has_value result_char "relationships" ;;
    if c' then
      old_rel <- py_getitem result_char rel ;;
      match old_rel, new_rel with
      | VDict a, VDict b => py_setitem result_char rel (VDict (dict_union a b))
      | _, VDict _ => py_setitem result_char rel new_rel
      | VDict _, _ => Ok result_char
      | _, _ =>
          try_except
            (c'' <- and_then (Ok (is_list new_rel)) (all_dicts new_rel) ;;
             if c'' then
               d <- relationships_of_list new_rel ;;
               py_setitem result_char rel d
             else py_setitem result_char rel (VDict []))
            (py_setitem result_char rel (VDict []))
      end
    else
      if is_dict new_rel then py_setitem result_char rel new_rel
      else if is_list new_rel then
        try_except
          (c'' <- all_dicts new_rel ;;
           if c'' then
             d <- relationships_of_list new_rel ;;
             py_setitem result_char rel d
           else py_setitem result_char rel (VDict []))
          (py_setitem result_char rel (VDict []))
      else py_setitem result_char rel (VDict [])
  else Ok result_char.

(** Lines 50-108: the merged profile of a character already present. *)
Definition update_character (existing_char char_data : pyval) : result pyval :=
  result_char <- py_copy existing_char ;;
  result_char <- for_each list_fields (append_list_field char_data) result_char ;;
  result_char <- merge_relationships char_data result_char ;;
  for_each scalar_fields (replace_if_truthy char_data) result_char.

Definition merge_characters (existing new : pyval) : result pyval :=
  if is_none existing then Ok (if is_none new then VDict [] else new)
  else if is_none new then Ok existing
  else
    result <- py_copy existing ;;
    new_items <- py_items new ;;
    for_each new_items
      (fun result kv =>
         let '(char_id, char_data) := kv in
         if is_none char_data then Ok result
         else
           c <- py_contains char_id result ;;
           if c then
             existing_char <- py_getitem result char_id ;;
             result_char <- update_character existing_char char_data ;;
             py_setitem result char_id result_char
           else py_setitem result char_id char_data)
      result.

(* ------------------------------------------------------------------ *)
(** ** merge_scenes, merge_chapters *)

Definition revised_marker : string := "Scene has been revised".

(** Lines 134-144. *)
Definition merge_scene_notes (scene_data result_scene : pyval) : result pyval :=
  let rn := KStr "reflection_notes" in
  c <- py_contains rn scene_data ;;
  if c then
    notes <- py_getitem scene_data rn ;;
    n <- py_len notes ;;
    revised <- (if (n =? 1)%Z
                then x <- py_getitem notes (KInt 0) ;; Ok (py_eq x (VStr revised_marker))
                else Ok false) ;;
    if revised then py_setitem result_scene rn notes
    else if truthy notes then
      c' <- py_contains rn result_scene ;;
      if c' then
        old <- py_getitem result_scene rn ;;
        s <- py_add old notes ;;
        py_setitem result_scene rn s
      else py_setitem result_scene rn notes
    else Ok result_scene
  else Ok result_scene.

(** Lines 123-144: the merged state of a scene already present. *)
Definition update_scene (existing_scene scene_data : pyval) : result pyval :=
  result_scene <- py_copy existing_scene ;;
  result_scene <- replace_if_truthy scene_data result_scene "content" ;;
  result_scene <- replace_if_truthy scene_data result_scene "structured_reflection" ;;
  merge_scene_notes scene_data result_scene.

Definition merge_scenes (existing new : pyval) : result pyval :=
  result <- py_copy existing ;;
  new_items <- py_items new ;;
  for_each new_items
    (fun result kv =>
       let '(scene_id, scene_data) := kv in
       c <- py_contains scene_id result ;;
       if c then
         existing_scene <- py_getitem result scene_id ;;
         result_scene <- update_scene existing_scene scene_data ;;
         py_setitem result scene_id result_scene
       else py_setitem result scene_id scene_data)
    result.

(** Lines 159-176: the merged state of a chapter already present. *)
Definition update_chapter (existing_chapter chapter_data : pyval) : result pyval :=
  let rn := KStr "reflection_notes" in
  result_chapter <- py_copy existing_chapter ;;
  c <- py_contains (KStr "scenes") chapter_data ;;
  result_chapter <-
    (if c then
       scenes <- py_get result_chapter "scenes" (VDict []) ;;
       new_scenes <- py_getitem chapter_data (KStr "scenes") ;;
       merged <- merge_scenes scenes new_scenes ;;
       py_setitem result_chapter (KStr "scenes") merged
     else Ok result_chapter) ;;
  c <- has_truthy chapter_data "reflection_notes" ;;
  result_chapter <-
    (if c then
       notes <- py_getitem chapter_data rn ;;
       c' <- py_contains rn result_chapter ;;
       if c' then
         old <- py_getitem result_chapter rn ;;
         s <- py_add old notes ;;
         py_setitem result_chapter rn s
       else py_setitem result_chapter rn notes
     else Ok result_chapter) ;;
  for_each ["title"; "outline"] (replace_if_truthy chapter_data) result_chapter.

Definition merge_chapters (existing new : pyval) : result pyval :=
  result <- py_copy existing ;;
  new_items <- py_items new ;;
  for_each new_items
    (fun result kv =>
       let '(chapter_id, chapter_data) := kv in
       c <- py_contains chapter_id result ;;
       if c then
         existing_chapter <- py_getitem result chapter_id ;;
         result_chapter <- update_chapter existing_chapter chapter_data ;;
         py_setitem result chapter_id result_chapter
       else py_setitem result chapter_id chapter_data)
    result.

(* ------------------------------------------------------------------ *)
(** ** merge_revelations *)

(** [issue.get("resolution_status") == "completed"]. *)
Definition completed (issue : pyval) : result bool :=
  s <- py_get issue "resolution_status" VNone ;;
  Ok (py_eq s (VStr "completed")).

(** Lines 211-222: one existing issue into [best_issues_by_chapter]. *)
Definition seed_issue (best : items) (issue : pyval) : result items :=
  chapter <- py_get issue "after_chapter" VNone ;;
  if negb (truthy chapter) then Ok best
  else
    key <- to_key chapter ;;
    match dict_get key best with
    | None => Ok (dict_set key issue best)
    | Some current =>
        c <- and_then (completed issue) (x <- completed current ;; Ok (negb x)) ;;
        if c then Ok (dict_set key issue best) else Ok best
    end.

(** Lines 225-237: one issue of the update into [best_issues_by_chapter]. *)
Definition fold_issue (best : items) (issue : pyval) : result items :=
  chapter <- py_get issue "after_chapter" VNone ;;
  if negb (truthy chapter) then Ok best
  else
    key <- to_key chapter ;;
    match dict_get key best with
    | None => Ok (dict_set key issue best)
    | Some current =>
        c <- or_else (completed issue) (x <- completed current ;; Ok (negb x)) ;;
        if c then Ok (dict_set key issue best) else Ok best
    end.

Definition continuity : pykey := KStr "continuity_issues".

(** Lines 191-200: one [key, values] of an update without
    ["continuity_issues"]. *)
Definition merge_plain_key (result : pyval) (kv : pykey * pyval)
  : Py.result pyval :=
  let '(key, values) := kv in
  c <- py_contains key result ;;
  if c then
    both <- and_then (Ok (is_list values))
                     (old <- py_getitem result key ;; Ok (is_list old)) ;;
    if both then
      old <- py_getitem result key ;;
      s <- py_add old values ;;
      py_setitem result key s
    else py_setitem result key values
  else py_setitem result key values.

(** Lines 246-248: one [key, value] of an update with
    ["continuity_issues"]. *)
Definition replace_other_key (result : pyval) (kv : pykey * pyval)
  : Py.result pyval :=
  let '(key, value) := kv in
  if negb (key_eqb key continuity) then py_setitem result key value
  else Ok result.

Definition merge_revelations (existing new : pyval) : result pyval :=
  result <- py_copy existing ;;
  plain <- or_else (Ok (negb (truthy new)))
                   (c <- py_contains continuity new ;; Ok (negb c)) ;;
  if plain then
    new_items <- py_items new ;;
    for_each new_items merge_plain_key result
  else
    old_issues <- py_get result "continuity_issues" (VList []) ;;
    new_issues <- py_get new "continuity_issues" (VList []) ;;
    olds <- py_iter old_issues ;;
    best_issues_by_chapter <- for_each olds seed_issue [] ;;
    news <- py_iter new_issues ;;
    best_issues_by_chapter <- for_each news fold_issue best_issues_by_chapter ;;
    let final_issues := VList (dict_values best_issues_by_chapter) in
    result <- py_setitem result continuity final_issues ;;
    new_items <- py_items new ;;
    for_each new_items replace_other_key result.

Definition merge_creative_elements (existing new : pyval) : result pyval :=
  result <- py_copy existing ;;
  new_items <- py_items new ;;
  for_each new_items
    (fun result kv => let '(key, value) := kv in py_setitem result key value)
    result.

(* ------------------------------------------------------------------ *)
(** ** merge_plot_threads *)

Fixpoint map_result {A B : Type} (f : A -> result B) (l : list A) : result (list B) :=
  match l with
  | [] => Ok []
  | x :: l' => y <- f x ;; ys <- map_result f l' ;; Ok (y :: ys)
  end.

Definition str_mem (s : string) (l : list string) : bool :=
  existsb (String.eqb s) l.

(** [f"{entry.get('chapter')}_{entry.get('scene')}_{entry.get('development')}"]. *)
Definition history_key (entry : pyval) : result string :=
  c <- py_get entry "chapter" VNone ;;
  s <- py_get entry "scene" VNone ;;
  d <- py_get entry "development" VNone ;;
  Ok (py_str c ++ "_" ++ py_str s ++ "_" ++ py_str d)%string.

(** Lines 296-299: one entry of [new_history]. *)
Definition append_if_new (existing_entries : list string)
           (existing_history entry : pyval) : result pyval :=
  entry_key <- history_key entry ;;
  if negb (str_mem entry_key existing_entries)
  then py_append existing_history entry
  else Ok existing_history.

(** Lines 286-301. *)
Definition merge_history (existing_thread thread_data : pyval) : result pyval :=
  let dh := KStr "development_history" in
  c <- has_truthy thread_data "development_history" ;;
  if c then
    existing_history <- py_get existing_thread "development_history" (VList []) ;;
    new_history <- py_getitem thread_data dh ;;
    old_entries <- py_iter existing_history ;;
    existing_entries <- map_result history_key old_entries ;;
    new_entries <- py_iter new_history ;;
    existing_history <-
      for_each new_entries (append_if_new existing_entries) existing_history ;;
    py_setitem existing_thread dh existing_history
  else Ok existing_thread.

(** Lines 276-278. *)
Definition update_status (existing_thread thread_data : pyval) : result pyval :=
  new_status <- py_get thread_data "status" VNone ;;
  old_status <- py_get existing_thread "status" VNone ;;
  if negb (py_eq new_status old_status) then
    v <- py_getitem thread_data (KStr "status") ;;
    py_setitem existing_thread (KStr "status") v
  else Ok existing_thread.

(** Lines 280-283. *)
Definition update_last_seen (existing_thread thread_data : pyval) : result pyval :=
  c <- and_then (lc <- py_get thread_data "last_chapter" VNone ;; Ok (truthy lc))
                (ls <- py_get thread_data "last_scene" VNone ;; Ok (truthy ls)) ;;
  if c then
    lc <- py_getitem thread_data (KStr "last_chapter") ;;
    existing_thread <- py_setitem existing_thread (KStr "last_chapter") lc ;;
    ls <- py_getitem thread_data (KStr "last_scene") ;;
    py_setitem existing_thread (KStr "last_scene") ls
  else Ok existing_thread.

(** Lines 274-301: the thread [result[thread_name]] after the updates. *)
Definition update_thread (existing_thread thread_data : pyval) : result pyval :=
  existing_thread <- update_status existing_thread thread_data ;;
  existing_thread <- update_last_seen existing_thread thread_data ;;
  merge_history existing_thread thread_data.

Definition merge_plot_threads (existing new : pyval) : result pyval :=
  result <- py_copy existing ;;
  new_items <- py_items new ;;
  for_each new_items
    (fun result kv =>
       let '(thread_name, thread_data) := kv in
       c <- py_contains thread_name result ;;
       if c then
         existing_thread <- py_getitem result thread_name ;;
         existing_thread <- update_thread existing_thread thread_data ;;
         py_setitem result thread_name existing_thread
       else py_setitem result thread_name thread_data)
    result.

(* ------------------------------------------------------------------ *)
(** ** merge_world_elements *)

(** Lines 333-350: one [key, value] of the update into [result_category]. *)
Definition merge_element (result_category : pyval) (kv : pykey * pyval)
  : result pyval :=
  let '(key, value) := kv in
  c <- py_contains key result_category ;;
  if c then
    lists <- and_then (Ok (is_list value))
                      (old <- py_getitem result_category key ;; Ok (is_list old)) ;;
    if lists then
      old <- py_getitem result_category key ;;
      old_items <- py_iter old ;;
      let existing_items := map py_str old_items in
      new_items <- py_iter value ;;
      old <- for_each new_items
               (fun cur item =>
                  if negb (str_mem (py_str item) existing_items)
                  then py_append cur item
                  else Ok cur)
               old ;;
      py_setitem result_category key old
    else
      dicts <- and_then (Ok (is_dict value))
                        (old <- py_getitem result_category key ;; Ok (is_dict old)) ;;
      if dicts then
        old <- py_getitem result_category key ;;
        match old, value with
        | VDict a, VDict b => py_setitem result_category key (VDict (dict_union a b))
        | _, _ => Raise TypeError
        end
      else if truthy value then py_setitem result_category key value
      else Ok result_category
  else py_setitem result_category key value.

Definition merge_world_elements (existing new : pyval) : result pyval :=
  result <- py_copy existing ;;
  new_items <- py_items new ;;
  for_each new_items
    (fun result kv =>
       let '(category, elements) := kv in
       c <- py_contains category result ;;
       if c then
         existing_category <- py_getitem result category ;;
         result_category <- py_copy existing_category ;;
         element_items <- py_items elements ;;
         result_category <- for_each element_items merge_element result_category ;;
         py_setitem result category result_category
       else py_setitem result category elements)
    result.

(* ------------------------------------------------------------------ *)
(** ** The loop the keyed reducers share *)

(** One turn of [for key, data in new.items()] as [merge_characters],
    [merge_scenes], [merge_chapters] and [merge_plot_threads] write it:
    an entity already in [result] is replaced by [update] of it, a new
    one is stored as it comes; [skip] is the [continue] test of
    [merge_characters]. *)
Definition merge_entry (skip : pyval -> bool)
           (update : pyval -> pyval -> result pyval)
           (result : pyval) (kv : pykey * pyval) : Py.result pyval :=
  let '(key, data) := kv in
  if skip data then Ok result
  else
    c <- py_contains key result ;;
    if c then
      entity <- py_getitem result key ;;
      entity <- update entity data ;;
      py_setitem result key entity
    else py_setitem result key data.

Definition never (_ : pyval) : bool := false.

End Models.

(* ================================================================== *)
(** * Values in a store: object identity and in-place update *)
(* ================================================================== *)

Module Store.
Import Py.

Definition addr : Type := nat.

(** A value is a scalar or a reference to a list or dict object. *)
Inductive sval : Type :=
| SNone
| SBool (b : bool)
| SInt (z : Z)
| SStr (s : string)
| SRef (a : addr).

Inductive obj : Type :=
| OList (l : list sval)
| ODict (d : list (pykey * sval)).

(** The object at address [a] is the [a]-th of the store. *)
Definition store : Type := list obj.

(** A call ends with a value or an exception, and with the store it
    leaves behind in both cases. *)
Inductive outcome (A : Type) : Type :=
| Done (a : A) (st : store)
| Fail (e : pyexc) (st : store).

Arguments Done {A} a st.
Arguments Fail {A} e st.

Definition M (A : Type) : Type := store -> outcome A.

Definition ret {A : Type} (a : A) : M A := fun st => Done a st.

Definition raise {A : Type} (e : pyexc) : M A := fun st => Fail e st.

Definition bind {A B : Type} (c : M A) (k : A -> M B) : M B :=
  fun st =>
    match c st with
    | Done a st' => k a st'
    | Fail e st' => Fail e st'
    end.

Notation "x <~ c ;; k" := (bind c (fun x => k))
  (at level 61, c at next level, right associativity).
Notation "c ;;~ k" := (bind c (fun _ => k))
  (at level 61, right associativity).

Fixpoint for_each {A : Type} (xs : list A) (body : A -> M unit) : M unit :=
  match xs with
  | [] => ret tt
  | x :: xs' => body x ;;~ for_each xs' body
  end.

Fixpoint map_m {A B : Type} (f : A -> M B) (xs : list A) : M (list B) :=
  match xs with
  | [] => ret []
  | x :: xs' => y <~ f x ;; ys <~ map_m f xs' ;; ret (y :: ys)
  end.

Definition key_sval (k : pykey) : sval :=
  match k with
  | KNone => SNone
  | KBool b => SBool b
  | KInt z => SInt z
  | KStr s => SStr s
  end.

(** The object a value refers to, if it is a reference. *)
Definition view (v : sval) : M (option obj) :=
  fun st =>
    Done (match v with
          | SRef a => nth_error st a
          | _ => None
          end) st.

Definition alloc (o : obj) : M sval :=
  fun st => Done (SRef (List.length st)) (st ++ [o]).

Definition update (a : addr) (o : obj) : M unit :=
  fun st => Done tt (list_set a o st).

Fixpoint map_option {A B : Type} (f : A -> option B) (l : list A) : option (list B) :=
  match l with
  | [] => Some []
  | x :: l' =>
      match f x, map_option f l' with
      | Some y, Some ys => Some (y :: ys)
      | _, _ => None
      end
  end.

(** The tree a value denotes in a store; [fuel] bounds the depth. *)
Fixpoint reify (fuel : nat) (st : store) (v : sval) : option pyval :=
  match v with
  | SNone => Some VNone
  | SBool b => Some (VBool b)
  | SInt z => Some (VInt z)
  | SStr s => Some (VStr s)
  | SRef a =>
      match fuel with
      | O => None
      | S fuel' =>
          match nth_error st a with
          | Some (OList l) => option_map VList (map_option (reify fuel' st) l)
          | Some (ODict d) =>
              option_map VDict
                (map_option
                   (fun kv => option_map (pair (fst kv)) (reify fuel' st (snd kv)))
                   d)
          | None => None
          end
      end
  end.

(** The tree of a value in the current store.  A value that contains
    itself has none; comparing such values is a [RecursionError]. *)
Definition snapshot (st : store) (v : sval) : option pyval :=
  reify (S (List.length st)) st v.

Definition value (v : sval) : M pyval :=
  fun st =>
    match snapshot st v with
    | Some p => Done p st
    | None => Fail RecursionError st
    end.

(** Allocation of a tree as fresh objects, none of them shared. *)
Fixpoint load (v : pyval) (st : store) : sval * store :=
  match v with
  | VNone => (SNone, st)
  | VBool b => (SBool b, st)
  | VInt z => (SInt z, st)
  | VStr s => (SStr s, st)
  | VList l =>
      let '(svs, st') :=
        (fix go (l : list pyval) (st : store) : list sval * store :=
           match l with
           | [] => ([], st)
           | x :: l' =>
               let '(sx, st1) := load x st in
               let '(sl, st2) := go l' st1 in
               (sx :: sl, st2)
           end) l st in
      (SRef (List.length st'), st' ++ [OList svs])
  | VDict d =>
      let '(svs, st') :=
        (fix go (d : items) (st : store) : list (pykey * sval) * store :=
           match d with
           | [] => ([], st)
           | (k, x) :: d' =>
               let '(sx, st1) := load x st in
               let '(sl, st2) := go d' st1 in
               ((k, sx) :: sl, st2)
           end) d st in
      (SRef (List.length st'), st' ++ [ODict svs])
  end.

(* ------------------------------------------------------------------ *)
(** ** Builtin operations on store values *)

Definition s_truthy (v : sval) : M bool :=
  o <~ view v ;;
  ret match v, o with
      | SNone, _ => false
      | SBool b, _ => b
      | SInt z, _ => negb (Z.eqb z 0)
      | SStr s, _ => negb (String.eqb s "")
      | SRef _, Some (OList []) => false
      | SRef _, Some (ODict []) => false
      | SRef _, _ => true
      end.

Definition s_is_list (v : sval) : M bool :=
  o <~ view v ;;
  ret match o with Some (OList _) => true | _ => false end.

Definition s_is_dict (v : sval) : M bool :=
  o <~ view v ;;
  ret match o with Some (ODict _) => true | _ => false end.

(** [a == b]. *)
Definition s_eq (a b : sval) : M bool :=
  x <~ value a ;; y <~ value b ;; ret (py_eq x y).

(** [str(v)]. *)
Definition s_str (v : sval) : M string :=
  x <~ value v ;; ret (py_str x).

(** [x.copy()]: a new object with the same elements (a shallow copy). *)
Definition s_copy (x : sval) : M sval :=
  o <~ view x ;;
  match o with
  | Some ob => alloc ob
  | None => raise AttributeError
  end.

(** [x.items()]. *)
Definition s_items (x : sval) : M (list (pykey * sval)) :=
  o <~ view x ;;
  match o with
  | Some (ODict d) => ret d
  | _ => raise AttributeError
  end.

(** [k in x]. *)
Definition s_contains (k : pykey) (x : sval) : M bool :=
  o <~ view x ;;
  match x, o with
  | _, Some (ODict d) => ret (dict_mem k d)
  | _, Some (OList l) =>
      vs <~ map_m value l ;; ret (existsb (py_eq (key_val k)) vs)
  | SStr s, _ =>
      match k with
      | KStr t => ret (str_contains t s)
      | _ => raise TypeError
      end
  | _, _ => raise TypeError
  end.

(** [x[k]]. *)
Definition s_getitem (x : sval) (k : pykey) : M sval :=
  o <~ view x ;;
  match x, o with
  | _, Some (ODict d) =>
      match dict_get k d with
      | Some v => ret v
      | None => raise KeyError
      end
  | _, Some (OList l) =>
      match key_index k with
      | Some z =>
          match seq_index z (List.length l) with
          | Some i =>
              match nth_error l i with
              | Some v => ret v
              | None => raise IndexError
              end
          | None => raise IndexError
          end
      | None => raise TypeError
      end
  | SStr s, _ =>
      match key_index k with
      | Some z =>
          match seq_index z (String.length s) with
          | Some i =>
              match String.get i s with
              | Some c => ret (SStr (String c ""))
              | None => raise IndexError
              end
          | None => raise IndexError
          end
      | None => raise TypeError
      end
  | _, _ => raise TypeError
  end.

(** [x[k] = v], in place. *)
Definition s_setitem (x : sval) (k : pykey) (v : sval) : M unit :=
  o <~ view x ;;
  match x, o with
  | SRef a, Some (ODict d) => update a (ODict (dict_set k v d))
  | SRef a, Some (OList l) =>
      match key_index k with
      | Some z =>
          match seq_index z (List.length l) with
          | Some i => update a (OList (list_set i v l))
          | None => raise IndexError
          end
      | None => raise TypeError
      end
  | _, _ => raise TypeError
  end.

(** [x.get(k, default)] for a literal key. *)
Definition s_get (x : sval) (k : string) (default : sval) : M sval :=
  o <~ view x ;;
  match o with
  | Some (ODict d) =>
      match dict_get (KStr k) d with
      | Some v => ret v
      | None => ret default
      end
  | _ => raise AttributeError
  end.

(** The elements [for e in x] visits, as they are when the loop starts. *)
Definition s_iter (x : sval) : M (list sval) :=
  o <~ view x ;;
  match x, o with
  | _, Some (OList l) => ret l
  | _, Some (ODict d) => ret (map (fun kv => key_sval (fst kv)) d)
  | SStr s, _ =>
      ret (map (fun c => match c with VStr t => SStr t | _ => SNone end) (str_chars s))
  | _, _ => raise TypeError
  end.

(** [x.append(v)], in place. *)
Definition s_append (x : sval) (v : sval) : M unit :=
  o <~ view x ;;
  match x, o with
  | SRef a, Some (OList l) => update a (OList (l ++ [v]))
  | _, _ => raise AttributeError
  end.

Definition and_then (a b : M bool) : M bool :=
  x <~ a ;; if x then b else ret false.

End Store.

(* ================================================================== *)
(** * The two reducers that update objects in place, on the store *)
(* ================================================================== *)

Module StoreModels.
Import Py Store.

(** [k in x and x[k]]. *)
Definition has_truthy (x : sval) (k : string) : M bool :=
  and_then (s_contains (KStr k) x)
           (v <~ s_getitem x (KStr k) ;; s_truthy v).

(** [f"{entry.get('chapter')}_{entry.get('scene')}_{entry.get('development')}"]. *)
Definition history_key (entry : sval) : M string :=
  c <~ s_get entry "chapter" SNone ;;
  cs <~ s_str c ;;
  s <~ s_get entry "scene" SNone ;;
  ss <~ s_str s ;;
  d <~ s_get entry "development" SNone ;;
  ds <~ s_str d ;;
  ret (cs ++ "_" ++ ss ++ "_" ++ ds)%string.

(** Lines 286-301.  [existing_history] is the list object of the
    existing thread when it has one, and [append] updates that object.
    The loop visits the entries [new_history] holds when it starts;
    Python reads the list anew at each step, which differs only when
    [new_history] is the very list appended to, and then every key is
    in [existing_entries] and nothing is appended. *)
Definition merge_history (existing_thread thread_data : sval) : M unit :=
  let dh := KStr "development_history" in
  c <~ has_truthy thread_data "development_history" ;;
  if c then
    fresh <~ alloc (OList []) ;;
    existing_history <~ s_get existing_thread "development_history" fresh ;;
    new_history <~ s_getitem thread_data dh ;;
    old_entries <~ s_iter existing_history ;;
    existing_entries <~ map_m history_key old_entries ;;
    new_entries <~ s_iter new_history ;;
    for_each new_entries
      (fun entry =>
         entry_key <~ history_key entry ;;
         if negb (Models.str_mem entry_key existing_entries)
         then s_append existing_history entry
         else ret tt) ;;~
    s_setitem existing_thread dh existing_history
  else ret tt.

(** Lines 274-301.  [existing_thread] is [result[thread_name]], the
    object the existing snapshot holds: no copy is taken. *)
Definition update_thread (existing_thread thread_data : sval) : M unit :=
  new_status <~ s_get thread_data "status" SNone ;;
  old_status <~ s_get existing_thread "status" SNone ;;
  same <~ s_eq new_status old_status ;;
  (if negb same then
     v <~ s_getitem thread_data (KStr "status") ;;
     s_setitem existing_thread (KStr "status") v
   else ret tt) ;;~
  c <~ and_then (lc <~ s_get thread_data "last_chapter" SNone ;; s_truthy lc)
                (ls <~ s_get thread_data "last_scene" SNone ;; s_truthy ls) ;;
  (if c then
     lc <~ s_getitem thread_data (KStr "last_chapter") ;;
     s_setitem existing_thread (KStr "last_chapter") lc ;;~
     ls <~ s_getitem thread_data (KStr "last_scene") ;;
     s_setitem existing_thread (KStr "last_scene") ls
   else ret tt) ;;~
  merge_history existing_thread thread_data.

Definition merge_plot_threads (existing new : sval) : M sval :=
  result <~ s_copy existing ;;
  new_items <~ s_items new ;;
  for_each new_items
    (fun kv =>
       let '(thread_name, thread_data) := kv in
       c <~ s_contains thread_name result ;;
       if c then
         existing_thread <~ s_getitem result thread_name ;;
         update_thread existing_thread thread_data ;;~
         s_setitem result thread_name existing_thread
       else s_setitem result thread_name thread_data) ;;~
  ret result.

(** Lines 333-350.  [result_category] is a shallow copy: the lists it
    holds are the lists of the existing category, and
    [result_category[key].append(item)] updates them. *)
Definition merge_element (result_category : sval) (kv : pykey * sval) : M unit :=
  let '(key, value) := kv in
  c <~ s_contains key result_category ;;
  if c then
    lists <~ and_then (s_is_list value)
                      (old <~ s_getitem result_category key ;; s_is_list old) ;;
    if lists then
      old <~ s_getitem result_category key ;;
      old_items <~ s_iter old ;;
      existing_items <~ map_m s_str old_items ;;
      new_items <~ s_iter value ;;
      for_each new_items
        (fun item =>
           item_str <~ s_str item ;;
           if negb (Models.str_mem item_str existing_items)
           then target <~ s_getitem result_category key ;; s_append target item
           else ret tt)
    else
      dicts <~ and_then (s_is_dict value)
                        (old <~ s_getitem result_category key ;; s_is_dict old) ;;
      if dicts then
        old <~ s_getitem result_category key ;;
        a <~ s_items old ;;
        b <~ s_items value ;;
        merged <~ alloc (ODict (dict_union a b)) ;;
        s_setitem result_category key merged
      else
        t <~ s_truthy value ;;
        if t then s_setitem result_category key value else ret tt
  else s_setitem result_category key value.

Definition merge_world_elements (existing new : sval) : M sval :=
  result <~ s_copy existing ;;
  new_items <~ s_items new ;;
  for_each new_items
    (fun kv =>
       let '(category, elements) := kv in
       c <~ s_contains category result ;;
       if c then
         existing_category <~ s_getitem result category ;;
         result_category <~ s_copy existing_category ;;
         element_items <~ s_items elements ;;
         for_each element_items (merge_element result_category) ;;~
         s_setitem result category result_category
       else s_setitem result category elements) ;;~
  ret result.

(** A call on arguments allocated apart: the returned value, and the
    existing snapshot as it is before and after the call. *)
Record observed : Type := {
  returned : option pyval;
  existing_before : option pyval;
  existing_after : option pyval
}.

Definition observe (f : sval -> sval -> M sval) (existing new : pyval) : observed :=
  let '(e, st1) := load existing [] in
  let '(n, st2) := load new st1 in
  match f e n st2 with
  | Done r st3 =>
      {| returned := snapshot st3 r;
         existing_before := snapshot st2 e;
         existing_after := snapshot st3 e |}
  | Fail _ st3 =>
      {| returned := None;
         existing_before := snapshot st2 e;
         existing_after := snapshot st3 e |}
  end.

(** The same update merged twice, the second time into what the first
    call returned: the two returned values as they read after each call. *)
Definition observe_twice (f : sval -> sval -> M sval) (existing new : pyval)
  : option pyval * option pyval :=
  let '(e, st1) := load existing [] in
  let '(n, st2) := load new st1 in
  match f e n st2 with
  | Done r1 st3 =>
      match f r1 n st3 with
      | Done r2 st4 => (snapshot st3 r1, snapshot st4 r2)
      | Fail _ _ => (snapshot st3 r1, None)
      end
  | Fail _ _ => (None, None)
  end.

End StoreModels.

(* ================================================================== *)
(** * Vocabulary of the statements *)
(* ================================================================== *)

Module Spec.
Import Py Models.

(** What an entry [(k, v)] of the update becomes in the merged dict
    [rd], [d] being the existing one. *)
Definition merged_entry (skip : pyval -> bool)
           (update : pyval -> pyval -> result pyval)
           (d rd : items) (k : pykey) (v : pyval) : Prop :=
  if skip v then dict_get k rd = dict_get k d
  else match dict_get k d with
       | Some e => exists e', update e v = Ok e' /\ dict_get k rd = Some e'
       | None => dict_get k rd = Some v
       end.

(** [r] is a dict that holds at [k] what [rc] holds. *)
Definition keeps (k : pykey) (rc : items) (r : pyval) : Prop :=
  exists rd, r = VDict rd /\ dict_get k rd = dict_get k rc.

(** A dict with string keys, as the state is written in the sources. *)
Definition obj (l : list (string * pyval)) : pyval :=
  VDict (map (fun kv => (KStr (fst kv), snd kv)) l).

(** The key of the relationships of a character. *)
Definition rel : pykey := KStr "relationships".


(** The key of the notes of a scene. *)
Definition rn : pykey := KStr "reflection_notes".

(** The notes a scene holds: none when it has no ["reflection_notes"];
    undefined when what it holds there is no list. *)
Definition notes_of (scene : items) : option (list pyval) :=
  match dict_get rn scene with
  | None => Some []
  | Some (VList l) => Some l
  | Some _ => None
  end.

(** [issue.get("after_chapter")], [None] when there is none. *)
Definition after_chapter (issue : pyval) : pyval :=
  match py_get issue "after_chapter" VNone with
  | Ok v => v
  | Raise _ => VNone
  end.

(** [issue.get("resolution_status") == "completed"]. *)
Definition is_completed (issue : pyval) : bool :=
  match completed issue with
  | Ok b => b
  | Raise _ => false
  end.

(** The continuity issues a revelations value holds. *)
Definition continuity_issues (rev : pyval) : list pyval :=
  match py_get rev "continuity_issues" (VList []) with
  | Ok (VList l) => l
  | _ => []
  end.

(** The issues whose [after_chapter] equals [c]. *)
Definition issues_after (c : pyval) (rev : pyval) : list pyval :=
  filter (fun i => py_eq (after_chapter i) c) (continuity_issues rev).

(** At most one issue per chapter. *)
Definition single_record (rev : pyval) : Prop :=
  forall c, List.length (issues_after c rev) <= 1.

Definition scalar (v : pyval) : bool :=
  match v with
  | VList _ | VDict _ => false
  | _ => true
  end.

(** An issue is a dict whose chapter, if any, is a scalar. *)
Definition issue_shaped (i : pyval) : bool :=
  match i with
  | VDict d =>
      match dict_get (KStr "after_chapter") d with
      | Some c => scalar c
      | None => true
      end
  | _ => false
  end.

(** A revelations value is a dict whose continuity issues, if any,
    are a list of issues. *)
Definition revelations_shaped (rev : pyval) : bool :=
  match rev with
  | VDict d =>
      match dict_get continuity d with
      | None => true
      | Some (VList l) => forallb issue_shaped l
      | Some _ => false
      end
  | _ => false
  end.

(** An item of [best_issues_by_chapter]: an issue under the key its
    chapter hashes to. *)
Definition entry_ok (kv : pykey * pyval) : Prop :=
  issue_shaped (snd kv) = true
  /\ exists k', to_key (after_chapter (snd kv)) = Ok k' /\ key_eqb k' (fst kv) = true.

Definition best_ok (best : items) : Prop :=
  keys_distinct best = true /\ Forall entry_ok best.

(** The key an issue is filed under: the hash of its chapter, when it
    has one that is true. *)
Definition chapter_key (issue : pyval) : option pykey :=
  match issue with
  | VDict d =>
      match dict_get (KStr "after_chapter") d with
      | Some chapter =>
          if truthy chapter then
            match to_key chapter with
            | Ok k => Some k
            | Raise _ => None
            end
          else None
      | None => None
      end
  | _ => None
  end.

Definition has_chapter (issue : pyval) : bool :=
  match chapter_key issue with Some _ => true | None => false end.

(** The issues of a list under their keys. *)
Definition keyed (issues : list pyval) : items :=
  flat_map (fun i => match chapter_key i with Some k => [(k, i)] | None => [] end) issues.

(** Every issue has a chapter, and no two the same. *)
Definition well_keyed (issues : list pyval) : bool :=
  forallb has_chapter issues && keys_distinct (keyed issues).

Definition same_chapter (a b : pyval) : bool :=
  match chapter_key a, chapter_key b with
  | Some x, Some y => key_eqb x y
  | _, _ => false
  end.

(** *** The precedence rule, in the words of the specification *)

(** An issue whose [resolution_status] is the text ["completed"]. *)
Definition resolved (issue : pyval) : bool :=
  match issue with
  | VDict d =>
      match dict_get (KStr "resolution_status") d with
      | Some (VStr s) => String.eqb s "completed"
      | _ => false
      end
  | _ => false
  end.

(** The record kept for a chapter that holds [current] when a new issue
    comes for it: the new one if it is completed or the current one is
    not, the current one otherwise. *)
Definition precedence (current new_issue : pyval) : pyval :=
  if resolved new_issue || negb (resolved current) then new_issue else current.

(** What a chapter holds after new issues came for it, one after the
    other; [slot] is what it held before, if anything. *)
Definition filed_after (slot : option pyval) (news : list pyval) : option pyval :=
  fold_left
    (fun s n => Some match s with
                     | Some current => precedence current n
                     | None => n
                     end)
    news slot.

Definition record_of (slot : option pyval) : list pyval :=
  match slot with
  | Some i => [i]
  | None => []
  end.

(** [best_issues_by_chapter] holds every issue under the key of its
    chapter, and no key twice. *)
Definition filed (best : items) : Prop :=
  keys_distinct best = true
  /\ Forall (fun kv => exists k, chapter_key (snd kv) = Some k
                                  /\ key_eqb k (fst kv) = true) best.

(** Keys of a plot thread. *)
Definition dh : pykey := KStr "development_history".

Definition status : pykey := KStr "status".

Definition last_chapter : pykey := KStr "last_chapter".

Definition last_scene : pykey := KStr "last_scene".

(** The development history a thread holds. *)
Definition history (thread : pyval) : list pyval :=
  match py_get thread "development_history" (VList []) with
  | Ok (VList l) => l
  | _ => []
  end.

(** The composite key of a history entry. *)
Definition entry_key (entry : pyval) : string :=
  match history_key entry with
  | Ok s => s
  | Raise _ => ""
  end.

(** The entries of [new] whose key no entry of [old] has. *)
Definition fresh_entries (old new : list pyval) : list pyval :=
  filter (fun x => negb (str_mem (entry_key x) (map entry_key old))) new.

(** A thread is a dict whose history, if any, is a list of dicts. *)
Definition thread_shaped (td : pyval) : bool :=
  match td with
  | VDict d =>
      match dict_get dh d with
      | None => true
      | Some (VList l) => forallb is_dict l
      | Some _ => false
      end
  | _ => false
  end.

(** [d.get(k)]. *)
Definition field (d : items) (k : pykey) : pyval :=
  match dict_get k d with
  | Some v => v
  | None => VNone
  end.

(** The thread [e] already holds what the update [td] brings: its
    history has the key of every entry of the update, *)
Definition history_absorbed (e td : items) : Prop :=
  forall nh, dict_get dh td = Some (VList nh) -> nh <> [] ->
    exists h, dict_get dh e = Some (VList h)
              /\ forallb is_dict h = true
              /\ forall x, In x nh -> str_mem (entry_key x) (map entry_key h) = true.

(** its status is the one of the update, *)
Definition status_absorbed (e td : items) : Prop :=
  py_eq (field td status) (field e status) = true
  \/ (dict_get status td <> None /\ dict_get status e = dict_get status td).

(** and so are its last chapter and scene when the update has both. *)
Definition last_seen_absorbed (e td : items) : Prop :=
  truthy (field td last_chapter) && truthy (field td last_scene) = true ->
  dict_get last_chapter e = dict_get last_chapter td
  /\ dict_get last_scene e = dict_get last_scene td.

Definition absorbs (e td : items) : Prop :=
  status_absorbed e td /\ last_seen_absorbed e td /\ history_absorbed e td.

(** The history of the thread [name] in a dict of threads. *)
Definition history_of (threads : pyval) (name : pykey) : list pyval :=
  match py_getitem threads name with
  | Ok thread => history thread
  | Raise _ => []
  end.

(** *** Inputs of the evaluations below *)

Definition issue (chapter status : string) : pyval :=
  obj [("after_chapter", VStr chapter); ("resolution_status", VStr status)].

Definition revelations_initial : pyval :=
  obj [("reader", VList []); ("characters", VList [])].

Definition revelations_updates : list pyval :=
  [obj [("continuity_issues", VList [issue "3" "open"])];
   obj [("continuity_issues", VList [issue "3" "completed"; issue "4" "open"])];
   obj [("reader", VList [VStr "the heir is alive"])]].

Definition scene_with_five_notes : items :=
  [(KStr "content", VStr "A");
   (rn, VList [VStr "too short"; VStr "flat dialogue"; VStr "no stakes";
               VStr "pacing"; VStr "ending"])].

Definition scene_revised : items :=
  [(KStr "content", VStr "A expanded");
   (rn, VList [VStr revised_marker])].

Definition bob_ally : pyval :=
  VList [obj [("character", VStr "bob"); ("relationship", VStr "ally")]].

Definition alice_bare : pyval :=
  obj [("alice", obj [("name", VStr "Alice")])].

Definition alice_no_relationships : pyval :=
  obj [("alice", obj [("name", VStr "Alice"); ("relationships", VDict [])])].

Definition alice_delta : pyval :=
  obj [("alice", obj [("relationships", bob_ally)])].

Definition thread_open : pyval :=
  obj [("t", obj [("status", VStr "open")])].

Definition thread_without_status : pyval :=
  obj [("t", obj [])].

Definition history_entry (chapter scene development : string) : pyval :=
  obj [("chapter", VStr chapter); ("scene", VStr scene);
       ("development", VStr development)].

Definition threads_before : pyval :=
  obj [("t", obj [("status", VStr "open");
                  ("development_history", VList [history_entry "1" "1" "x"])])].

Definition threads_delta : pyval :=
  obj [("t", obj [("status", VStr "resolved");
                  ("development_history",
                   VList [history_entry "1" "1" "x"; history_entry "1" "2" "y"])])].

Definition threads_after : pyval :=
  obj [("t", obj [("status", VStr "resolved");
                  ("development_history",
                   VList [history_entry "1" "1" "x"; history_entry "1" "2" "y"])])].

Definition world_before : pyval :=
  obj [("geography", obj [("places", VList [VStr "a"])])].

Definition world_delta : pyval :=
  obj [("geography", obj [("places", VList [VStr "a"; VStr "b"])])].

Definition world_after : pyval :=
  obj [("geography", obj [("places", VList [VStr "a"; VStr "b"])])].

Definition revelations_before : pyval :=
  obj [("reader", VList [VStr "a"]); ("continuity_issues", VList [])].

Definition revelations_delta : pyval :=
  obj [("reader", VList [VStr "b"]); ("continuity_issues", VList [])].

Definition revelations_delta_plain : pyval :=
  obj [("reader", VList [VStr "b"])].

End Spec.

(* ================================================================== *)
(** * Blocks of the reducers and the values they leave *)
(* ================================================================== *)

Module Blocks.
Import Py Models Spec.

(** The reducers that loop over the entities of the update and merge
    each into the entity of the same name. *)
Definition keyed_reducers : list (pyval -> pyval -> result pyval) :=
  [merge_characters; merge_scenes; merge_chapters; merge_plot_threads;
   merge_world_elements].

(** The list a character holds under [f]; a missing field and a value
    that is no list read as the empty list. *)
Definition list_field (d : items) (f : string) : list pyval :=
  match dict_get (KStr f) d with
  | Some (VList l) => l
  | _ => []
  end.

(** [merge_scenes], lines 126-131: the fields assigned when the update
    holds a true value. *)
Definition scene_value_fields : list string := ["content"; "structured_reflection"].

Definition scenes_key : pykey := KStr "scenes".

(** [merge_chapters], lines 162-164:
    [if "scenes" in chapter_data:
       result_chapter["scenes"] =
         merge_scenes(result_chapter.get("scenes", {}), chapter_data["scenes"])]. *)
Definition merge_chapter_scenes (chapter_data result_chapter : pyval) : result pyval :=
  c <- py_contains (KStr "scenes") chapter_data ;;
  if c then
    scenes <- py_get result_chapter "scenes" (VDict []) ;;
    new_scenes <- py_getitem chapter_data (KStr "scenes") ;;
    merged <- merge_scenes scenes new_scenes ;;
    py_setitem result_chapter (KStr "scenes") merged
  else Ok result_chapter.

(** [merge_chapters], lines 167-171: the reflection notes of a chapter
    are added to the existing ones, or stored when there are none. *)
Definition merge_chapter_notes (chapter_data result_chapter : pyval) : result pyval :=
  let rn := KStr "reflection_notes" in
  c <- has_truthy chapter_data "reflection_notes" ;;
  if c then
    notes <- py_getitem chapter_data rn ;;
    c' <- py_contains rn result_chapter ;;
    if c' then
      old <- py_getitem result_chapter rn ;;
      s <- py_add old notes ;;
      py_setitem result_chapter rn s
    else py_setitem result_chapter rn notes
  else Ok result_chapter.

(** [merge_revelations], lines 191-200: the value an update without
    continuity issues leaves at a key that held [old]. *)
Definition plain_value (old : option pyval) (values : pyval) : pyval :=
  match old, values with
  | Some (VList a), VList b => VList (a ++ b)
  | _, _ => values
  end.

Definition append_or_replace (old values : pyval) : result pyval :=
  Ok (plain_value (Some old) values).

(** Every issue filed in [best] names a chapter and is one of [pool]. *)
Definition from_operands (pool : list pyval) (best : items) : Prop :=
  Forall (fun kv => truthy (after_chapter (snd kv)) = true /\ In (snd kv) pool) best.

(** What a [for] loop over [v] visits; nothing when [v] cannot be
    iterated. *)
Definition iterated (v : pyval) : list pyval :=
  match py_iter v with
  | Ok l => l
  | Raise _ => []
  end.

(** [merge_plot_threads], line 281:
    [thread_data.get("last_chapter") and thread_data.get("last_scene")]. *)
Definition both_seen (td : items) : bool :=
  truthy (field td last_chapter) && truthy (field td last_scene).

(** [merge_world_elements], lines 330-350: the merged category, for a
    category the existing dict holds. *)
Definition update_category (existing_category elements : pyval) : result pyval :=
  result_category <- py_copy existing_category ;;
  element_items <- py_items elements ;;
  for_each element_items merge_element result_category.

(** [merge_world_elements], lines 336-340: the items of [new] whose
    [str] is not the [str] of an item of [old]. *)
Definition fresh_items (old new : list pyval) : list pyval :=
  filter (fun item => negb (str_mem (py_str item) (map py_str old))) new.

(** [merge_world_elements], lines 333-350: what [key, value] of an
    update leaves under [key] in a category that holds [old] there. *)
Definition element_value (old : option pyval) (value : pyval) : pyval :=
  match old with
  | None => value
  | Some o =>
      match o, value with
      | VList a, VList b => VList (a ++ fresh_items a b)
      | VDict a, VDict b => VDict (dict_union a b)
      | _, _ => if truthy value then value else o
      end
  end.

Definition update_element (old value : pyval) : result pyval :=
  Ok (element_value (Some old) value).

(** A [WorldElementsDict]: every category is a dict. *)
Definition world_shaped (w : items) : bool :=
  forallb (fun kv => is_dict (snd kv)) w.

End Blocks.

(* ================================================================== *)
(** * storyteller_lib/__init__.py: progress tracking *)
(* ================================================================== *)

Module Progress.
Import Py.

Section Tracking.

(** Readings of [time.time()] and the callables given to
    [set_progress_callback]; what a callable does when it is called (it
    may raise) is [invoke]. *)
Variable time : Type.
Variable callback : Type.
Variable invoke : callback -> string -> pyval -> result unit.

(** The module globals [_progress_callback], [_start_time],
    [_node_counts]. *)
Record tracking : Type := {
  progress_callback : option callback;
  start_time : option time;
  node_counts : list (pykey * Z)
}.

Definition initial : tracking :=
  {| progress_callback := None; start_time := None; node_counts := [] |}.

(** Lines 37-39:
    [if node_name not in _node_counts: _node_counts[node_name] = 0]
    then [_node_counts[node_name] += 1]. *)
Definition count_call (node_name : string) (counts : list (pykey * Z))
  : list (pykey * Z) :=
  let counts :=
    if negb (dict_mem (KStr node_name) counts)
    then dict_set (KStr node_name) 0%Z counts
    else counts in
  match dict_get (KStr node_name) counts with
  | Some c => dict_set (KStr node_name) (c + 1)%Z counts
  | None => counts
  end.

(** What a call of the wrapper leaves: the globals, the calls of the
    callback it made, and what it returns or raises. *)
Record call : Type := {
  globals : tracking;
  reported : list (string * pyval);
  outcome : result pyval
}.

(** Lines 26-52: [wrapper(state)] of [track_progress(node_func)], for a
    node named [node_name] ([node_func.__name__]), [now] being what
    [time.time()] reads.  The node and the callback are taken not to
    touch the globals. *)
Definition wrapper (node_name : string) (node_func : pyval -> result pyval)
           (now : time) (state : pyval) (g : tracking) : call :=
  let g1 :=
    {| progress_callback := progress_callback g;
       start_time := match start_time g with
                     | None => Some now
                     | Some t => Some t
                     end;
       node_counts := count_call node_name (node_counts g) |} in
  match node_func state with
  | Raise e => {| globals := g1; reported := []; outcome := Raise e |}
  | Ok result =>
      match progress_callback g1 with
      | Some cb =>
          {| globals := g1;
             reported := [(node_name, result)];
             outcome := match invoke cb node_name result with
                        | Ok _ => Ok result
                        | Raise e => Raise e
                        end |}
      | None => {| globals := g1; reported := []; outcome := Ok result |}
      end
  end.

(** Lines 56-66; [None] is a callback that is not true. *)
Definition set_progress_callback (cb : option callback) (g : tracking) : tracking :=
  {| progress_callback := cb; start_time := None; node_counts := [] |}.

(** Lines 68-72. *)
Definition reset_progress_tracking (g : tracking) : tracking :=
  {| progress_callback := progress_callback g; start_time := None; node_counts := [] |}.

(** One call of a tracked node in a run: the node's name and function,
    the state it is given and the reading of the clock at the call. *)
Record step : Type := {
  step_name : string;
  step_func : pyval -> result pyval;
  step_state : pyval;
  step_now : time
}.

Definition run_step (g : tracking) (s : step) : tracking :=
  globals (wrapper (step_name s) (step_func s) (step_now s) (step_state s) g).

(** The globals after the calls [steps], in this order; a call that
    raises is caught by the caller, who goes on. *)
Definition run (steps : list step) (g : tracking) : tracking :=
  fold_left run_step steps g.

Definition calls_of (node_name : string) (steps : list step) : nat :=
  List.length (filter (fun s => String.eqb node_name (step_name s)) steps).

(** [_node_counts.get(node_name, 0)]. *)
Definition count_of (node_name : string) (g : tracking) : Z :=
  match dict_get (KStr node_name) (node_counts g) with
  | Some c => c
  | None => 0%Z
  end.

End Tracking.

Arguments progress_callback {time callback} _.
Arguments start_time {time callback} _.
Arguments node_counts {time callback} _.
Arguments globals {time callback} _.
Arguments reported {time callback} _.
Arguments outcome {time callback} _.
Arguments wrapper {time callback} invoke node_name node_func now state g.
Arguments set_progress_callback {time callback} cb g.
Arguments reset_progress_tracking {time callback} g.
Arguments step_name {time} _.
Arguments step_func {time} _.
Arguments step_state {time} _.
Arguments step_now {time} _.
Arguments run_step {time callback} invoke g s.
Arguments run {time callback} invoke steps g.
Arguments calls_of {time} node_name steps.
Arguments count_of {time callback} node_name g.

End Progress.

(* ================================================================== *)
(** * storyteller_lib/exposition.py: the key concepts tracker *)
(* ================================================================== *)

Module Exposition.
Import Py.

(** What [search_memory_tool.invoke] hands back: a value, or a list
    some items of which are objects with attributes. *)
Inductive mem_item : Type :=
| Plain (v : pyval)
| Object (attrs : list (string * pyval)).

Inductive search_result : Type :=
| Found (v : pyval)
| FoundItems (l : list mem_item).

(** [getattr(item, name)]. *)
Fixpoint attr (name : string) (attrs : list (string * pyval)) : option pyval :=
  match attrs with
  | [] => None
  | (n, v) :: attrs' => if String.eqb name n then Some v else attr name attrs'
  end.

Definition tracker_key : string := "key_concepts_tracker".

(** Lines 166-169: the first item whose [key] is the tracker's gives
    its [value]. *)
Fixpoint scan_items (l : list mem_item) : result pyval :=
  match l with
  | [] => Ok VNone
  | Plain _ :: l' => scan_items l'
  | Object attrs :: l' =>
      match attr "key" attrs with
      | Some k =>
          if py_eq k (VStr tracker_key) then
            match attr "value" attrs with
            | Some v => Ok v
            | None => Raise AttributeError
            end
          else scan_items l'
      | None => scan_items l'
      end
  end.

(** Lines 160-169 (and 213-222): [key_concepts_tracker] out of the
    search results. *)
Definition find_tracker (results : search_result) : result pyval :=
  match results with
  | Found v =>
      if truthy v then
        match v with
        | VDict d =>
            if dict_mem (KStr "value") d then py_getitem v (KStr "value")
            else Ok VNone
        | _ => Ok VNone
        end
      else Ok VNone
  | FoundItems l => scan_items l
  end.

(** Lines 177-178: one concept of the tracker. *)
Definition select_concept (current_chapter : pyval) (selected : list pyval)
           (concept : pyval) : result (list pyval) :=
  c <- and_then (rc <- py_getitem concept (KStr "recommended_chapter") ;;
                 Ok (py_eq rc current_chapter))
                (i <- py_getitem concept (KStr "introduced") ;;
                 Ok (negb (truthy i))) ;;
  if c then Ok (selected ++ [concept]) else Ok selected.

(** Lines 139-190; [search] is what [search_memory_tool.invoke] does:
    it returns or raises. *)
Definition check_concept_introduction (state : pyval)
           (search : result search_result) : result pyval :=
  chapters <- py_getitem state (KStr "chapters") ;;
  current_chapter <- py_getitem state (KStr "current_chapter") ;;
  current_scene <- py_getitem state (KStr "current_scene") ;;
  try_except
    (results <- search ;;
     key_concepts_tracker <- find_tracker results ;;
     if negb (truthy key_concepts_tracker) then Ok (VDict [])
     else
       concepts <- py_getitem key_concepts_tracker (KStr "key_concepts") ;;
       concepts <- py_iter concepts ;;
       concepts_for_current_chapter <-
         for_each concepts (select_concept current_chapter) [] ;;
       match concepts_for_current_chapter with
       | [] => Ok (VDict [])
       | _ => Ok (VDict [(KStr "concepts_to_introduce",
                          VList concepts_for_current_chapter)])
       end)
    (Ok (VDict [])).

(** Lines 230-236: one concept of the tracker. *)
Definition mark_concept (concept_name current_chapter current_scene : pyval)
           (updated : list pyval) (concept : pyval) : result (list pyval) :=
  name <- py_getitem concept (KStr "name") ;;
  concept <-
    (if py_eq name concept_name then
       concept <- py_setitem concept (KStr "introduced") (VBool true) ;;
       concept <- py_setitem concept (KStr "introduction_chapter") current_chapter ;;
       concept <- py_setitem concept (KStr "introduction_scene") current_scene ;;
       py_setitem concept (KStr "clarity_score") (VInt 7)
     else Ok concept) ;;
  Ok (updated ++ [concept]).

(** Lines 192-257, on the values returned; [store] is what
    [manage_memory_tool.invoke] does with the updated tracker: it
    returns or raises. *)
Definition update_concept_introduction_status (state : pyval) (concept_name : pyval)
           (search : result search_result) (store : pyval -> result unit)
  : result pyval :=
  current_chapter <- py_getitem state (KStr "current_chapter") ;;
  current_scene <- py_getitem state (KStr "current_scene") ;;
  try_except
    (results <- search ;;
     key_concepts_tracker <- find_tracker results ;;
     if negb (truthy key_concepts_tracker) then Ok (VDict [])
     else
       concepts <- py_getitem key_concepts_tracker (KStr "key_concepts") ;;
       concepts <- py_iter concepts ;;
       updated_concepts <-
         for_each concepts (mark_concept concept_name current_chapter current_scene)
                  [] ;;
       let updated_tracker := VDict [(KStr "key_concepts", VList updated_concepts)] in
       _ <- store updated_tracker ;;
       Ok (VDict [(KStr "key_concepts_tracker", updated_tracker)]))
    (Ok (VDict [])).

(** A concept to introduce in [chapter]: recommended there and not yet
    introduced. *)
Definition due (chapter concept : pyval) : bool :=
  match py_getitem concept (KStr "recommended_chapter"),
        py_getitem concept (KStr "introduced") with
  | Ok rc, Ok i => py_eq rc chapter && negb (truthy i)
  | _, _ => false
  end.

(** A concept as [identify_key_concepts] stores it: a dict with the
    keys the two functions read. *)
Definition concept_shaped (concept : pyval) : bool :=
  match concept with
  | VDict d =>
      dict_mem (KStr "recommended_chapter") d && dict_mem (KStr "introduced") d
      && dict_mem (KStr "name") d
  | _ => false
  end.

(** The concept after it is marked as introduced. *)
Definition marked (current_chapter current_scene : pyval) (concept : items) : pyval :=
  VDict (dict_set (KStr "clarity_score") (VInt 7)
           (dict_set (KStr "introduction_scene") current_scene
              (dict_set (KStr "introduction_chapter") current_chapter
                 (dict_set (KStr "introduced") (VBool true) concept)))).

Definition mark (concept_name current_chapter current_scene concept : pyval) : pyval :=
  match concept with
  | VDict d =>
      match dict_get (KStr "name") d with
      | Some name =>
          if py_eq name concept_name then marked current_chapter current_scene d
          else concept
      | None => concept
      end
  | _ => concept
  end.

(** A state in chapter 2 and a tracker of two concepts, one due there
    and one introduced already. *)
Definition example_state : items :=
  [(KStr "chapters", VDict []); (KStr "current_chapter", VStr "2");
   (KStr "current_scene", VStr "1")].

Definition example_concepts : list pyval :=
  [VDict [(KStr "name", VStr "magic"); (KStr "recommended_chapter", VStr "2");
          (KStr "introduced", VBool false)];
   VDict [(KStr "name", VStr "guild"); (KStr "recommended_chapter", VStr "2");
          (KStr "introduced", VBool true)]].

Definition example_tracker : items :=
  [(KStr "key_concepts", VList example_concepts)].

End Exposition.

(* ================================================================== *)
(** * The copying reducers on the store *)
(* ================================================================== *)

Module StoreReducers.
Import Py Store.

(** [v is None]. *)
Definition s_is_none (v : sval) : bool :=
  match v with
  | SNone => true
  | _ => false
  end.

Definition s_num (v : sval) : option Z :=
  match v with
  | SInt z => Some z
  | SBool b => Some (Z.b2z b)
  | _ => None
  end.

(** [a + b]: a new list object for two lists. *)
Definition s_add (a b : sval) : M sval :=
  x <~ view a ;;
  y <~ view b ;;
  match x, y with
  | Some (OList l), Some (OList r) => alloc (OList (l ++ r))
  | _, _ =>
      match a, b with
      | SStr s, SStr t => ret (SStr (s ++ t)%string)
      | _, _ =>
          match s_num a, s_num b with
          | Some m, Some n => ret (SInt (m + n))
          | _, _ => raise TypeError
          end
      end
  end.

(** [len(x)]. *)
Definition s_len (x : sval) : M Z :=
  o <~ view x ;;
  match x, o with
  | _, Some (OList l) => ret (Z.of_nat (List.length l))
  | _, Some (ODict d) => ret (Z.of_nat (List.length d))
  | SStr s, _ => ret (Z.of_nat (String.length s))
  | _, _ => raise TypeError
  end.

(** [x == s] for a string literal [s]. *)
Definition s_eq_str (x : sval) (s : string) : bool :=
  match x with
  | SStr t => String.eqb t s
  | _ => false
  end.

(** The key a value is when it is used as one; lists and dicts are
    unhashable. *)
Definition s_to_key (v : sval) : M pykey :=
  match v with
  | SNone => ret KNone
  | SBool b => ret (KBool b)
  | SInt z => ret (KInt z)
  | SStr s => ret (KStr s)
  | SRef _ => raise TypeError
  end.

(** [try: body except Exception: handler]; what [body] wrote before it
    raised stays written. *)
Definition try_except {A : Type} (body handler : M A) : M A :=
  fun st =>
    match body st with
    | Done a st' => Done a st'
    | Fail _ st' => handler st'
    end.

(** [k in x and x[k] is not None]. *)
Definition has_value (x : sval) (k : string) : M bool :=
  and_then (s_contains (KStr k) x)
           (v <~ s_getitem x (KStr k) ;; ret (negb (s_is_none v))).

(** [k in x and x[k]]. *)
Definition has_truthy (x : sval) (k : string) : M bool :=
  and_then (s_contains (KStr k) x)
           (v <~ s_getitem x (KStr k) ;; s_truthy v).

(** [if field in data and data[field]: target[field] = data[field]]. *)
Definition replace_if_truthy (data target : sval) (field : string) : M unit :=
  c <~ has_truthy data field ;;
  if c then v <~ s_getitem data (KStr field) ;; s_setitem target (KStr field) v
  else ret tt.

(** Lines 19-25. *)
Definition merge_lists (existing new : sval) : M sval :=
  t <~ s_truthy existing ;;
  if negb t then ret new
  else
    t' <~ s_truthy new ;;
    if negb t' then ret existing
    else s_add existing new.

(** Lines 27-32. *)
Definition merge_dicts (existing new : sval) : M sval :=
  result <~ s_copy existing ;;
  new_items <~ s_items new ;;
  for_each new_items
    (fun kv => let '(key, value) := kv in s_setitem result key value) ;;~
  ret result.

(** Lines 251-256. *)
Definition merge_creative_elements (existing new : sval) : M sval :=
  result <~ s_copy existing ;;
  new_items <~ s_items new ;;
  for_each new_items
    (fun kv => let '(key, value) := kv in s_setitem result key value) ;;~
  ret result.

(* ------------------------------------------------------------------ *)
(** ** merge_characters *)

(** [all(isinstance(item, dict) for item in rel)]. *)
Definition all_dicts (rel : sval) : M bool :=
  its <~ s_iter rel ;;
  bs <~ map_m s_is_dict its ;;
  ret (forallb (fun b => b) bs).

(** [{item.get("character", f"char_{i}"): item.get("relationship", "")
      for i, item in enumerate(rel)}], a new dict. *)
Definition relationships_of_list (rel : sval) : M sval :=
  its <~ s_iter rel ;;
  d <~ alloc (ODict []) ;;
  for_each (Models.enumerate_from 0 its)
    (fun ix =>
       let '(i, item) := ix in
       k <~ s_get item "character" (SStr ("char_" ++ nat_str i)%string) ;;
       v <~ s_get item "relationship" (SStr "") ;;
       key <~ s_to_key k ;;
       s_setitem d key v) ;;~
  ret d.

(** Lines 53-61, one [list_field]. *)
Definition append_list_field (char_data result_char : sval) (list_field : string)
  : M unit :=
  c <~ has_value char_data list_field ;;
  if c then
    v <~ s_getitem char_data (KStr list_field) ;;
    t <~ s_truthy v ;;
    if t then
      c' <~ has_value result_char list_field ;;
      if c' then
        w <~ s_getitem result_char (KStr list_field) ;;
        s <~ s_add w v ;;
        s_setitem result_char (KStr list_field) s
      else s_setitem result_char (KStr list_field) v
    else ret tt
  else ret tt.

(** [result_char["relationships"] = {}]. *)
Definition set_empty_relationships (result_char : sval) : M unit :=
  e <~ alloc (ODict []) ;;
  s_setitem result_char (KStr "relationships") e.

(** Lines 64-103. *)
Definition merge_relationships (char_data result_char : sval) : M unit :=
  let rel := KStr "relationships" in
  c <~ has_value char_data "relationships" ;;
  if c then
    new_rel <~ s_getitem char_data rel ;;
    c' <~ has_value result_char "relationships" ;;
    if c' then
      old_rel <~ s_getitem result_char rel ;;
      od <~ s_is_dict old_rel ;;
      nd <~ s_is_dict new_rel ;;
      if od && nd then
        a <~ s_items old_rel ;;
        b <~ s_items new_rel ;;
        merged <~ alloc (ODict (dict_union a b)) ;;
        s_setitem result_char rel merged
      else if nd then s_setitem result_char rel new_rel
      else if od then ret tt
      else
        try_except
          (c'' <~ and_then (s_is_list new_rel) (all_dicts new_rel) ;;
           if c'' then
             d <~ relationships_of_list new_rel ;;
             s_setitem result_char rel d
           else set_empty_relationships result_char)
          (set_empty_relationships result_char)
    else
      nd <~ s_is_dict new_rel ;;
      if nd then s_setitem result_char rel new_rel
      else
        nl <~ s_is_list new_rel ;;
        if nl then
          try_except
            (c'' <~ all_dicts new_rel ;;
             if c'' then
               d <~ relationships_of_list new_rel ;;
               s_setitem result_char rel d
             else set_empty_relationships result_char)
            (set_empty_relationships result_char)
        else set_empty_relationships result_char
  else ret tt.

(** Lines 50-108: the merged profile of a character already present, a
    copy of the existing one. *)
Definition update_character (existing_char char_data : sval) : M sval :=
  result_char <~ s_copy existing_char ;;
  for_each Models.list_fields (append_list_field char_data result_char) ;;~
  merge_relationships char_data result_char ;;~
  for_each Models.scalar_fields (replace_if_truthy char_data result_char) ;;~
  ret result_char.

(** Lines 34-115. *)
Definition merge_characters (existing new : sval) : M sval :=
  if s_is_none existing then
    (if s_is_none new then alloc (ODict []) else ret new)
  else if s_is_none new then ret existing
  else
    result <~ s_copy existing ;;
    new_items <~ s_items new ;;
    for_each new_items
      (fun kv =>
         let '(char_id, char_data) := kv in
         if s_is_none char_data then ret tt
         else
           c <~ s_contains char_id result ;;
           if c then
             existing_char <~ s_getitem result char_id ;;
             result_char <~ update_character existing_char char_data ;;
             s_setitem result char_id result_char
           else s_setitem result char_id char_data) ;;~
    ret result.

(* ------------------------------------------------------------------ *)
(** ** merge_scenes, merge_chapters *)

(** Lines 134-144. *)
Definition merge_scene_notes (scene_data result_scene : sval) : M unit :=
  let rn := KStr "reflection_notes" in
  c <~ s_contains rn scene_data ;;
  if c then
    notes <~ s_getitem scene_data rn ;;
    n <~ s_len notes ;;
    revised <~ (if (n =? 1)%Z
                then x <~ s_getitem notes (KInt 0) ;;
                     ret (s_eq_str x Models.revised_marker)
                else ret false) ;;
    if revised then s_setitem result_scene rn notes
    else
      t <~ s_truthy notes ;;
      if t then
        c' <~ s_contains rn result_scene ;;
        if c' then
          old <~ s_getitem result_scene rn ;;
          s <~ s_add old notes ;;
          s_setitem result_scene rn s
        else s_setitem result_scene rn notes
      else ret tt
  else ret tt.

(** Lines 123-144: the merged state of a scene already present, a copy
    of the existing one. *)
Definition update_scene (existing_scene scene_data : sval) : M sval :=
  result_scene <~ s_copy existing_scene ;;
  replace_if_truthy scene_data result_scene "content" ;;~
  replace_if_truthy scene_data result_scene "structured_reflection" ;;~
  merge_scene_notes scene_data result_scene ;;~
  ret result_scene.

(** Lines 117-151. *)
Definition merge_scenes (existing new : sval) : M sval :=
  result <~ s_copy existing ;;
  new_items <~ s_items new ;;
  for_each new_items
    (fun kv =>
       let '(scene_id, scene_data) := kv in
       c <~ s_contains scene_id result ;;
       if c then
         existing_scene <~ s_getitem result scene_id ;;
         result_scene <~ update_scene existing_scene scene_data ;;
         s_setitem result scene_id result_scene
       else s_setitem result scene_id scene_data) ;;~
  ret result.

(** Lines 159-176: the merged state of a chapter already present, a
    copy of the existing one. *)
Definition update_chapter (existing_chapter chapter_data : sval) : M sval :=
  let rn := KStr "reflection_notes" in
  result_chapter <~ s_copy existing_chapter ;;
  c <~ s_contains (KStr "scenes") chapter_data ;;
  (if c then
     empty <~ alloc (ODict []) ;;
     scenes <~ s_get result_chapter "scenes" empty ;;
     new_scenes <~ s_getitem chapter_data (KStr "scenes") ;;
     merged <~ merge_scenes scenes new_scenes ;;
     s_setitem result_chapter (KStr "scenes") merged
   else ret tt) ;;~
  c <~ has_truthy chapter_data "reflection_notes" ;;
  (if c then
     c' <~ s_contains rn result_chapter ;;
     if c' then
       old <~ s_getitem result_chapter rn ;;
       notes <~ s_getitem chapter_data rn ;;
       s <~ s_add old notes ;;
       s_setitem result_chapter rn s
     else
       notes <~ s_getitem chapter_data rn ;;
       s_setitem result_chapter rn notes
   else ret tt) ;;~
  for_each ["title"; "outline"] (replace_if_truthy chapter_data result_chapter) ;;~
  ret result_chapter.

(** Lines 153-183. *)
Definition merge_chapters (existing new : sval) : M sval :=
  result <~ s_copy existing ;;
  new_items <~ s_items new ;;
  for_each new_items
    (fun kv =>
       let '(chapter_id, chapter_data) := kv in
       c <~ s_contains chapter_id result ;;
       if c then
         existing_chapter <~ s_getitem result chapter_id ;;
         result_chapter <~ update_chapter existing_chapter chapter_data ;;
         s_setitem result chapter_id result_chapter
       else s_setitem result chapter_id chapter_data) ;;~
  ret result.

(* ------------------------------------------------------------------ *)
(** ** merge_revelations *)

(** [issue.get("resolution_status") == "completed"]. *)
Definition completed (issue : sval) : M bool :=
  s <~ s_get issue "resolution_status" SNone ;;
  ret (s_eq_str s "completed").

(** Lines 211-222: one existing issue into the dict
    [best_issues_by_chapter]. *)
Definition seed_issue (best issue : sval) : M unit :=
  chapter <~ s_get issue "after_chapter" SNone ;;
  t <~ s_truthy chapter ;;
  if negb t then ret tt
  else
    key <~ s_to_key chapter ;;
    c <~ s_contains key best ;;
    if negb c then s_setitem best key issue
    else
      better <~ and_then (completed issue)
                         (current <~ s_getitem best key ;;
                          x <~ completed current ;;
                          ret (negb x)) ;;
      if better then s_setitem best key issue else ret tt.

(** Lines 225-237: one issue of the update into the dict
    [best_issues_by_chapter]. *)
Definition fold_issue (best issue : sval) : M unit :=
  chapter <~ s_get issue "after_chapter" SNone ;;
  t <~ s_truthy chapter ;;
  if negb t then ret tt
  else
    key <~ s_to_key chapter ;;
    c <~ s_contains key best ;;
    if negb c then s_setitem best key issue
    else
      resolved <~ completed issue ;;
      wins <~ (if resolved then ret true
               else current <~ s_getitem best key ;;
                    x <~ completed current ;;
                    ret (negb x)) ;;
      if wins then s_setitem best key issue else ret tt.

(** Lines 191-200: one [key, values] of an update without
    ["continuity_issues"]. *)
Definition merge_plain_key (result : sval) (kv : pykey * sval) : M unit :=
  let '(key, values) := kv in
  c <~ s_contains key result ;;
  if c then
    both <~ and_then (s_is_list values)
                     (old <~ s_getitem result key ;; s_is_list old) ;;
    if both then
      old <~ s_getitem result key ;;
      s <~ s_add old values ;;
      s_setitem result key s
    else s_setitem result key values
  else s_setitem result key values.

(** Lines 246-248: one [key, value] of an update with
    ["continuity_issues"]. *)
Definition replace_other_key (result : sval) (kv : pykey * sval) : M unit :=
  let '(key, value) := kv in
  if negb (key_eqb key Models.continuity) then s_setitem result key value
  else ret tt.

(** Lines 185-250. *)
Definition merge_revelations (existing new : sval) : M sval :=
  result <~ s_copy existing ;;
  t <~ s_truthy new ;;
  plain <~ (if negb t then ret true
            else c <~ s_contains Models.continuity new ;; ret (negb c)) ;;
  if plain then
    new_items <~ s_items new ;;
    for_each new_items (merge_plain_key result) ;;~
    ret result
  else
    empty <~ alloc (OList []) ;;
    old_issues <~ s_get result "continuity_issues" empty ;;
    empty' <~ alloc (OList []) ;;
    new_issues <~ s_get new "continuity_issues" empty' ;;
    best_issues_by_chapter <~ alloc (ODict []) ;;
    olds <~ s_iter old_issues ;;
    for_each olds (seed_issue best_issues_by_chapter) ;;~
    news <~ s_iter new_issues ;;
    for_each news (fold_issue best_issues_by_chapter) ;;~
    best <~ s_items best_issues_by_chapter ;;
    final_issues <~ alloc (OList (map snd best)) ;;
    s_setitem result Models.continuity final_issues ;;~
    new_items <~ s_items new ;;
    for_each new_items (replace_other_key result) ;;~
    ret result.

(** The reducers that work on a copy of the existing dict and on copies
    of its entities. *)
Definition copying_reducers : list (sval -> sval -> M sval) :=
  [merge_lists; merge_dicts; merge_characters; merge_scenes; merge_chapters;
   merge_revelations; merge_creative_elements].

(** Those that return the copy whatever the operands are. *)
Definition dict_reducers : list (sval -> sval -> M sval) :=
  [merge_dicts; merge_scenes; merge_chapters; merge_revelations;
   merge_creative_elements].

(* ------------------------------------------------------------------ *)
(** ** Calls that write to new objects only *)

(** The store a call leaves. *)
Definition store_after {A : Type} (o : outcome A) : store :=
  match o with
  | Done _ st => st
  | Fail _ st => st
  end.

(** [st'] has the objects of [st] below address [n] as they are. *)
Definition same_below (n : nat) (st st' : store) : Prop :=
  List.length st <= List.length st'
  /\ forall a, a < n -> nth_error st' a = nth_error st a.

(** A value that is no reference to an object below address [n]. *)
Definition is_fresh (n : nat) (v : sval) : Prop :=
  match v with
  | SRef a => n <= a
  | _ => True
  end.

(** A reference to an object at address [n] or above. *)
Definition is_new (n : nat) (v : sval) : Prop :=
  exists a, v = SRef a /\ n <= a.

(** [c] leaves the store as it is. *)
Definition reads {A : Type} (c : M A) : Prop :=
  forall st, store_after (c st) = st.

(** From a store of [n] objects or more, [c] leaves the objects below
    [n] as they are, and what it returns satisfies [Q]. *)
Definition writes_fresh {A : Type} (n : nat) (c : M A) (Q : A -> Prop) : Prop :=
  forall st, n <= List.length st ->
    same_below n st (store_after (c st))
    /\ match c st with
       | Done a _ => Q a
       | Fail _ _ => True
       end.

(** What a reducer on values returns, [None] when it raises. *)
Definition value_of (r : result pyval) : option pyval :=
  match r with
  | Ok v => Some v
  | Raise _ => None
  end.

(** What a reducer on the store returns for two values loaded as new
    objects, read back as a value; [None] when it raises. *)
Definition returned_value (f : sval -> sval -> M sval) (existing new : pyval)
  : option pyval :=
  StoreModels.returned (StoreModels.observe f existing new).

End StoreReducers.

(* ================================================================== *)
(** * Properties *)
(* ================================================================== *)

Import Py Spec.

(** Stepping through a reducer that returned: [H : c = Ok r] is split
    along the binds and tests of [c]. *)
Ltac bind_inv H :=
  match type of H with
  | bind ?c _ = Ok _ =>
      let E := fresh "E" in
      destruct c eqn:E; cbn [bind] in H; [|discriminate H]
  | (if ?b then _ else _) = Ok _ =>
      let E := fresh "E" in destruct b eqn:E
  | Ok _ = Ok _ => injection H as H; subst
  | Raise _ = Ok _ => discriminate H
  end.

Ltac run_in H := repeat (first [bind_inv H | progress (cbn [py_setitem] in H)]).

(* ------------------------------------------------------------------ *)
(** ** Keys and dicts *)

Lemma key_eqb_refl (k : pykey) : key_eqb k k = true.
Proof.
  destruct k as [|b|z|s]; simpl.
  - reflexivity.
  - now destruct b.
  - apply Z.eqb_refl.
  - apply String.eqb_refl.
Qed.

Lemma key_eqb_sym (a b : pykey) : key_eqb a b = key_eqb b a.
Proof.
  destruct a as [|x|x|x], b as [|y|y|y]; simpl; try reflexivity.
  - now destruct x, y.
  - apply Z.eqb_sym.
  - apply Z.eqb_sym.
  - apply Z.eqb_sym.
  - apply String.eqb_sym.
Qed.

Lemma key_eqb_trans (a b c : pykey) :
  key_eqb a b = true -> key_eqb b c = true -> key_eqb a c = true.
Proof.
  destruct a as [|x|x|x], b as [|y|y|y], c as [|z|z|z]; simpl;
    try discriminate; try reflexivity;
    rewrite ?Z.eqb_eq, ?String.eqb_eq, ?Bool.eqb_true_iff;
    intros; subst; auto.
  all: try (destruct x, y; simpl in *; congruence).
  all: try (destruct x, z; simpl in *; congruence).
  all: try (destruct y, z; simpl in *; congruence).
Qed.

(** Equal keys are interchangeable on the left of [key_eqb]. *)
Lemma key_eqb_congr (a b c : pykey) :
  key_eqb a b = true -> key_eqb a c = key_eqb b c.
Proof.
  intros Hab.
  destruct (key_eqb b c) eqn:Hbc.
  - eapply key_eqb_trans; eauto.
  - destruct (key_eqb a c) eqn:Hac; [|reflexivity].
    rewrite key_eqb_sym in Hab.
    rewrite <- Hbc. symmetry. eapply key_eqb_trans; eauto.
Qed.

Section DictFacts.
Context {V : Type}.
Implicit Types (d : list (pykey * V)) (k : pykey) (v : V).

Lemma dict_get_congr d k k' :
  key_eqb k k' = true -> dict_get k d = dict_get k' d.
Proof.
  intros H. induction d as [|[k1 v1] d IH]; simpl; [reflexivity|].
  rewrite (key_eqb_congr _ _ k1 H), IH. reflexivity.
Qed.

Lemma dict_get_set d k k' v :
  dict_get k (dict_set k' v d) = if key_eqb k k' then Some v else dict_get k d.
Proof.
  induction d as [|[k1 v1] d IH]; simpl.
  - reflexivity.
  - destruct (key_eqb k' k1) eqn:H1; simpl.
    + destruct (key_eqb k k') eqn:H2.
      * now rewrite (key_eqb_trans _ _ _ H2 H1).
      * destruct (key_eqb k k1) eqn:H3; [|reflexivity].
        rewrite key_eqb_sym in H1.
        now rewrite (key_eqb_trans _ _ _ H3 H1) in H2.
    + destruct (key_eqb k k1) eqn:H3.
      * destruct (key_eqb k k') eqn:H2; [|reflexivity].
        rewrite key_eqb_sym in H2.
        now rewrite (key_eqb_trans _ _ _ H2 H3) in H1.
      * apply IH.
Qed.

Lemma dict_get_set_same d k v : dict_get k (dict_set k v d) = Some v.
Proof. now rewrite dict_get_set, key_eqb_refl. Qed.

(** Storing the value a key already has changes nothing. *)
Lemma dict_set_idem d k v : dict_get k d = Some v -> dict_set k v d = d.
Proof.
  induction d as [|[k1 v1] d IH]; simpl; [discriminate|].
  destruct (key_eqb k k1).
  - intros [= ->]. reflexivity.
  - intros H. now rewrite IH.
Qed.

Lemma dict_set_absent d k v : dict_get k d = None -> dict_set k v d = d ++ [(k, v)].
Proof.
  induction d as [|[k1 v1] d IH]; simpl; [reflexivity|].
  destruct (key_eqb k k1); [discriminate|].
  intros H. now rewrite IH.
Qed.

Lemma dict_mem_set d k k' v :
  dict_mem k (dict_set k' v d) = key_eqb k k' || dict_mem k d.
Proof.
  unfold dict_mem. rewrite dict_get_set. now destruct (key_eqb k k').
Qed.

Lemma dict_mem_false_in d k k' v :
  dict_mem k d = false -> In (k', v) d -> key_eqb k k' = false.
Proof.
  unfold dict_mem.
  induction d as [|[k1 v1] d IH]; simpl; [contradiction|].
  destruct (key_eqb k k1) eqn:H1; [discriminate|].
  intros H [[= -> ->]|Hin]; auto.
Qed.

Lemma dict_get_in d k v : dict_get k d = Some v -> exists k', In (k', v) d /\ key_eqb k k' = true.
Proof.
  induction d as [|[k1 v1] d IH]; simpl; [discriminate|].
  destruct (key_eqb k k1) eqn:H1.
  - intros [= ->]. eauto.
  - intros H. destruct (IH H) as (k' & Hin & Hk). eauto.
Qed.

Lemma dict_get_distinct d k v :
  keys_distinct d = true -> In (k, v) d -> dict_get k d = Some v.
Proof.
  induction d as [|[k1 v1] d IH]; simpl; [contradiction|].
  rewrite andb_true_iff, negb_true_iff. intros [Hm Hd] [[= -> ->]|Hin].
  - now rewrite key_eqb_refl.
  - rewrite key_eqb_sym, (dict_mem_false_in _ _ _ _ Hm Hin). auto.
Qed.

Lemma keys_distinct_set d k v :
  keys_distinct d = true -> keys_distinct (dict_set k v d) = true.
Proof.
  induction d as [|[k1 v1] d IH]; simpl; [reflexivity|].
  rewrite !andb_true_iff, !negb_true_iff. intros [Hm Hd].
  destruct (key_eqb k k1) eqn:H1; simpl.
  - now rewrite Hm, Hd.
  - rewrite dict_mem_set, Hm, (IH Hd), key_eqb_sym, H1. auto.
Qed.

End DictFacts.

(* ------------------------------------------------------------------ *)
(** ** The keyed loop *)

Import Models.

Lemma merge_characters_loop (d n : items) :
  merge_characters (VDict d) (VDict n)
  = for_each n (merge_entry is_none update_character) (VDict d).
Proof. reflexivity. Qed.

Lemma merge_scenes_loop (d n : items) :
  merge_scenes (VDict d) (VDict n)
  = for_each n (merge_entry never update_scene) (VDict d).
Proof. reflexivity. Qed.

Lemma merge_chapters_loop (d n : items) :
  merge_chapters (VDict d) (VDict n)
  = for_each n (merge_entry never update_chapter) (VDict d).
Proof. reflexivity. Qed.

Lemma merge_plot_threads_loop (d n : items) :
  merge_plot_threads (VDict d) (VDict n)
  = for_each n (merge_entry never update_thread) (VDict d).
Proof. reflexivity. Qed.

Section KeyedLoop.
Variable skip : pyval -> bool.
Variable update : pyval -> pyval -> result pyval.

Lemma merge_entry_dict (d : items) (k : pykey) (v r : pyval) :
  merge_entry skip update (VDict d) (k, v) = Ok r ->
  exists rd, r = VDict rd
             /\ (forall k', key_eqb k' k = false -> dict_get k' rd = dict_get k' d)
             /\ merged_entry skip update d rd k v.
Proof.
  unfold merge_entry, merged_entry. destruct (skip v).
  - intros [= <-]. eauto.
  - simpl. unfold dict_mem. destruct (dict_get k d) as [e|] eqn:Hg; simpl.
    + destruct (update e v) as [e'|x] eqn:Hu; simpl; [|discriminate].
      intros [= <-]. eexists; split; [reflexivity|]. split.
      * intros k' Hk. now rewrite dict_get_set, Hk.
      * exists e'. now rewrite dict_get_set_same.
    + intros [= <-]. eexists; split; [reflexivity|]. split.
      * intros k' Hk. now rewrite dict_get_set, Hk.
      * now rewrite dict_get_set_same.
Qed.

Lemma keyed_loop (n d : items) (r : pyval) :
  for_each n (merge_entry skip update) (VDict d) = Ok r ->
  exists rd, r = VDict rd
    /\ (forall k, dict_mem k n = false -> dict_get k rd = dict_get k d)
    /\ (keys_distinct n = true ->
        forall k v, In (k, v) n -> merged_entry skip update d rd k v).
Proof.
  revert d. induction n as [|[k1 v1] n IH]; intros d; cbn [for_each].
  - intros [= <-]. exists d. repeat split; auto. intros _ k v [].
  - destruct (merge_entry skip update (VDict d) (k1, v1)) as [r1|x] eqn:H1;
      cbn [bind]; [|discriminate].
    destruct (merge_entry_dict _ _ _ _ H1) as (d1 & -> & Hother & Hthis).
    intros Hr. destruct (IH _ Hr) as (rd & -> & Hout & Hin).
    exists rd. split; [reflexivity|]. split.
    + intros k Hk. unfold dict_mem in Hk. simpl in Hk.
      destruct (key_eqb k k1) eqn:Hk1; [discriminate|].
      rewrite Hout, Hother; auto.
    + cbn [keys_distinct]. rewrite andb_true_iff, negb_true_iff.
      intros [Hm Hd] k v [[= -> ->]|Hkv].
      * unfold merged_entry in *. rewrite (Hout _ Hm). exact Hthis.
      * pose proof (dict_mem_false_in _ _ _ _ Hm Hkv) as Hne.
        rewrite key_eqb_sym in Hne.
        specialize (Hin Hd _ _ Hkv). unfold merged_entry in *.
        now rewrite (Hother _ Hne) in Hin.
Qed.


End KeyedLoop.

(* ------------------------------------------------------------------ *)
(** ** The empty update *)

Lemma empty_update (d : items) :
  merge_dicts (VDict d) (VDict []) = Ok (VDict d)
  /\ merge_characters (VDict d) (VDict []) = Ok (VDict d)
  /\ merge_scenes (VDict d) (VDict []) = Ok (VDict d)
  /\ merge_chapters (VDict d) (VDict []) = Ok (VDict d)
  /\ merge_revelations (VDict d) (VDict []) = Ok (VDict d)
  /\ merge_creative_elements (VDict d) (VDict []) = Ok (VDict d)
  /\ merge_plot_threads (VDict d) (VDict []) = Ok (VDict d)
  /\ merge_world_elements (VDict d) (VDict []) = Ok (VDict d).
Proof. repeat split. Qed.

(** C10.  The empty update is an identity: each reducer of the state
    ([merge_characters], [merge_scenes], [merge_chapters],
    [merge_revelations], [merge_creative_elements], [merge_plot_threads],
    [merge_world_elements], and the helpers [merge_dicts] and
    [merge_lists]) returns the existing collection unchanged when the
    update is the empty collection. *)
Theorem merge_empty_delta_identity :
  (forall d : items,
      merge_characters (VDict d) (VDict []) = Ok (VDict d)
      /\ merge_scenes (VDict d) (VDict []) = Ok (VDict d)
      /\ merge_chapters (VDict d) (VDict []) = Ok (VDict d)
      /\ merge_revelations (VDict d) (VDict []) = Ok (VDict d)
      /\ merge_creative_elements (VDict d) (VDict []) = Ok (VDict d)
      /\ merge_plot_threads (VDict d) (VDict []) = Ok (VDict d)
      /\ merge_world_elements (VDict d) (VDict []) = Ok (VDict d)
      /\ merge_dicts (VDict d) (VDict []) = Ok (VDict d))
  /\ (forall l : list pyval, merge_lists (VList l) (VList []) = Ok (VList l)).
Proof.
  split.
  - intros d. destruct (empty_update d) as (H1 & H2 & H3 & H4 & H5 & H6 & H7 & H8).
    repeat split; assumption.
  - intros [|x l]; reflexivity.
Qed.

(* ------------------------------------------------------------------ *)
(** ** Evaluations *)

(** C1.  An update that names an existing plot thread and has no
    ["status"] key does not merge: the comparison reads the status with
    [.get], the assignment reads it with [thread_data["status"]], and
    the call ends with [KeyError], on values and on the store alike. *)
Theorem merge_plot_threads_missing_status_raises :
  merge_plot_threads thread_open thread_without_status = Raise KeyError
  /\ StoreModels.returned
       (StoreModels.observe StoreModels.merge_plot_threads
          thread_open thread_without_status) = None.
Proof. split; reflexivity. Qed.

(** C5.  [merge_plot_threads] updates the thread object of the existing
    snapshot and [merge_world_elements] appends to the list objects of
    the existing category: after the call the existing snapshot reads as
    the merged one. *)
Theorem merge_updates_existing_snapshot :
  let threads :=
    StoreModels.observe StoreModels.merge_plot_threads threads_before threads_delta in
  let world :=
    StoreModels.observe StoreModels.merge_world_elements world_before world_delta in
  StoreModels.existing_before threads = Some threads_before
  /\ StoreModels.returned threads = Some threads_after
  /\ StoreModels.existing_after threads = Some threads_after
  /\ threads_after <> threads_before
  /\ StoreModels.existing_before world = Some world_before
  /\ StoreModels.returned world = Some world_after
  /\ StoreModels.existing_after world = Some world_after
  /\ world_after <> world_before.
Proof. cbv zeta. repeat split; try reflexivity; discriminate. Qed.

(** On these inputs the store reducers return what the reducers on
    values return, and a second merge of the same update, which then
    shares the objects of a thread the first merge stored, returns the
    same dict again. *)
Lemma store_agrees_on_examples :
  Ok threads_after = merge_plot_threads threads_before threads_delta
  /\ Ok world_after = merge_world_elements world_before world_delta
  /\ StoreModels.observe_twice StoreModels.merge_plot_threads
       threads_before threads_delta
     = (Some threads_after, Some threads_after)
  /\ StoreModels.observe_twice StoreModels.merge_plot_threads
       (obj []) threads_delta
     = (Some threads_delta, Some threads_delta).
Proof. repeat split. Qed.

(** C6.  When the update carries ["continuity_issues"], the other keys
    of the update replace the existing ones: the existing ["reader"]
    entries are lost.  Without that key the same update appends. *)
Theorem merge_revelations_replaces_reader :
  merge_revelations revelations_before revelations_delta
  = Ok (obj [("reader", VList [VStr "b"]); ("continuity_issues", VList [])])
  /\ merge_revelations revelations_before revelations_delta_plain
     = Ok (obj [("reader", VList [VStr "a"; VStr "b"]);
                ("continuity_issues", VList [])]).
Proof. split; reflexivity. Qed.

(* ------------------------------------------------------------------ *)
(** ** None operands *)

Section FreshEntries.
Context {V : Type}.
Implicit Types (a b : list (pykey * V)).

Lemma dict_get_app a b k :
  dict_get k (a ++ b)
  = match dict_get k a with
    | Some v => Some v
    | None => dict_get k b
    end.
Proof.
  induction a as [|[k0 v0] a IH]; simpl; [reflexivity|].
  now destruct (key_eqb k k0).
Qed.

Lemma keys_distinct_middle a b k (v : V) :
  keys_distinct (a ++ (k, v) :: b) = true -> dict_get k a = None.
Proof.
  induction a as [|[k0 v0] a IH]; simpl; [reflexivity|].
  rewrite andb_true_iff, negb_true_iff. intros [Hm Hd].
  destruct (key_eqb k k0) eqn:Hk; [|auto].
  exfalso. unfold dict_mem in Hm. rewrite dict_get_app in Hm.
  destruct (dict_get k0 a); [discriminate|].
  simpl in Hm. rewrite key_eqb_sym, Hk in Hm. discriminate.
Qed.
End FreshEntries.

(** Into a dict that has none of their keys, the entries of an update
    are stored in their order. *)
Lemma keyed_loop_fresh skip update (n acc : items) :
  keys_distinct (acc ++ n) = true ->
  (forall k v, In (k, v) n -> skip v = false) ->
  for_each n (merge_entry skip update) (VDict acc) = Ok (VDict (acc ++ n)).
Proof.
  revert acc. induction n as [|[k1 v1] n IH]; intros acc Hd Hs; cbn [for_each].
  - now rewrite app_nil_r.
  - unfold merge_entry at 1. rewrite (Hs k1 v1 (or_introl eq_refl)).
    cbn [py_contains bind]. unfold dict_mem.
    rewrite (keys_distinct_middle _ _ _ _ Hd). cbn [py_setitem bind].
    rewrite dict_set_absent by exact (keys_distinct_middle _ _ _ _ Hd).
    replace (acc ++ (k1, v1) :: n) with ((acc ++ [(k1, v1)]) ++ n) in *
      by now rewrite <- app_assoc.
    apply IH; [assumption|]. intros k v Hin. apply (Hs k v). now right.
Qed.

(** Counterexample to C2 as stated: [merge_scenes] and [merge_chapters]
    have no [None] guard, and a [None] update or a [None] existing value
    ends the call with [AttributeError]. *)
Lemma none_operand_raises :
  merge_scenes (VDict []) VNone = Raise AttributeError
  /\ merge_scenes VNone (VDict []) = Raise AttributeError
  /\ merge_chapters (VDict []) VNone = Raise AttributeError
  /\ merge_chapters VNone (VDict []) = Raise AttributeError
  /\ merge_scenes (VDict []) VNone <> Ok (VDict []).
Proof. repeat split; try reflexivity; discriminate. Qed.

(** C2, amended.  [merge_characters] is the null-tolerant reducer: a
    [None] update returns [existing] unchanged (the empty dict when
    [existing] is [None] too), and a [None] existing value returns the
    update, which is what merging the update into the empty dict returns
    when none of its characters is [None].  For the other reducers the
    update without information is the empty dict, which returns
    [existing] unchanged. *)
Theorem null_tolerance :
  (forall existing,
      merge_characters existing VNone
      = Ok (if is_none existing then VDict [] else existing))
  /\ (forall new,
      merge_characters VNone new = Ok (if is_none new then VDict [] else new))
  /\ (forall n : items,
      keys_distinct n = true ->
      forallb (fun kv => negb (is_none (snd kv))) n = true ->
      merge_characters (VDict []) (VDict n) = merge_characters VNone (VDict n))
  /\ (forall d : items,
      merge_scenes (VDict d) (VDict []) = Ok (VDict d)
      /\ merge_chapters (VDict d) (VDict []) = Ok (VDict d)
      /\ merge_revelations (VDict d) (VDict []) = Ok (VDict d)
      /\ merge_creative_elements (VDict d) (VDict []) = Ok (VDict d)
      /\ merge_plot_threads (VDict d) (VDict []) = Ok (VDict d)
      /\ merge_world_elements (VDict d) (VDict []) = Ok (VDict d)).
Proof.
  split; [|split; [|split]].
  - intros existing. unfold merge_characters. now destruct existing.
  - intros new. reflexivity.
  - intros n Hd Hn. rewrite merge_characters_loop.
    change (merge_characters VNone (VDict n)) with (Ok (VDict ([] ++ n))).
    apply keyed_loop_fresh; [assumption|].
    intros k v Hin. rewrite forallb_forall in Hn.
    specialize (Hn _ Hin). simpl in Hn. now destruct (is_none v).
  - intros d. destruct (empty_update d) as (_ & _ & H3 & H4 & H5 & H6 & H7 & H8).
    repeat split; assumption.
Qed.

Lemma null_tolerance_witness :
  let n := [(KStr "alice", obj [("name", VStr "Alice")])] in
  merge_characters (VDict []) (VDict n) = merge_characters VNone (VDict n).
Proof.
  cbv zeta. apply (proj1 (proj2 (proj2 null_tolerance))); reflexivity.
Defined.

(* ------------------------------------------------------------------ *)
(** ** Fields of a character *)

Lemma append_list_field_other cd (rc : items) f r k :
  key_eqb k (KStr f) = false ->
  append_list_field cd (VDict rc) f = Ok r -> keeps k rc r.
Proof.
  intros Hk H. unfold append_list_field in H. run_in H;
    eexists; (split; [reflexivity|]); rewrite ?dict_get_set, ?Hk; reflexivity.
Qed.

Lemma replace_if_truthy_other cd (rc : items) f r k :
  key_eqb k (KStr f) = false ->
  replace_if_truthy cd (VDict rc) f = Ok r -> keeps k rc r.
Proof.
  intros Hk H. unfold replace_if_truthy in H. run_in H;
    eexists; (split; [reflexivity|]); rewrite ?dict_get_set, ?Hk; reflexivity.
Qed.

Lemma for_each_fields_other (step : pyval -> string -> result pyval) k
      (fs : list string) :
  (forall rc f r, In f fs -> step (VDict rc) f = Ok r -> keeps k rc r) ->
  forall rc r, for_each fs step (VDict rc) = Ok r -> keeps k rc r.
Proof.
  induction fs as [|f fs IH]; intros Hstep rc r H; cbn [for_each] in H.
  - injection H as <-. exists rc. auto.
  - bind_inv H. destruct (Hstep _ _ _ (or_introl eq_refl) E) as (rd1 & -> & H1).
    destruct (IH (fun rc f r Hin => Hstep rc f r (or_intror Hin)) _ _ H)
      as (rd & -> & H2).
    exists rd. split; [reflexivity|]. congruence.
Qed.

(* ------------------------------------------------------------------ *)
(** ** Relationships of a character *)







(* ------------------------------------------------------------------ *)
(** ** Notes of a scene *)

Lemma py_eq_str x s : py_eq x (VStr s) = true <-> x = VStr s.
Proof.
  destruct x; simpl; split; try discriminate; intros H.
  - apply String.eqb_eq in H. now subst.
  - injection H as ->. apply String.eqb_refl.
Qed.

Lemma replace_if_truthy_dict (cd rc : items) f :
  exists rd,
    replace_if_truthy (VDict cd) (VDict rc) f = Ok (VDict rd)
    /\ forall k, key_eqb k (KStr f) = false -> dict_get k rd = dict_get k rc.
Proof.
  unfold replace_if_truthy, has_truthy, and_then.
  cbn [py_contains py_getitem bind]. unfold dict_mem.
  destruct (dict_get (KStr f) cd) as [v|]; cbn [bind].
  - destruct (truthy v); cbn [bind py_setitem].
    + eexists; split; [reflexivity|]. intros k Hk. now rewrite dict_get_set, Hk.
    + eauto.
  - eauto.
Qed.

Lemma merge_scene_notes_rule (sd rs : items) (notes old : list pyval) :
  dict_get rn sd = Some (VList notes) ->
  notes_of rs = Some old ->
  exists rd,
    merge_scene_notes (VDict sd) (VDict rs) = Ok (VDict rd)
    /\ (forall k, key_eqb k rn = false -> dict_get k rd = dict_get k rs)
    /\ (notes = [VStr "Scene has been revised"] ->
        dict_get rn rd = Some (VList notes))
    /\ (notes <> [VStr "Scene has been revised"] -> notes <> [] ->
        dict_get rn rd = Some (VList (old ++ notes)))
    /\ (notes = [] -> dict_get rn rd = dict_get rn rs).
Proof.
  intros Hn Ho. unfold merge_scene_notes, notes_of, rn in *.
  cbn [py_contains py_getitem bind]. unfold dict_mem.
  rewrite Hn. cbn [bind py_len].
  assert (Hset : forall v, exists rd,
             py_setitem (VDict rs) (KStr "reflection_notes") v = Ok (VDict rd)
             /\ (forall k, key_eqb k (KStr "reflection_notes") = false ->
                           dict_get k rd = dict_get k rs)
             /\ dict_get (KStr "reflection_notes") rd = Some v).
  { intros v. eexists. split; [reflexivity|]. split.
    - intros k Hk. now rewrite dict_get_set, Hk.
    - apply dict_get_set_same. }
  assert (Happend : notes <> [] -> exists rd,
             (if truthy (VList notes)
              then
                c' <- py_contains (KStr "reflection_notes") (VDict rs) ;;
                if c' then
                  old <- py_getitem (VDict rs) (KStr "reflection_notes") ;;
                  s <- py_add old (VList notes) ;;
                  py_setitem (VDict rs) (KStr "reflection_notes") s
                else py_setitem (VDict rs) (KStr "reflection_notes") (VList notes)
              else Ok (VDict rs)) = Ok (VDict rd)
             /\ (forall k, key_eqb k (KStr "reflection_notes") = false ->
                           dict_get k rd = dict_get k rs)
             /\ dict_get (KStr "reflection_notes") rd = Some (VList (old ++ notes))).
  { intros Hne. destruct notes as [|x notes]; [congruence|].
    cbn [truthy py_contains py_getitem bind]. unfold dict_mem.
    destruct (dict_get (KStr "reflection_notes") rs) as [v|]; cbn [bind].
    - destruct v; try discriminate. injection Ho as <-.
      cbn [py_add bind]. apply Hset.
    - injection Ho as <-. apply Hset. }
  destruct notes as [|x [|y notes]].
  - cbn. exists rs. split; [reflexivity|]. split; [auto|].
    split; [discriminate|]. split; [congruence|auto].
  - cbn [List.length Z.of_nat Z.eqb Pos.of_succ_nat Pos.eqb bind py_getitem
         key_index seq_index Z.leb Z.ltb Z.compare Pos.compare Pos.compare_cont
         Z.to_nat nth_error].
    destruct (py_eq x (VStr revised_marker)) eqn:Hx; cbn [bind].
    + assert (Hm : x = VStr "Scene has been revised")
        by (apply (proj1 (py_eq_str _ _)) in Hx; exact Hx).
      subst x. destruct (Hset (VList [VStr "Scene has been revised"]))
        as (rd & Hr & Hk & Hg).
      exists rd. split; [exact Hr|]. split; [exact Hk|].
      split; [intros _; exact Hg|]. split; [congruence|discriminate].
    + destruct (Happend ltac:(discriminate)) as (rd & Hr & Hk & Hg).
      exists rd. split; [exact Hr|]. split; [exact Hk|]. split.
      * intros [= ->]. rewrite (proj2 (py_eq_str _ _) eq_refl) in Hx. discriminate.
      * split; [intros _ _; exact Hg|discriminate].
  - replace (Z.of_nat (List.length (x :: y :: notes)) =? 1)%Z with false.
    2:{ symmetry. apply Z.eqb_neq. cbn [List.length]. lia. }
    cbn [bind].
    destruct (Happend ltac:(discriminate)) as (rd & Hr & Hk & Hg).
    exists rd. split; [exact Hr|]. split; [exact Hk|]. split; [discriminate|].
    split; [intros _ _; exact Hg|discriminate].
Qed.

Lemma update_scene_notes_rule (es sd : items) (notes old : list pyval) :
  dict_get rn sd = Some (VList notes) ->
  notes_of es = Some old ->
  exists rs,
    update_scene (VDict es) (VDict sd) = Ok (VDict rs)
    /\ (notes = [VStr "Scene has been revised"] ->
        dict_get rn rs = Some (VList notes))
    /\ (notes <> [VStr "Scene has been revised"] -> notes <> [] ->
        dict_get rn rs = Some (VList (old ++ notes)))
    /\ (notes = [] -> dict_get rn rs = dict_get rn es).
Proof.
  intros Hn Ho. unfold update_scene. cbn [py_copy bind].
  destruct (replace_if_truthy_dict sd es "content") as (es1 & -> & H1).
  cbn [bind].
  destruct (replace_if_truthy_dict sd es1 "structured_reflection")
    as (es2 & -> & H2).
  cbn [bind].
  assert (Hsame : dict_get rn es2 = dict_get rn es)
    by (rewrite H2, H1 by reflexivity; reflexivity).
  destruct (merge_scene_notes_rule sd es2 notes old Hn) as (rs & -> & _ & Hr & Ha & He).
  { unfold notes_of in *. now rewrite Hsame. }
  exists rs. split; [reflexivity|]. split; [exact Hr|]. split; [exact Ha|].
  intros Hnil. now rewrite (He Hnil).
Qed.

(** C8.  For a scene the existing dict holds, with a list [old] of
    notes or with none ([old] is then empty), and an update of that scene
    whose ["reflection_notes"] is the list [notes]: the update of the
    scene returns; the merged scene holds [notes] alone when [notes] is
    the one-entry list ["Scene has been revised"]; it holds
    [old ++ notes] for any other [notes] that is not empty; and an empty
    [notes] leaves what the scene had.  That merged scene is what the
    dict [merge_scenes] returns holds under the scene's name. *)
Theorem scene_notes_replace_or_append
        (d n : items) (scene_id : pykey) (es sd : items)
        (notes old : list pyval) :
  keys_distinct n = true ->
  dict_get scene_id d = Some (VDict es) ->
  In (scene_id, VDict sd) n ->
  dict_get rn sd = Some (VList notes) ->
  notes_of es = Some old ->
  exists rs,
    update_scene (VDict es) (VDict sd) = Ok (VDict rs)
    /\ (notes = [VStr "Scene has been revised"] ->
        dict_get rn rs = Some (VList [VStr "Scene has been revised"]))
    /\ (notes <> [VStr "Scene has been revised"] -> notes <> [] ->
        dict_get rn rs = Some (VList (old ++ notes)))
    /\ (notes = [] -> dict_get rn rs = dict_get rn es)
    /\ (forall r,
          merge_scenes (VDict d) (VDict n) = Ok r ->
          exists rd, r = VDict rd /\ dict_get scene_id rd = Some (VDict rs)).
Proof.
  intros Hd He Hin Hn Ho.
  destruct (update_scene_notes_rule es sd notes old Hn Ho)
    as (rs & Hu & Hrev & Happ & Hnil).
  exists rs. split; [exact Hu|].
  split; [intros ->; now apply Hrev|]. split; [exact Happ|].
  split; [exact Hnil|].
  intros r H. rewrite merge_scenes_loop in H.
  destruct (keyed_loop _ _ _ _ _ H) as (rd & -> & _ & Hkeys).
  specialize (Hkeys Hd _ _ Hin). unfold merged_entry, never in Hkeys.
  rewrite He in Hkeys. destruct Hkeys as (e' & Hu' & Hg).
  rewrite Hu in Hu'. injection Hu' as <-.
  exists rd. auto.
Qed.

Lemma scene_notes_replace_or_append_witness :
  (exists rs,
      update_scene
        (obj [("content", VStr "A");
              ("reflection_notes",
               VList [VStr "too short"; VStr "flat dialogue"; VStr "no stakes";
                      VStr "pacing"; VStr "ending"])])
        (obj [("content", VStr "A expanded");
              ("reflection_notes", VList [VStr "Scene has been revised"])])
      = Ok (VDict rs)
      /\ dict_get rn rs = Some (VList [VStr "Scene has been revised"])
      /\ List.length [VStr "Scene has been revised"] = 1)
  /\ (exists rs,
      update_scene
        (obj [("content", VStr "A")])
        (obj [("reflection_notes", VList [VStr "too short"])])
      = Ok (VDict rs)
      /\ dict_get rn rs = Some (VList [VStr "too short"])).
Proof.
  split.
  - destruct (scene_notes_replace_or_append
                [(KStr "1", VDict [(KStr "content", VStr "A");
                                   (KStr "reflection_notes",
                                    VList [VStr "too short"; VStr "flat dialogue";
                                           VStr "no stakes"; VStr "pacing";
                                           VStr "ending"])])]
                [(KStr "1", VDict [(KStr "content", VStr "A expanded");
                                   (KStr "reflection_notes",
                                    VList [VStr "Scene has been revised"])])]
                (KStr "1")
                [(KStr "content", VStr "A");
                 (KStr "reflection_notes",
                  VList [VStr "too short"; VStr "flat dialogue";
                         VStr "no stakes"; VStr "pacing"; VStr "ending"])]
                [(KStr "content", VStr "A expanded");
                 (KStr "reflection_notes", VList [VStr "Scene has been revised"])]
                [VStr "Scene has been revised"]
                [VStr "too short"; VStr "flat dialogue"; VStr "no stakes";
                 VStr "pacing"; VStr "ending"]
                eq_refl eq_refl (or_introl eq_refl) eq_refl eq_refl)
      as (rs & Hu & Hrev & _).
    exists rs. split; [exact Hu|]. split; [exact (Hrev eq_refl)|reflexivity].
  - destruct (scene_notes_replace_or_append
                [(KStr "1", VDict [(KStr "content", VStr "A")])]
                [(KStr "1", VDict [(KStr "reflection_notes",
                                    VList [VStr "too short"])])]
                (KStr "1")
                [(KStr "content", VStr "A")]
                [(KStr "reflection_notes", VList [VStr "too short"])]
                [VStr "too short"] []
                eq_refl eq_refl (or_introl eq_refl) eq_refl eq_refl)
      as (rs & Hu & _ & Happ & _).
    exists rs. split; [exact Hu|].
    exact (Happ ltac:(discriminate) ltac:(discriminate)).
Defined.

(* ------------------------------------------------------------------ *)
(** ** Continuity issues: one record per chapter *)

Lemma Forall_dict_set (P : pykey * pyval -> Prop) k v (d : items) :
  Forall P d ->
  (forall k0, key_eqb k k0 = true -> P (k0, v)) ->
  Forall P (dict_set k v d).
Proof.
  intros Hd Hp. induction Hd as [|[k1 v1] d H1 Hd IH]; simpl.
  - constructor; [|constructor]. apply Hp, key_eqb_refl.
  - destruct (key_eqb k k1) eqn:Hk; constructor; auto.
Qed.

Lemma best_ok_set best k issue :
  best_ok best ->
  issue_shaped issue = true ->
  to_key (after_chapter issue) = Ok k ->
  best_ok (dict_set k issue best).
Proof.
  intros [Hd Hf] Hs Hk. split.
  - now apply keys_distinct_set.
  - apply Forall_dict_set; [assumption|].
    intros k0 H0. split; [assumption|]. exists k. auto.
Qed.

Lemma completed_shaped issue :
  issue_shaped issue = true -> completed issue = Ok (is_completed issue).
Proof.
  destruct issue; try discriminate. intros _.
  unfold is_completed, completed. cbn [py_get].
  now destruct (dict_get (KStr "resolution_status") d).
Qed.

Lemma issue_step (choose : bool -> bool -> bool) best issue :
  best_ok best -> issue_shaped issue = true ->
  exists best',
    (chapter <- py_get issue "after_chapter" VNone ;;
     if negb (truthy chapter) then Ok best
     else
       key <- to_key chapter ;;
       match dict_get key best with
       | None => Ok (dict_set key issue best)
       | Some current =>
           if choose (is_completed issue) (is_completed current)
           then Ok (dict_set key issue best) else Ok best
       end) = Ok best'
    /\ best_ok best'.
Proof.
  intros Hb Hs. destruct issue as [| | | | |d]; try discriminate.
  cbn [py_get]. unfold issue_shaped in Hs.
  assert (Hac : after_chapter (VDict d)
                = match dict_get (KStr "after_chapter") d with Some v => v | None => VNone end).
  { unfold after_chapter. cbn [py_get]. now destruct (dict_get _ d). }
  destruct (dict_get (KStr "after_chapter") d) as [ch|] eqn:Hch; cbn [bind].
  2:{ cbn. eauto. }
  destruct (truthy ch) eqn:Ht; cbn [negb]; [|eauto].
  destruct ch; try discriminate; cbn [to_key bind].
  all: match goal with
       | |- context [dict_get ?k ?b] =>
           assert (Hset : best_ok (dict_set k (VDict d) b))
             by (apply best_ok_set; [assumption| unfold issue_shaped; now rewrite Hch | now rewrite Hac]);
           destruct (dict_get k b); [destruct (choose _ _)|]; eauto
       end.
Qed.

Lemma seed_issue_ok best issue :
  best_ok best -> issue_shaped issue = true ->
  exists best', seed_issue best issue = Ok best' /\ best_ok best'.
Proof.
  intros Hb Hs.
  destruct (issue_step (fun n c => n && negb c) best issue Hb Hs) as (b' & H & Hok).
  exists b'. split; [|assumption]. rewrite <- H. unfold seed_issue.
  destruct (py_get issue "after_chapter" VNone) as [ch|]; cbn [bind]; [|reflexivity].
  destruct (negb (truthy ch)); [reflexivity|].
  destruct (to_key ch) as [k|]; cbn [bind]; [|reflexivity].
  destruct (dict_get k best) as [cur|] eqn:Hg; [|reflexivity].
  destruct Hb as [_ Hf]. 
  destruct (dict_get_in _ _ _ Hg) as (k0 & Hin & _).
  rewrite Forall_forall in Hf. destruct (Hf _ Hin) as [Hcs _]. simpl in Hcs.
  unfold and_then. rewrite (completed_shaped _ Hs), (completed_shaped _ Hcs).
  cbn [bind]. now destruct (is_completed issue), (is_completed cur).
Qed.

Lemma fold_issue_ok best issue :
  best_ok best -> issue_shaped issue = true ->
  exists best', fold_issue best issue = Ok best' /\ best_ok best'.
Proof.
  intros Hb Hs.
  destruct (issue_step (fun n c => n || negb c) best issue Hb Hs) as (b' & H & Hok).
  exists b'. split; [|assumption]. rewrite <- H. unfold fold_issue.
  destruct (py_get issue "after_chapter" VNone) as [ch|]; cbn [bind]; [|reflexivity].
  destruct (negb (truthy ch)); [reflexivity|].
  destruct (to_key ch) as [k|]; cbn [bind]; [|reflexivity].
  destruct (dict_get k best) as [cur|] eqn:Hg; [|reflexivity].
  destruct Hb as [_ Hf]. 
  destruct (dict_get_in _ _ _ Hg) as (k0 & Hin & _).
  rewrite Forall_forall in Hf. destruct (Hf _ Hin) as [Hcs _]. simpl in Hcs.
  unfold or_else. rewrite (completed_shaped _ Hs), (completed_shaped _ Hcs).
  cbn [bind]. now destruct (is_completed issue), (is_completed cur).
Qed.

Lemma issues_loop_ok (step : items -> pyval -> result items) :
  (forall best issue, best_ok best -> issue_shaped issue = true ->
                      exists best', step best issue = Ok best' /\ best_ok best') ->
  forall l best, best_ok best -> forallb issue_shaped l = true ->
  exists best', for_each l step best = Ok best' /\ best_ok best'.
Proof.
  intros Hstep. induction l as [|i l IH]; intros best Hb Hl; cbn [for_each].
  - eauto.
  - simpl in Hl. apply andb_true_iff in Hl as [Hi Hl].
    destruct (Hstep _ _ Hb Hi) as (b1 & -> & Hb1). cbn [bind]. now apply IH.
Qed.

Lemma py_eq_key a c ka :
  to_key a = Ok ka -> py_eq a c = true ->
  exists kc, to_key c = Ok kc /\ key_eqb ka kc = true.
Proof.
  destruct a, c; simpl; try discriminate; intros [= <-] H; eexists; split;
    try reflexivity; simpl; auto.
Qed.

Lemma chapters_agree a b c ka kb :
  to_key a = Ok ka -> to_key b = Ok kb ->
  py_eq a c = true -> py_eq b c = true -> key_eqb ka kb = true.
Proof.
  intros Ha Hb Hac Hbc.
  destruct (py_eq_key _ _ _ Ha Hac) as (kc & Hc & H1).
  destruct (py_eq_key _ _ _ Hb Hbc) as (kc' & Hc' & H2).
  rewrite Hc in Hc'. injection Hc' as <-.
  rewrite key_eqb_sym in H2. eapply key_eqb_trans; eauto.
Qed.

Lemma best_single best c :
  best_ok best ->
  List.length (filter (fun i => py_eq (after_chapter i) c) (dict_values best)) <= 1.
Proof.
  intros [Hd Hf]. induction best as [|[k i] best IH]; simpl; [lia|].
  simpl in Hd. apply andb_true_iff in Hd as [Hm Hd].
  apply negb_true_iff in Hm.
  inversion Hf as [|? ? [Hs (k' & Hk' & Hkk)] Hf']; subst. simpl in *.
  specialize (IH Hd Hf').
  destruct (py_eq (after_chapter i) c) eqn:Hi; [|exact IH].
  assert (Hnone : filter (fun i => py_eq (after_chapter i) c) (dict_values best) = []).
  { clear IH. rewrite Forall_forall in Hf'.
    destruct (filter _ (dict_values best)) as [|j l] eqn:Hfl; [reflexivity|exfalso].
    assert (Hj : In j (filter (fun i => py_eq (after_chapter i) c) (dict_values best)))
      by (rewrite Hfl; now left).
    apply filter_In in Hj as [Hj Hjc].
    unfold dict_values in Hj. apply in_map_iff in Hj as ([k2 j2] & <- & Hin).
    destruct (Hf' _ Hin) as [_ (k2' & Hk2' & Hkk2)]. simpl in *.
    pose proof (chapters_agree _ _ _ _ _ Hk' Hk2' Hi Hjc) as Hagree.
    pose proof (dict_mem_false_in _ _ _ _ Hm Hin) as Hne.
    assert (key_eqb k k2 = true).
    { rewrite key_eqb_sym in Hkk.
      eapply key_eqb_trans; [exact Hkk|]. eapply key_eqb_trans; eauto. }
    congruence. }
  rewrite Hnone. simpl. lia.
Qed.

Lemma merge_plain_key_dict (ed : items) k v :
  key_eqb continuity k = false ->
  exists rd, merge_plain_key (VDict ed) (k, v) = Ok (VDict rd)
             /\ dict_get continuity rd = dict_get continuity ed.
Proof.
  intros Hk. unfold merge_plain_key. cbn [py_contains py_getitem bind].
  unfold dict_mem.
  assert (Hset : forall w, exists rd,
             py_setitem (VDict ed) k w = Ok (VDict rd)
             /\ dict_get continuity rd = dict_get continuity ed).
  { intros w. eexists. split; [reflexivity|]. now rewrite dict_get_set, Hk. }
  destruct (dict_get k ed) as [old|]; cbn [bind]; [|apply Hset].
  unfold and_then. cbn [bind].
  destruct (is_list v) eqn:Hv; cbn [bind]; [|apply Hset].
  destruct (is_list old) eqn:Ho; [|apply Hset].
  destruct v; try discriminate. destruct old; try discriminate.
  cbn [py_add bind]. apply Hset.
Qed.

Lemma plain_loop (nd ed : items) :
  (forall k v, In (k, v) nd -> key_eqb continuity k = false) ->
  exists rd, for_each nd merge_plain_key (VDict ed) = Ok (VDict rd)
             /\ dict_get continuity rd = dict_get continuity ed.
Proof.
  revert ed. induction nd as [|[k v] nd IH]; intros ed H; cbn [for_each].
  - eauto.
  - destruct (merge_plain_key_dict ed k v (H _ _ (or_introl eq_refl)))
      as (rd1 & -> & H1).
    cbn [bind]. destruct (IH rd1) as (rd & -> & H2).
    + intros k' v' Hin. apply (H k' v'). now right.
    + exists rd. split; [reflexivity|]. congruence.
Qed.

Lemma replace_other_loop (nd ed : items) :
  exists rd, for_each nd replace_other_key (VDict ed) = Ok (VDict rd)
             /\ dict_get continuity rd = dict_get continuity ed.
Proof.
  revert ed. induction nd as [|[k v] nd IH]; intros ed; cbn [for_each].
  - eauto.
  - unfold replace_other_key at 1.
    destruct (key_eqb k continuity) eqn:Hk; cbn [negb py_setitem bind].
    + apply IH.
    + destruct (IH (dict_set k v ed)) as (rd & -> & H2).
      exists rd. split; [reflexivity|].
      rewrite H2, dict_get_set, key_eqb_sym, Hk. reflexivity.
Qed.

Lemma dict_mem_none_in (d : items) k :
  dict_get k d = None -> forall k' v, In (k', v) d -> key_eqb k k' = false.
Proof.
  intros H k' v Hin. apply (dict_mem_false_in d k k' v); [|assumption].
  unfold dict_mem. now rewrite H.
Qed.

Lemma single_record_of (rd : items) best :
  dict_get continuity rd = Some (VList (dict_values best)) ->
  best_ok best ->
  revelations_shaped (VDict rd) = true /\ single_record (VDict rd).
Proof.
  intros Hg Hb. split.
  - unfold revelations_shaped. rewrite Hg.
    destruct Hb as [_ Hf]. apply forallb_forall. intros i Hi.
    unfold dict_values in Hi. apply in_map_iff in Hi as (kv & <- & Hin).
    rewrite Forall_forall in Hf. now destruct (Hf _ Hin).
  - intros c. unfold issues_after, continuity_issues. cbn [py_get].
    unfold continuity in Hg. rewrite Hg. now apply best_single.
Qed.

Lemma merge_revelations_step (e n : pyval) :
  revelations_shaped e = true -> revelations_shaped n = true ->
  single_record e ->
  exists r, merge_revelations e n = Ok r
            /\ revelations_shaped r = true /\ single_record r.
Proof.
  intros He Hn Hs.
  destruct e as [| | | | |ed]; try discriminate.
  destruct n as [| | | | |nd]; try discriminate.
  unfold merge_revelations. cbn [py_copy bind py_contains or_else].
  unfold or_else. cbn [bind]. unfold dict_mem.
  assert (Hkeep : forall rd, dict_get continuity rd = dict_get continuity ed ->
                    revelations_shaped (VDict rd) = true /\ single_record (VDict rd)).
  { intros rd Hrd. split.
    - unfold revelations_shaped in *. now rewrite Hrd.
    - intros c. specialize (Hs c). unfold issues_after, continuity_issues in *.
      cbn [py_get] in *. unfold continuity in Hrd. now rewrite Hrd. }
  destruct (dict_get continuity nd) as [ni|] eqn:Hni.
  - (* the update carries continuity issues *)
    assert (Hne : truthy (VDict nd) = true) by (destruct nd; [discriminate|reflexivity]).
    rewrite Hne. cbn [negb bind py_get py_items].
    unfold continuity in Hni. rewrite Hni. fold continuity in Hni.
    unfold revelations_shaped in Hn. rewrite Hni in Hn.
    destruct ni as [| | | |nl|]; try discriminate.
    unfold revelations_shaped in He.
    assert (Hold : exists ol,
               match dict_get (KStr "continuity_issues") ed with
               | Some v => Ok v
               | None => Ok (VList [])
               end = Ok (VList ol) /\ forallb issue_shaped ol = true).
    { fold continuity. destruct (dict_get continuity ed) as [[| | | |ol|]|];
        try discriminate; eauto. }
    destruct Hold as (ol & -> & Hol). cbn [bind py_iter].
    destruct (issues_loop_ok seed_issue seed_issue_ok ol [])
      as (b1 & -> & Hb1); [split; [reflexivity|constructor]|assumption|].
    cbn [bind].
    destruct (issues_loop_ok fold_issue fold_issue_ok nl b1 Hb1 Hn)
      as (b2 & -> & Hb2).
    cbn [bind py_setitem].
    destruct (replace_other_loop nd (dict_set continuity (VList (dict_values b2)) ed))
      as (rd & -> & Hrd).
    exists (VDict rd). split; [reflexivity|].
    apply (single_record_of rd b2); [|assumption].
    now rewrite Hrd, dict_get_set_same.
  - (* no continuity issues in the update *)
    replace (if negb (truthy (VDict nd)) then Ok true else Ok (negb false))
      with (@Ok bool true) by (now destruct (negb _)).
    cbn [bind py_items].
    destruct (plain_loop nd ed (dict_mem_none_in _ _ Hni)) as (rd & -> & Hrd).
    exists (VDict rd). split; [reflexivity|]. now apply Hkeep.
Qed.

(** C3.  Starting from a revelations dict whose continuity issues hold
    at most one record per chapter (in particular none), every sequence
    of updates merges, and the merged continuity issues hold at most one
    record whose [after_chapter] equals [c], for every [c]. *)
Theorem continuity_single_record (existing : pyval) (deltas : list pyval) :
  revelations_shaped existing = true ->
  forallb revelations_shaped deltas = true ->
  single_record existing ->
  exists r,
    for_each deltas merge_revelations existing = Ok r
    /\ revelations_shaped r = true
    /\ forall c, List.length (issues_after c r) <= 1.
Proof.
  revert existing. induction deltas as [|n deltas IH]; intros e He Hd Hs;
    cbn [for_each].
  - exists e. auto.
  - simpl in Hd. apply andb_true_iff in Hd as [Hn Hd].
    destruct (merge_revelations_step e n He Hn Hs) as (r1 & -> & Hr1 & Hs1).
    cbn [bind]. now apply IH.
Qed.

Lemma continuity_single_record_witness :
  exists r,
    for_each revelations_updates merge_revelations revelations_initial = Ok r
    /\ revelations_shaped r = true
    /\ forall c, List.length (issues_after c r) <= 1.
Proof.
  apply (continuity_single_record revelations_initial revelations_updates).
  - reflexivity.
  - reflexivity.
  - intros c. simpl. lia.
Defined.

(* ------------------------------------------------------------------ *)
(** ** Continuity issues: which record is kept *)

Lemma chapter_key_get i k :
  chapter_key i = Some k ->
  exists d ch, i = VDict d /\ py_get i "after_chapter" VNone = Ok ch
               /\ truthy ch = true /\ to_key ch = Ok k.
Proof.
  unfold chapter_key. destruct i as [| | | | |d]; try discriminate.
  cbn [py_get]. destruct (dict_get _ d) as [ch|]; [|discriminate].
  destruct (truthy ch) eqn:Ht; [|discriminate].
  destruct (to_key ch) as [k'|] eqn:Hk; [|discriminate].
  intros [= <-]. eauto 6.
Qed.

Lemma completed_dict d : completed (VDict d) = Ok (is_completed (VDict d)).
Proof.
  unfold is_completed, completed. cbn [py_get].
  now destruct (dict_get (KStr "resolution_status") d).
Qed.

Lemma seed_issue_fresh best i k :
  chapter_key i = Some k -> dict_get k best = None ->
  seed_issue best i = Ok (best ++ [(k, i)]).
Proof.
  intros Hk Hg. destruct (chapter_key_get _ _ Hk) as (d & ch & -> & Hch & Ht & Hkey).
  unfold seed_issue. rewrite Hch. cbn [bind]. rewrite Ht. cbn [negb].
  rewrite Hkey. cbn [bind]. rewrite Hg. now rewrite dict_set_absent.
Qed.

Lemma seed_keyed (ol : list pyval) (acc : items) :
  forallb has_chapter ol = true ->
  keys_distinct (acc ++ keyed ol) = true ->
  for_each ol seed_issue acc = Ok (acc ++ keyed ol).
Proof.
  revert acc. induction ol as [|i ol IH]; intros acc Hall Hd; cbn [for_each].
  - unfold keyed. simpl. now rewrite app_nil_r.
  - simpl in Hall. apply andb_true_iff in Hall as [Hi Hall].
    unfold has_chapter in Hi. destruct (chapter_key i) as [k|] eqn:Hk; [|discriminate].
    assert (Hkeyed : keyed (i :: ol) = (k, i) :: keyed ol).
    { unfold keyed. simpl. now rewrite Hk. }
    rewrite Hkeyed in *.
    rewrite (seed_issue_fresh _ _ _ Hk (keys_distinct_middle _ _ _ _ Hd)).
    cbn [bind].
    replace (acc ++ (k, i) :: keyed ol) with ((acc ++ [(k, i)]) ++ keyed ol) in *
      by now rewrite <- app_assoc.
    now apply IH.
Qed.

Lemma keyed_in ol k e :
  In (k, e) (keyed ol) -> chapter_key e = Some k.
Proof.
  unfold keyed. rewrite in_flat_map. intros (i & _ & Hin).
  destruct (chapter_key i) as [k'|] eqn:Hk; [|destruct Hin].
  destruct Hin as [[= <- <-]|[]]. assumption.
Qed.

Lemma keyed_values ol :
  forallb has_chapter ol = true -> dict_values (keyed ol) = ol.
Proof.
  induction ol as [|i ol IH]; [reflexivity|]. simpl.
  rewrite andb_true_iff. intros [Hi Hall]. unfold has_chapter in Hi.
  unfold keyed in *. simpl. destruct (chapter_key i); [|discriminate].
  simpl. unfold dict_values in *. simpl. now rewrite IH.
Qed.

Lemma is_completed_resolved (i : pyval) : is_completed i = resolved i.
Proof.
  destruct i as [| | | | |d]; try reflexivity.
  unfold is_completed, completed, resolved. cbn [py_get].
  destruct (dict_get (KStr "resolution_status") d) as [v|]; cbn [bind];
    [|reflexivity].
  destruct v; reflexivity.
Qed.

Lemma same_chapter_key x k n :
  chapter_key x = Some k ->
  same_chapter x n = match chapter_key n with
                     | Some kn => key_eqb k kn
                     | None => false
                     end.
Proof. intros H. unfold same_chapter. now rewrite H. Qed.

Lemma filed_keyed ol :
  well_keyed ol = true -> filed (keyed ol).
Proof.
  unfold well_keyed. rewrite andb_true_iff. intros [_ Hd].
  split; [assumption|]. apply Forall_forall. intros [k i] Hin.
  exists k. split; [exact (keyed_in _ _ _ Hin)|apply key_eqb_refl].
Qed.

Lemma keyed_slot ol x k :
  forallb has_chapter ol = true ->
  chapter_key x = Some k ->
  dict_get k (keyed ol) = hd_error (filter (same_chapter x) ol).
Proof.
  intros Hall Hx. induction ol as [|i ol IH]; [reflexivity|].
  simpl in Hall. apply andb_true_iff in Hall as [Hi Hall].
  unfold has_chapter in Hi. destruct (chapter_key i) as [ki|] eqn:Hki; [|discriminate].
  assert (Hkeyed : keyed (i :: ol) = (ki, i) :: keyed ol).
  { unfold keyed. simpl. now rewrite Hki. }
  rewrite Hkeyed. cbn [dict_get filter].
  rewrite (same_chapter_key x k i Hx), Hki.
  destruct (key_eqb k ki); [reflexivity|now apply IH].
Qed.

Lemma fold_issue_slot best n :
  filed best -> issue_shaped n = true ->
  exists best',
    fold_issue best n = Ok best' /\ filed best'
    /\ forall k,
        dict_get k best'
        = if match chapter_key n with
             | Some kn => key_eqb k kn
             | None => false
             end
          then Some match dict_get k best with
                    | Some current => precedence current n
                    | None => n
                    end
          else dict_get k best.
Proof.
  intros [Hd Hf] Hs. destruct n as [| | | | |d]; try discriminate.
  unfold fold_issue, chapter_key. cbn [py_get]. unfold issue_shaped in Hs.
  destruct (dict_get (KStr "after_chapter") d) as [ch|] eqn:Hch; cbn [bind].
  2:{ cbn. exists best. repeat split; auto. }
  destruct (truthy ch) eqn:Ht; cbn [negb].
  2:{ exists best. repeat split; auto. }
  destruct (to_key ch) as [kn|] eqn:Hkn.
  2:{ destruct ch; discriminate. }
  cbn [bind].
  assert (Hn : chapter_key (VDict d) = Some kn).
  { unfold chapter_key. now rewrite Hch, Ht, Hkn. }
  assert (Hset : filed (dict_set kn (VDict d) best)).
  { split; [now apply keys_distinct_set|].
    apply Forall_dict_set; [assumption|]. intros k0 H0. exists kn. auto. }
  destruct (dict_get kn best) as [cur|] eqn:Hg.
  - destruct (dict_get_in _ _ _ Hg) as (k0 & Hin & _).
    destruct (proj1 (Forall_forall _ _) Hf _ Hin) as (kc & Hkc & _).
    cbn [snd] in Hkc.
    destruct (chapter_key_get _ _ Hkc) as (dc & _ & -> & _).
    unfold or_else. rewrite !completed_dict, !is_completed_resolved. cbn [bind].
    assert (Hc : (if resolved (VDict d) then Ok true
                  else Ok (negb (resolved (VDict dc))))
                 = Ok (resolved (VDict d) || negb (resolved (VDict dc))))
      by (now destruct (resolved (VDict d))).
    rewrite Hc. cbn [bind]. unfold precedence.
    destruct (resolved (VDict d) || negb (resolved (VDict dc))) eqn:Hor.
    + eexists. split; [reflexivity|]. split; [exact Hset|].
      intros k. rewrite dict_get_set.
      destruct (key_eqb k kn) eqn:Hk; [|reflexivity].
      now rewrite (dict_get_congr best _ _ Hk), Hg, Hor.
    + exists best. split; [reflexivity|]. split; [split; assumption|].
      intros k. destruct (key_eqb k kn) eqn:Hk; [|reflexivity].
      now rewrite (dict_get_congr best _ _ Hk), Hg, Hor.
  - eexists. split; [reflexivity|]. split; [exact Hset|].
    intros k. rewrite dict_get_set.
    destruct (key_eqb k kn) eqn:Hk; [|reflexivity].
    now rewrite (dict_get_congr best _ _ Hk), Hg.
Qed.

Lemma fold_issues_slot nl best :
  filed best -> forallb issue_shaped nl = true ->
  exists best',
    for_each nl fold_issue best = Ok best' /\ filed best'
    /\ forall x k, chapter_key x = Some k ->
         dict_get k best'
         = filed_after (dict_get k best) (filter (same_chapter x) nl).
Proof.
  revert best. induction nl as [|n nl IH]; intros best Hb Hl; cbn [for_each].
  - exists best. auto.
  - simpl in Hl. apply andb_true_iff in Hl as [Hn Hl].
    destruct (fold_issue_slot best n Hb Hn) as (b1 & -> & Hb1 & Hs1).
    cbn [bind]. destruct (IH b1 Hb1 Hl) as (b2 & -> & Hb2 & Hs2).
    exists b2. split; [reflexivity|]. split; [assumption|].
    intros x k Hx. rewrite (Hs2 x k Hx), Hs1. cbn [filter].
    rewrite (same_chapter_key x k n Hx).
    destruct (match chapter_key n with
              | Some kn => key_eqb k kn
              | None => false
              end); reflexivity.
Qed.

Lemma filed_values best x k :
  filed best -> chapter_key x = Some k ->
  filter (same_chapter x) (dict_values best) = record_of (dict_get k best).
Proof.
  intros [Hd Hf] Hx. induction best as [|[k1 i1] best IH]; [reflexivity|].
  cbn [keys_distinct] in Hd. apply andb_true_iff in Hd as [Hm Hd].
  apply negb_true_iff in Hm.
  inversion Hf as [|? ? (ki & Hki & Hkk) Hf']; subst. cbn [fst snd] in *.
  specialize (IH Hd Hf').
  unfold dict_values in *. cbn [map filter dict_get snd].
  rewrite (same_chapter_key x k i1 Hx), Hki.
  assert (Hsame : key_eqb k ki = key_eqb k k1).
  { destruct (key_eqb k k1) eqn:H1.
    - rewrite key_eqb_sym in Hkk. exact (key_eqb_trans _ _ _ H1 Hkk).
    - destruct (key_eqb k ki) eqn:H2; [|reflexivity].
      now rewrite (key_eqb_trans _ _ _ H2 Hkk) in H1. }
  rewrite Hsame. destruct (key_eqb k k1) eqn:H1; [|exact IH].
  rewrite IH. assert (Hnone : dict_get k best = None).
  { rewrite (dict_get_congr best _ _ H1). unfold dict_mem in Hm.
    now destruct (dict_get k1 best). }
  now rewrite Hnone.
Qed.

Lemma filed_after_some e rivals :
  filed_after (Some e) rivals = Some (fold_left precedence rivals e).
Proof.
  revert e. induction rivals as [|n r IH]; intros e; [reflexivity|].
  cbn [filed_after fold_left]. apply IH.
Qed.

Lemma precedence_fold_in rivals c :
  In (fold_left precedence rivals c) (c :: rivals).
Proof.
  revert c. induction rivals as [|n r IH]; intros c; [now left|].
  cbn [fold_left]. destruct (IH (precedence c n)) as [H|H].
  - assert (Hp : precedence c n = c \/ precedence c n = n)
      by (unfold precedence; destruct (resolved n || negb (resolved c)); auto).
    destruct Hp as [Hp|Hp]; [left|right; left]; rewrite <- H; now symmetry.
  - right. right. exact H.
Qed.

Lemma precedence_fold_stays rivals e :
  resolved e = true -> existsb resolved rivals = false ->
  fold_left precedence rivals e = e.
Proof.
  revert e. induction rivals as [|n r IH]; intros e He Hr; [reflexivity|].
  cbn [existsb] in Hr. apply orb_false_iff in Hr as [Hn Hr].
  cbn [fold_left]. unfold precedence at 2. rewrite Hn, He. cbn.
  now apply IH.
Qed.

Lemma precedence_fold_resolved rivals e :
  existsb resolved rivals = true ->
  In (fold_left precedence rivals e) rivals
  /\ resolved (fold_left precedence rivals e) = true.
Proof.
  revert e. induction rivals as [|n r IH]; intros e Hr; [discriminate|].
  cbn [fold_left]. destruct (existsb resolved r) eqn:Hrest.
  - destruct (IH (precedence e n) eq_refl) as [Hin Hres].
    split; [now right|assumption].
  - cbn [existsb] in Hr. rewrite Hrest, orb_false_r in Hr.
    assert (Hp : precedence e n = n) by (unfold precedence; now rewrite Hr).
    rewrite Hp, (precedence_fold_stays r n Hr Hrest).
    split; [now left|assumption].
Qed.

Lemma precedence_fold_new rivals e :
  resolved e = false -> rivals <> [] ->
  In (fold_left precedence rivals e) rivals.
Proof.
  intros He Hne. destruct rivals as [|n r]; [congruence|].
  cbn [fold_left].
  assert (Hp : precedence e n = n)
    by (unfold precedence; rewrite He; now rewrite orb_true_r).
  rewrite Hp. apply precedence_fold_in.
Qed.

Lemma existing_slot ol e :
  well_keyed ol = true -> In e ol ->
  has_chapter e = true /\ hd_error (filter (same_chapter e) ol) = Some e.
Proof.
  intros Hwk Hin. pose proof Hwk as Hwk'. unfold well_keyed in Hwk'.
  apply andb_true_iff in Hwk' as [Hall Hd].
  assert (Hhas : has_chapter e = true)
    by (rewrite forallb_forall in Hall; now apply Hall).
  split; [assumption|]. unfold has_chapter in Hhas.
  destruct (chapter_key e) as [k|] eqn:Hk; [|discriminate].
  rewrite <- (keyed_slot ol e k Hall Hk).
  apply dict_get_distinct; [assumption|].
  unfold keyed. apply in_flat_map. exists e. split; [assumption|].
  rewrite Hk. now left.
Qed.

(** C4.  When the existing issues are filed one per chapter and the
    update brings any list of issues, the merge returns, and for every
    chapter the merged list holds exactly the record that is left when
    the new issues of that chapter meet, one after the other, the record
    the chapter holds: a new issue takes the place if it is completed or
    if the record there is not, and is dropped otherwise.  So for an
    existing issue [e] and the new issues [rivals] of its chapter: if one
    of them is completed, a completed new issue is kept; if [e] is not
    completed and there is a new issue, a new issue is kept; if [e] is
    completed and no new issue is, [e] is kept. *)
Theorem continuity_precedence (ed nd : items) (ol nl : list pyval) :
  dict_get continuity ed = Some (VList ol) ->
  dict_get continuity nd = Some (VList nl) ->
  well_keyed ol = true ->
  forallb issue_shaped nl = true ->
  exists rd issues,
    merge_revelations (VDict ed) (VDict nd) = Ok (VDict rd)
    /\ dict_get continuity rd = Some (VList issues)
    /\ (forall x, has_chapter x = true ->
          filter (same_chapter x) issues
          = record_of (filed_after (hd_error (filter (same_chapter x) ol))
                                   (filter (same_chapter x) nl)))
    /\ (forall e, In e ol ->
          let rivals := filter (same_chapter e) nl in
          exists kept,
            filter (same_chapter e) issues = [kept]
            /\ (existsb resolved rivals = true ->
                In kept rivals /\ resolved kept = true)
            /\ (resolved e = false -> rivals <> [] -> In kept rivals)
            /\ (resolved e = true -> existsb resolved rivals = false ->
                kept = e)
            /\ (forall n, rivals = [n] ->
                  (resolved n = true -> kept = n)
                  /\ (resolved e = false -> kept = n)
                  /\ (resolved e = true -> resolved n = false -> kept = e))).
Proof.
  intros He Hn Hwk Hnl.
  pose proof Hwk as Hwk'. unfold well_keyed in Hwk'.
  apply andb_true_iff in Hwk' as [Hall Hd].
  destruct (fold_issues_slot nl (keyed ol) (filed_keyed ol Hwk) Hnl)
    as (best & Hfold & Hbest & Hslot).
  destruct (replace_other_loop nd (dict_set continuity (VList (dict_values best)) ed))
    as (rd & Hrd & Hg).
  assert (Hrun : merge_revelations (VDict ed) (VDict nd) = Ok (VDict rd)).
  { unfold merge_revelations. cbn [py_copy bind py_contains].
    unfold or_else, dict_mem. rewrite Hn.
    assert (Hne : truthy (VDict nd) = true)
      by (destruct nd; [discriminate|reflexivity]).
    rewrite Hne. cbn [negb bind py_get py_items].
    unfold continuity in He, Hn. rewrite He, Hn. cbn [bind py_iter].
    rewrite (seed_keyed ol [] Hall Hd). cbn [bind app].
    rewrite Hfold. cbn [bind py_setitem]. exact Hrd. }
  assert (Hrule : forall x, has_chapter x = true ->
            filter (same_chapter x) (dict_values best)
            = record_of (filed_after (hd_error (filter (same_chapter x) ol))
                                     (filter (same_chapter x) nl))).
  { intros x Hx. unfold has_chapter in Hx.
    destruct (chapter_key x) as [k|] eqn:Hk; [|discriminate].
    rewrite (filed_values best x k Hbest Hk), (Hslot x k Hk).
    now rewrite (keyed_slot ol x k Hall Hk). }
  exists rd, (dict_values best). split; [exact Hrun|].
  split; [now rewrite Hg, dict_get_set_same|]. split; [exact Hrule|].
  intros e Hin rivals.
  destruct (existing_slot ol e Hwk Hin) as [Hhas Hhd].
  exists (fold_left precedence rivals e). split.
  { rewrite (Hrule e Hhas), Hhd. fold rivals. now rewrite filed_after_some. }
  split; [apply precedence_fold_resolved|].
  split; [apply precedence_fold_new|].
  split; [apply precedence_fold_stays|].
  intros n ->. cbn [fold_left]. unfold precedence. repeat split.
  - now intros ->.
  - intros ->. now rewrite orb_true_r.
  - now intros -> ->.
Qed.

Lemma continuity_precedence_witness :
  exists rd,
    merge_revelations
      (obj [("continuity_issues",
             VList [issue "3" "open"; issue "4" "completed"; issue "5" "open"])])
      (obj [("continuity_issues",
             VList [issue "3" "completed"; issue "4" "open";
                    issue "5" "in progress"; issue "6" "open"])])
    = Ok (VDict rd)
    /\ dict_get continuity rd
       = Some (VList [issue "3" "completed"; issue "4" "completed";
                      issue "5" "in progress"; issue "6" "open"]).
Proof.
  destruct (continuity_precedence
              [(continuity,
                VList [issue "3" "open"; issue "4" "completed"; issue "5" "open"])]
              [(continuity,
                VList [issue "3" "completed"; issue "4" "open";
                       issue "5" "in progress"; issue "6" "open"])]
              [issue "3" "open"; issue "4" "completed"; issue "5" "open"]
              [issue "3" "completed"; issue "4" "open";
               issue "5" "in progress"; issue "6" "open"]
              eq_refl eq_refl eq_refl eq_refl)
    as (rd & issues & Hrun & Hg & _).
  exists rd. split; [exact Hrun|].
  rewrite Hg. vm_compute in Hrun. injection Hrun as <-.
  vm_compute in Hg. injection Hg as <-. reflexivity.
Defined.

(* ------------------------------------------------------------------ *)
(** ** Development history of a plot thread *)

Lemma history_key_dict x : is_dict x = true -> history_key x = Ok (entry_key x).
Proof.
  destruct x; try discriminate. intros _. unfold entry_key, history_key.
  cbn [py_get].
  destruct (dict_get (KStr "chapter") d), (dict_get (KStr "scene") d),
    (dict_get (KStr "development") d); reflexivity.
Qed.

Lemma history_key_ok x s : history_key x = Ok s -> is_dict x = true.
Proof. destruct x; try discriminate. reflexivity. Qed.

Lemma map_result_keys l :
  forallb is_dict l = true -> map_result history_key l = Ok (map entry_key l).
Proof.
  induction l as [|x l IH]; [reflexivity|]. simpl.
  rewrite andb_true_iff. intros [Hx Hl].
  rewrite (history_key_dict _ Hx), (IH Hl). reflexivity.
Qed.

Lemma map_result_ok l ks :
  map_result history_key l = Ok ks -> forallb is_dict l = true.
Proof.
  revert ks. induction l as [|x l IH]; intros ks H; [reflexivity|].
  simpl in H. destruct (history_key x) eqn:Hx; [|discriminate].
  cbn [bind] in H. destruct (map_result history_key l) eqn:Hl; [|discriminate].
  simpl. now rewrite (history_key_ok _ _ Hx), (IH _ eq_refl).
Qed.

Lemma append_loop (ks : list string) (nh acc : list pyval) :
  forallb is_dict nh = true ->
  for_each nh (append_if_new ks) (VList acc)
  = Ok (VList (acc ++ filter (fun x => negb (str_mem (entry_key x) ks)) nh)).
Proof.
  revert acc. induction nh as [|x nh IH]; intros acc H; cbn [for_each filter].
  - now rewrite app_nil_r.
  - simpl in H. apply andb_true_iff in H as [Hx Hn].
    unfold append_if_new at 1. rewrite (history_key_dict _ Hx). cbn [bind].
    destruct (negb (str_mem (entry_key x) ks)); cbn [py_append bind].
    + rewrite IH by assumption. now rewrite <- app_assoc.
    + now apply IH.
Qed.

Lemma append_loop_fails (ks : list string) (nh : list pyval) (h : pyval) :
  is_list h = false -> forallb is_dict nh = true ->
  (exists x, In x nh /\ str_mem (entry_key x) ks = false) ->
  exists e, for_each nh (append_if_new ks) h = Raise e.
Proof.
  intros Hh. induction nh as [|x nh IH]; intros Hn (y & Hy & Hfresh).
  - destruct Hy.
  - simpl in Hn. apply andb_true_iff in Hn as [Hx Hn]. cbn [for_each].
    unfold append_if_new at 1. rewrite (history_key_dict _ Hx). cbn [bind].
    destruct (str_mem (entry_key x) ks) eqn:Hm; cbn [negb].
    + cbn [bind]. apply IH; [assumption|]. destruct Hy as [->|Hy]; [congruence|eauto].
    + destruct h; try discriminate; cbn; eauto.
Qed.

Lemma str_mem_app s a b : str_mem s (a ++ b) = str_mem s a || str_mem s b.
Proof. unfold str_mem. apply existsb_app. Qed.

Lemma str_mem_map_in x (l : list pyval) :
  In x l -> str_mem (entry_key x) (map entry_key l) = true.
Proof.
  intros H. unfold str_mem. apply existsb_exists. exists (entry_key x).
  split; [now apply in_map|apply String.eqb_refl].
Qed.

Lemma filter_none (ks : list string) (nh : list pyval) :
  (forall x, In x nh -> str_mem (entry_key x) ks = true) ->
  filter (fun x => negb (str_mem (entry_key x) ks)) nh = [].
Proof.
  induction nh as [|x nh IH]; intros H; [reflexivity|]. simpl.
  rewrite (H x (or_introl eq_refl)). simpl. apply IH. intros y Hy. apply H. now right.
Qed.

Lemma py_get_dict (d : items) k dflt :
  py_get (VDict d) k dflt
  = Ok match dict_get (KStr k) d with Some v => v | None => dflt end.
Proof. cbn. now destruct (dict_get (KStr k) d). Qed.

Lemma history_key_scalar k : exists e, history_key (key_val k) = Raise e.
Proof. destruct k; cbn; eauto. Qed.

Lemma history_main (ed : items) (eh nh : list pyval) r :
  forallb is_dict nh = true ->
  (old_entries <- py_iter (VList eh) ;;
   existing_entries <- map_result history_key old_entries ;;
   new_entries <- py_iter (VList nh) ;;
   h <- for_each new_entries (append_if_new existing_entries) (VList eh) ;;
   py_setitem (VDict ed) dh h) = Ok r ->
  r = VDict (dict_set dh (VList (eh ++ fresh_entries eh nh)) ed)
  /\ forallb is_dict eh = true.
Proof.
  intros Hn H. cbn [py_iter bind] in H.
  destruct (map_result history_key eh) as [ks|] eqn:Hks; [|discriminate].
  pose proof (map_result_ok _ _ Hks) as Heh.
  rewrite (map_result_keys _ Heh) in Hks. injection Hks as <-.
  cbn [bind] in H. rewrite (append_loop _ _ _ Hn) in H.
  cbn [bind py_setitem] in H. injection H as <-. auto.
Qed.

Lemma fresh_absorbed (eh nh : list pyval) :
  forall x, In x nh ->
    str_mem (entry_key x) (map entry_key (eh ++ fresh_entries eh nh)) = true.
Proof.
  intros x Hx. rewrite map_app, str_mem_app.
  destruct (str_mem (entry_key x) (map entry_key eh)) eqn:Hm; [reflexivity|].
  simpl. apply str_mem_map_in. unfold fresh_entries. apply filter_In.
  split; [assumption|]. now rewrite Hm.
Qed.

Lemma forallb_app_filter (eh nh : list pyval) :
  forallb is_dict eh = true -> forallb is_dict nh = true ->
  forallb is_dict (eh ++ fresh_entries eh nh) = true.
Proof.
  intros He Hn. rewrite forallb_app, He. simpl.
  apply forallb_forall. intros x Hx. unfold fresh_entries in Hx.
  apply filter_In in Hx as [Hx _]. rewrite forallb_forall in Hn. auto.
Qed.

Lemma history_dict (d : items) :
  history (VDict d)
  = match dict_get dh d with
    | Some (VList l) => l
    | _ => []
    end.
Proof.
  unfold history. rewrite py_get_dict. fold dh.
  now destruct (dict_get dh d) as [[]|].
Qed.

Lemma merge_history_run (ed tdd : items) r :
  thread_shaped (VDict tdd) = true ->
  merge_history (VDict ed) (VDict tdd) = Ok r ->
  exists rd, r = VDict rd
    /\ (forall k, key_eqb k dh = false -> dict_get k rd = dict_get k ed)
    /\ history (VDict rd)
       = history (VDict ed)
           ++ fresh_entries (history (VDict ed)) (history (VDict tdd))
    /\ history_absorbed rd tdd.
Proof.
  intros Hs H. unfold merge_history, has_truthy, and_then in H.
  cbn [py_contains py_getitem bind] in H. unfold dict_mem in H.
  unfold thread_shaped in Hs. fold dh in H.
  assert (Hnothing : history (VDict tdd) = [] ->
            (forall nh, dict_get dh tdd = Some (VList nh) -> nh = []) ->
            exists rd, VDict ed = VDict rd
              /\ (forall k, key_eqb k dh = false -> dict_get k rd = dict_get k ed)
              /\ history (VDict rd)
                 = history (VDict ed)
                     ++ fresh_entries (history (VDict ed)) (history (VDict tdd))
              /\ history_absorbed rd tdd).
  { intros Hh Hnil. exists ed. repeat split.
    - rewrite Hh. unfold fresh_entries. simpl. now rewrite app_nil_r.
    - intros nh Hnh Hne. now apply Hnil in Hnh. }
  destruct (dict_get dh tdd) as [v|] eqn:Hv.
  2:{ cbn [bind] in H. injection H as <-. apply Hnothing.
      - now rewrite history_dict, Hv.
      - intros nh [=]. }
  destruct v as [| | | |nh|]; try discriminate.
  destruct nh as [|x0 nh0].
  { cbn [bind truthy] in H. injection H as <-. apply Hnothing.
    - now rewrite history_dict, Hv.
    - now intros nh [= <-]. }
  clear Hnothing. set (nh := x0 :: nh0) in *.
  cbn [bind truthy] in H. rewrite py_get_dict in H. cbn [bind] in H.
  fold dh in H.
  assert (Hfresh0 : exists x, In x nh /\ str_mem (entry_key x) [] = false)
    by (exists x0; split; [now left|reflexivity]).
  assert (Hdone : forall eh,
             match dict_get dh ed with
             | Some v => v
             | None => VList []
             end = VList eh ->
             exists rd, r = VDict rd
               /\ (forall k, key_eqb k dh = false -> dict_get k rd = dict_get k ed)
               /\ history (VDict rd)
                  = history (VDict ed)
                      ++ fresh_entries (history (VDict ed)) (history (VDict tdd))
               /\ history_absorbed rd tdd).
  { intros eh Heh. rewrite Heh in H.
    destruct (history_main ed eh nh r Hs H) as [-> Hd].
    eexists. split; [reflexivity|]. split; [|split].
    - intros k Hk. now rewrite dict_get_set, Hk.
    - rewrite !history_dict, dict_get_set_same, Hv.
      replace (match dict_get dh ed with Some (VList l) => l | _ => [] end)
        with eh; [reflexivity|].
      destruct (dict_get dh ed) as [w|]; [now subst w|now injection Heh].
    - intros nh1 Hnh1 _. rewrite Hv in Hnh1. injection Hnh1 as <-.
      exists (eh ++ fresh_entries eh nh).
      split; [apply dict_get_set_same|]. split.
      + now apply forallb_app_filter.
      + apply fresh_absorbed. }
  destruct (dict_get dh ed) as [ehv|] eqn:Hed.
  2:{ apply (Hdone []). reflexivity. }
  destruct ehv as [| |z|s|eh|de].
  - discriminate.
  - discriminate.
  - discriminate.
  - exfalso. destruct s as [|c s].
    + cbn [py_iter str_chars bind map_result] in H.
      destruct (append_loop_fails [] nh (VStr "") eq_refl Hs Hfresh0) as (e & He).
      rewrite He in H. discriminate.
    + cbn in H. discriminate.
  - apply (Hdone eh). reflexivity.
  - exfalso. destruct de as [|[k v] de].
    + cbn [py_iter dict_keys map bind map_result] in H.
      destruct (append_loop_fails [] nh (VDict []) eq_refl Hs Hfresh0) as (e & He).
      rewrite He in H. discriminate.
    + cbn [py_iter dict_keys map bind map_result fst] in H.
      destruct (history_key_scalar k) as (e & He). rewrite He in H. discriminate.
Qed.

Lemma py_get_field (d : items) k : py_get (VDict d) k VNone = Ok (field d (KStr k)).
Proof. unfold field. apply py_get_dict. Qed.

Lemma truthy_field (d : items) k :
  truthy (field d k) = true -> dict_get k d = Some (field d k).
Proof. unfold field. now destruct (dict_get k d). Qed.

Lemma update_status_run (e : pyval) (tdd : items) r :
  update_status e (VDict tdd) = Ok r ->
  exists ed rd, e = VDict ed /\ r = VDict rd
    /\ (forall k, key_eqb k status = false -> dict_get k rd = dict_get k ed)
    /\ status_absorbed rd tdd.
Proof.
  unfold update_status. rewrite py_get_field. cbn [bind].
  destruct e as [| | | | |ed]; try discriminate.
  rewrite py_get_field. cbn [bind]. fold status.
  destruct (py_eq (field tdd status) (field ed status)) eqn:Heq; cbn [negb].
  - intros [= <-]. exists ed, ed. repeat split. now left.
  - cbn [py_getitem]. destruct (dict_get status tdd) as [sd|] eqn:Hsd; [|discriminate].
    cbn [bind py_setitem]. intros [= <-].
    exists ed, (dict_set status sd ed). repeat split.
    + intros k Hk. now rewrite dict_get_set, Hk.
    + right. split; [congruence|]. now rewrite dict_get_set_same.
Qed.

Lemma update_last_seen_run (ed tdd : items) r :
  update_last_seen (VDict ed) (VDict tdd) = Ok r ->
  exists rd, r = VDict rd
    /\ (forall k, key_eqb k last_chapter = false -> key_eqb k last_scene = false ->
                  dict_get k rd = dict_get k ed)
    /\ last_seen_absorbed rd tdd.
Proof.
  unfold update_last_seen, and_then, last_seen_absorbed.
  rewrite !py_get_field. cbn [bind]. fold last_chapter last_scene.
  destruct (truthy (field tdd last_chapter)) eqn:Hc; cbn [bind andb].
  2:{ intros [= <-]. exists ed. repeat split; discriminate. }
  destruct (truthy (field tdd last_scene)) eqn:Hs.
  2:{ intros [= <-]. exists ed. repeat split; discriminate. }
  cbn [py_getitem]. rewrite (truthy_field _ _ Hc), (truthy_field _ _ Hs).
  cbn [bind py_setitem]. intros [= <-]. eexists. split; [reflexivity|]. split.
  - intros k H1 H2. now rewrite !dict_get_set, H1, H2.
  - intros _. split.
    + rewrite !dict_get_set. reflexivity.
    + now rewrite dict_get_set_same.
Qed.

Lemma update_thread_run (e : pyval) (tdd : items) r :
  thread_shaped (VDict tdd) = true ->
  update_thread e (VDict tdd) = Ok r ->
  exists ed rd, e = VDict ed /\ r = VDict rd
    /\ absorbs rd tdd
    /\ history r = history e ++ fresh_entries (history e) (history (VDict tdd)).
Proof.
  intros Hs H. unfold update_thread in H.
  destruct (update_status e (VDict tdd)) as [e1|] eqn:H1; [|discriminate].
  cbn [bind] in H.
  destruct (update_status_run _ _ _ H1) as (ed & d1 & -> & -> & K1 & A1).
  destruct (update_last_seen (VDict d1) (VDict tdd)) as [e2|] eqn:H2; [|discriminate].
  cbn [bind] in H.
  destruct (update_last_seen_run _ _ _ H2) as (d2 & -> & K2 & A2).
  destruct (merge_history_run _ _ _ Hs H) as (d3 & -> & K3 & Hh & A3).
  exists ed, d3. split; [reflexivity|]. split; [reflexivity|]. split.
  - split; [|split; [|exact A3]].
    + unfold status_absorbed, field in *.
      rewrite K3, K2 by reflexivity. exact A1.
    + unfold last_seen_absorbed in *. rewrite !K3 by reflexivity. exact A2.
  - rewrite Hh. rewrite (history_dict d2), (history_dict ed).
    now rewrite K2, K1 by reflexivity.
Qed.





(* ================================================================== *)
(** * Further properties of the reducers *)
(* ================================================================== *)

Import Blocks.

(* ------------------------------------------------------------------ *)
(** ** merge_lists, merge_dicts, merge_creative_elements *)

(** X1. [merge_lists] of two lists is the existing list followed by the
    new one, an empty operand included, so that merging three lists
    gives the same list whichever two are merged first. *)
Theorem merge_lists_concatenates (a b c : list pyval) :
  merge_lists (VList a) (VList b) = Ok (VList (a ++ b))
  /\ (r <- merge_lists (VList a) (VList b) ;; merge_lists r (VList c))
     = (r <- merge_lists (VList b) (VList c) ;; merge_lists (VList a) r).
Proof.
  assert (H : forall x y, merge_lists (VList x) (VList y) = Ok (VList (x ++ y))).
  { intros [|x0 x] [|y0 y]; cbn; rewrite ?app_nil_r; reflexivity. }
  split; [apply H|]. rewrite !H. cbn [bind]. rewrite !H. now rewrite app_assoc.
Qed.

Lemma assign_all (n d : items) :
  for_each n (fun result kv => let '(key, value) := kv in py_setitem result key value)
           (VDict d)
  = Ok (VDict (dict_union d n)).
Proof.
  revert d. induction n as [|[k v] n IH]; intros d; [reflexivity|].
  cbn [for_each py_setitem bind]. rewrite IH. reflexivity.
Qed.

Lemma dict_get_union (a b : items) k :
  keys_distinct b = true ->
  dict_get k (dict_union a b)
  = match dict_get k b with
    | Some v => Some v
    | None => dict_get k a
    end.
Proof.
  revert a. induction b as [|[k1 v1] b IH]; intros a Hd; [reflexivity|].
  cbn [keys_distinct] in Hd. apply andb_true_iff in Hd as [Hm Hd].
  apply negb_true_iff in Hm.
  change (dict_union a ((k1, v1) :: b)) with (dict_union (dict_set k1 v1 a) b).
  rewrite (IH _ Hd), dict_get_set. cbn [dict_get].
  destruct (key_eqb k k1) eqn:Hk; [|reflexivity].
  rewrite (dict_get_congr b _ _ Hk). unfold dict_mem in Hm.
  now destruct (dict_get k1 b).
Qed.

Lemma keys_distinct_union (a b : items) :
  keys_distinct a = true -> keys_distinct (dict_union a b) = true.
Proof.
  revert a. induction b as [|[k1 v1] b IH]; intros a Ha; [assumption|].
  change (dict_union a ((k1, v1) :: b)) with (dict_union (dict_set k1 v1 a) b).
  apply IH. now apply keys_distinct_set.
Qed.

(** X2. [merge_dicts] and [merge_creative_elements] are the same
    function on dicts: they return, and in the merged dict a key of the
    update holds the update's value and every other key holds what the
    existing dict has there; no key is duplicated. *)
Theorem merge_dicts_update_wins (d n : items) :
  keys_distinct n = true ->
  exists rd,
    merge_dicts (VDict d) (VDict n) = Ok (VDict rd)
    /\ merge_creative_elements (VDict d) (VDict n) = Ok (VDict rd)
    /\ (forall k, dict_get k rd
                  = match dict_get k n with
                    | Some v => Some v
                    | None => dict_get k d
                    end)
    /\ (keys_distinct d = true -> keys_distinct rd = true).
Proof.
  intros Hn. exists (dict_union d n). split; [|split; [|split]].
  - unfold merge_dicts. cbn [py_copy py_items bind]. apply assign_all.
  - unfold merge_creative_elements. cbn [py_copy py_items bind]. apply assign_all.
  - intros k. now apply dict_get_union.
  - apply keys_distinct_union.
Qed.

Lemma merge_dicts_update_wins_witness :
  exists rd,
    merge_dicts (obj [("a", VInt 1); ("b", VInt 2)]) (obj [("b", VInt 3); ("c", VInt 4)])
    = Ok (VDict rd)
    /\ dict_get (KStr "a") rd = Some (VInt 1)
    /\ dict_get (KStr "b") rd = Some (VInt 3)
    /\ dict_get (KStr "c") rd = Some (VInt 4).
Proof.
  destruct (merge_dicts_update_wins
              [(KStr "a", VInt 1); (KStr "b", VInt 2)]
              [(KStr "b", VInt 3); (KStr "c", VInt 4)] eq_refl)
    as (rd & H & _ & Hg & _).
  exists rd. split; [exact H|]. rewrite !Hg. repeat split.
Defined.

(* ------------------------------------------------------------------ *)
(** ** The reducers that merge entity by entity *)

Lemma for_each_ext {A S : Type} (f g : S -> A -> result S) (l : list A) (s : S) :
  (forall s x, f s x = g s x) -> for_each l f s = for_each l g s.
Proof.
  intros H. revert s. induction l as [|x l IH]; intros s; [reflexivity|].
  cbn [for_each]. rewrite H. destruct (g s x); cbn [bind]; auto.
Qed.

Lemma merge_world_elements_loop (d n : items) :
  merge_world_elements (VDict d) (VDict n)
  = for_each n (merge_entry never update_category) (VDict d).
Proof.
  unfold merge_world_elements. cbn [py_copy py_items bind].
  apply for_each_ext. intros s [k v]. unfold merge_entry, never, update_category.
  destruct (py_contains k s) as [[|]|]; cbn [bind]; try reflexivity.
  destruct (py_getitem s k) as [e|]; cbn [bind]; [|reflexivity].
  destruct (py_copy e) as [rc|]; cbn [bind]; [|reflexivity].
  destruct (py_items v) as [its|]; cbn [bind]; reflexivity.
Qed.

Lemma keyed_reducer_loop f :
  In f keyed_reducers ->
  exists skip update,
    (forall d n, f (VDict d) (VDict n)
                 = for_each n (merge_entry skip update) (VDict d))
    /\ (forall v, v <> VNone -> skip v = false).
Proof.
  unfold keyed_reducers.
  intros [<-|[<-|[<-|[<-|[<-|[]]]]]].
  - exists is_none, update_character. split; [apply merge_characters_loop|].
    intros v Hv. now destruct v.
  - exists never, update_scene. split; [apply merge_scenes_loop|reflexivity].
  - exists never, update_chapter. split; [apply merge_chapters_loop|reflexivity].
  - exists never, update_thread. split; [apply merge_plot_threads_loop|reflexivity].
  - exists never, update_category. split; [apply merge_world_elements_loop|reflexivity].
Qed.

Lemma keyed_loop_distinct skip update (n d rd : items) :
  for_each n (merge_entry skip update) (VDict d) = Ok (VDict rd) ->
  keys_distinct d = true -> keys_distinct rd = true.
Proof.
  revert d. induction n as [|[k v] n IH]; intros d H Hd; cbn [for_each] in H.
  - now injection H as <-.
  - destruct (merge_entry skip update (VDict d) (k, v)) as [r1|] eqn:H1;
      cbn [bind] in H; [|discriminate].
    assert (Hr1 : exists d1, r1 = VDict d1 /\ keys_distinct d1 = true).
    { unfold merge_entry in H1. destruct (skip v).
      - injection H1 as <-. eauto.
      - cbn [py_contains bind] in H1. destruct (dict_mem k d).
        + cbn [py_getitem] in H1. destruct (dict_get k d); [|discriminate].
          cbn [bind] in H1. destruct (update p v); [|discriminate].
          cbn [bind py_setitem] in H1. injection H1 as <-.
          eexists; split; [reflexivity|]. now apply keys_distinct_set.
        + cbn [py_setitem] in H1. injection H1 as <-.
          eexists; split; [reflexivity|]. now apply keys_distinct_set. }
    destruct Hr1 as (d1 & -> & Hd1). eapply IH; eauto.
Qed.

Lemma keyed_loop_entity skip update (n d : items) r k e c :
  keys_distinct n = true -> In (k, c) n -> skip c = false ->
  dict_get k d = Some e ->
  for_each n (merge_entry skip update) (VDict d) = Ok r ->
  exists rd e', r = VDict rd /\ update e c = Ok e' /\ dict_get k rd = Some e'.
Proof.
  intros Hn Hin Hs Hg H.
  destruct (keyed_loop _ _ _ _ _ H) as (rd & -> & _ & Hkeys).
  specialize (Hkeys Hn _ _ Hin). unfold merged_entry in Hkeys.
  rewrite Hs, Hg in Hkeys. destruct Hkeys as (e' & Hu & Hg'). eauto.
Qed.

(** X3. [merge_characters], [merge_scenes], [merge_chapters],
    [merge_plot_threads] and [merge_world_elements] return a dict in
    which every entity the update does not name is the one of the
    existing dict, and no key is duplicated when none is in the existing
    dict. *)
Theorem unnamed_entities_carried_over f (d n : items) (r : pyval) :
  In f keyed_reducers ->
  f (VDict d) (VDict n) = Ok r ->
  exists rd,
    r = VDict rd
    /\ (forall k, dict_mem k n = false -> dict_get k rd = dict_get k d)
    /\ (keys_distinct d = true -> keys_distinct rd = true).
Proof.
  intros Hf H. destruct (keyed_reducer_loop f Hf) as (skip & update & Hloop & _).
  rewrite Hloop in H.
  destruct (keyed_loop _ _ _ _ _ H) as (rd & -> & Hout & _).
  exists rd. split; [reflexivity|]. split; [assumption|].
  now apply (keyed_loop_distinct _ _ _ _ _ H).
Qed.

Lemma unnamed_entities_carried_over_witness :
  exists rd,
    merge_scenes
      (obj [("s1", obj [("content", VStr "a")]); ("s2", obj [("content", VStr "b")])])
      (obj [("s2", obj [("content", VStr "c")])])
    = Ok (VDict rd)
    /\ dict_get (KStr "s1") rd = Some (obj [("content", VStr "a")])
    /\ keys_distinct rd = true.
Proof.
  destruct (merge_scenes
              (obj [("s1", obj [("content", VStr "a")]);
                    ("s2", obj [("content", VStr "b")])])
              (obj [("s2", obj [("content", VStr "c")])])) as [r|e] eqn:H;
    [|vm_compute in H; discriminate H].
  destruct (unnamed_entities_carried_over merge_scenes
              [(KStr "s1", obj [("content", VStr "a")]);
               (KStr "s2", obj [("content", VStr "b")])]
              [(KStr "s2", obj [("content", VStr "c")])] r
              (or_intror (or_introl eq_refl)) H) as (rd & -> & Hout & Hd).
  exists rd. split; [reflexivity|]. split.
  - rewrite (Hout (KStr "s1") eq_refl). reflexivity.
  - apply Hd. reflexivity.
Defined.

(** X4. An entity of the update that is not [None] and whose name the
    existing dict does not hold is stored as the update gives it, by each
    of the five reducers. *)
Theorem new_entity_stored_as_given f (d n : items) (r : pyval) k v :
  In f keyed_reducers ->
  keys_distinct n = true ->
  In (k, v) n ->
  v <> VNone ->
  dict_get k d = None ->
  f (VDict d) (VDict n) = Ok r ->
  exists rd, r = VDict rd /\ dict_get k rd = Some v.
Proof.
  intros Hf Hn Hin Hv Hg H.
  destruct (keyed_reducer_loop f Hf) as (skip & update & Hloop & Hskip).
  rewrite Hloop in H.
  destruct (keyed_loop _ _ _ _ _ H) as (rd & -> & _ & Hkeys).
  specialize (Hkeys Hn _ _ Hin). unfold merged_entry in Hkeys.
  rewrite (Hskip _ Hv), Hg in Hkeys. eauto.
Qed.

Lemma new_entity_stored_as_given_witness :
  exists rd,
    merge_world_elements (obj [])
      (obj [("geography", obj [("places", VList [VStr "a"])])])
    = Ok (VDict rd)
    /\ dict_get (KStr "geography") rd
       = Some (obj [("places", VList [VStr "a"])]).
Proof.
  destruct (merge_world_elements (obj [])
              (obj [("geography", obj [("places", VList [VStr "a"])])]))
    as [r|e] eqn:H; [|vm_compute in H; discriminate H].
  destruct (new_entity_stored_as_given merge_world_elements []
              [(KStr "geography", obj [("places", VList [VStr "a"])])] r
              (KStr "geography") (obj [("places", VList [VStr "a"])])
              (or_intror (or_intror (or_intror (or_intror (or_introl eq_refl)))))
              eq_refl (or_introl eq_refl) ltac:(discriminate) eq_refl H)
    as (rd & -> & Hg).
  exists rd. split; [reflexivity|exact Hg].
Defined.

(** X5. [merge_characters] skips a character the update gives as
    [None]: the merged dict holds under that name what the existing dict
    has, or nothing. *)
Theorem none_character_is_skipped (d n : items) (r : pyval) k :
  keys_distinct n = true ->
  In (k, VNone) n ->
  merge_characters (VDict d) (VDict n) = Ok r ->
  exists rd, r = VDict rd /\ dict_get k rd = dict_get k d.
Proof.
  intros Hn Hin H. rewrite merge_characters_loop in H.
  destruct (keyed_loop _ _ _ _ _ H) as (rd & -> & _ & Hkeys).
  specialize (Hkeys Hn _ _ Hin). unfold merged_entry in Hkeys.
  cbn [is_none] in Hkeys. eauto.
Qed.

Lemma none_character_is_skipped_witness :
  exists rd,
    merge_characters (obj [("alice", obj [("name", VStr "Alice")])])
      (obj [("alice", VNone)])
    = Ok (VDict rd)
    /\ dict_get (KStr "alice") rd = Some (obj [("name", VStr "Alice")]).
Proof.
  destruct (merge_characters (obj [("alice", obj [("name", VStr "Alice")])])
              (obj [("alice", VNone)])) as [r|e] eqn:H;
    [|vm_compute in H; discriminate H].
  destruct (none_character_is_skipped
              [(KStr "alice", obj [("name", VStr "Alice")])]
              [(KStr "alice", VNone)] r (KStr "alice") eq_refl
              (or_introl eq_refl) H) as (rd & -> & Hg).
  exists rd. split; [reflexivity|]. rewrite Hg. reflexivity.
Defined.

(* ------------------------------------------------------------------ *)
(** ** merge_characters *)

Lemma key_str_neq f g : f <> g -> key_eqb (KStr f) (KStr g) = false.
Proof. intros H. cbn. now apply String.eqb_neq. Qed.

Lemma merge_relationships_other cd (rc : items) r k :
  key_eqb k rel = false ->
  merge_relationships cd (VDict rc) = Ok r -> keeps k rc r.
Proof.
  intros Hk H. unfold merge_relationships in H. fold rel in H.
  assert (Hset : forall v r', py_setitem (VDict rc) rel v = Ok r' -> keeps k rc r').
  { intros v r' [= <-]. eexists. split; [reflexivity|]. now rewrite dict_get_set, Hk. }
  assert (Hsame : forall r', Ok (VDict rc) = Ok r' -> keeps k rc r').
  { intros r' [= <-]. exists rc. auto. }
  assert (Htry : forall (c : result bool) (w : result pyval) r',
             try_except
               (c'' <- c ;;
                if c'' then d <- w ;; py_setitem (VDict rc) rel d
                else py_setitem (VDict rc) rel (VDict []))
               (py_setitem (VDict rc) rel (VDict [])) = Ok r' -> keeps k rc r').
  { intros c w r'. destruct c as [[|]|]; cbn [bind try_except];
      [|apply Hset|apply Hset].
    destruct w; cbn [bind try_except]; [|apply Hset].
    destruct (py_setitem (VDict rc) rel a) eqn:Hs; cbn [try_except];
      [|apply Hset].
    intros [= <-]. eapply Hset; eauto. }
  destruct (has_value cd "relationships") as [[|]|]; cbn [bind] in H;
    [|eauto|discriminate].
  destruct (py_getitem cd rel) as [new_rel|]; cbn [bind] in H; [|discriminate].
  destruct (has_value (VDict rc) "relationships") as [[|]|]; cbn [bind] in H;
    [| |discriminate].
  - destruct (py_getitem (VDict rc) rel) as [old_rel|]; cbn [bind] in H;
      [|discriminate].
    destruct old_rel, new_rel; eauto.
  - destruct (is_dict new_rel); [eauto|]. destruct (is_list new_rel); eauto.
Qed.

Section FieldLoop.
Variable step : pyval -> string -> result pyval.
Variable f : string.
Variable R : option pyval -> option pyval -> Prop.
Hypothesis step_other :
  forall g rc r, g <> f -> step (VDict rc) g = Ok r -> keeps (KStr f) rc r.
Hypothesis step_self :
  forall rc r, step (VDict rc) f = Ok r ->
    exists rd, r = VDict rd /\ R (dict_get (KStr f) rc) (dict_get (KStr f) rd).

Lemma for_each_fields_at (fs : list string) :
  NoDup fs -> In f fs ->
  forall rc r, for_each fs step (VDict rc) = Ok r ->
    exists rd, r = VDict rd /\ R (dict_get (KStr f) rc) (dict_get (KStr f) rd).
Proof.
  induction fs as [|g fs IH]; intros Hnd Hin rc r H; [destruct Hin|].
  inversion Hnd as [|? ? Hnotin Hnd']; subst.
  cbn [for_each] in H.
  destruct (step (VDict rc) g) as [r1|] eqn:H1; cbn [bind] in H; [|discriminate].
  destruct (string_dec g f) as [->|Hne].
  - destruct (step_self _ _ H1) as (d1 & -> & HR).
    apply (for_each_fields_other step (KStr f)) in H.
    + destruct H as (rd & -> & Hk). exists rd. split; [reflexivity|]. now rewrite Hk.
    + intros rc' g r' Hg. apply step_other. intros ->. contradiction.
  - destruct (step_other _ _ _ Hne H1) as (d1 & -> & Hk).
    destruct Hin as [->|Hin]; [contradiction|].
    destruct (IH Hnd' Hin _ _ H) as (rd & -> & HR).
    exists rd. split; [reflexivity|]. now rewrite <- Hk.
Qed.
End FieldLoop.

Lemma append_list_field_self (cd rc : items) f r :
  append_list_field (VDict cd) (VDict rc) f = Ok r ->
  exists rd, r = VDict rd /\ list_field rd f = list_field rc f ++ list_field cd f.
Proof.
  unfold append_list_field, has_value, and_then, list_field.
  cbn [py_contains py_getitem bind]. unfold dict_mem.
  destruct (dict_get (KStr f) cd) as [v|]; cbn [bind].
  2:{ intros [= <-]. exists rc. split; [reflexivity|]. now rewrite app_nil_r. }
  destruct (is_none v) eqn:Hv; cbn [negb].
  { intros [= <-]. exists rc. split; [reflexivity|].
    destruct v; try discriminate. now rewrite app_nil_r. }
  cbn [bind]. destruct (truthy v) eqn:Ht.
  2:{ intros [= <-]. exists rc. split; [reflexivity|].
      destruct v as [| | | |[|]|]; try discriminate; now rewrite app_nil_r. }
  destruct (dict_get (KStr f) rc) as [w|] eqn:Hw; cbn [bind].
  2:{ cbn [py_setitem]. intros [= <-]. eexists. split; [reflexivity|].
      now rewrite dict_get_set_same. }
  destruct (is_none w) eqn:Hwn; cbn [negb bind].
  { cbn [py_setitem]. intros [= <-]. eexists. split; [reflexivity|].
    rewrite dict_get_set_same. now destruct w. }
  destruct (py_add w v) as [s|] eqn:Hadd; cbn [bind py_setitem]; [|discriminate].
  intros [= <-]. eexists. split; [reflexivity|]. rewrite dict_get_set_same.
  destruct w, v; cbn in Hadd; try discriminate; injection Hadd as <-;
    try reflexivity.
  all: try (destruct b; destruct b0; reflexivity).
Qed.

Lemma replace_if_truthy_self (cd rc : items) f r :
  replace_if_truthy (VDict cd) (VDict rc) f = Ok r ->
  exists rd, r = VDict rd
    /\ dict_get (KStr f) rd
       = if truthy (field cd (KStr f)) then dict_get (KStr f) cd
         else dict_get (KStr f) rc.
Proof.
  unfold replace_if_truthy, has_truthy, and_then, field.
  cbn [py_contains py_getitem bind]. unfold dict_mem.
  destruct (dict_get (KStr f) cd) as [v|]; cbn [bind].
  - destruct (truthy v); cbn [bind py_setitem]; intros [= <-].
    + eexists. split; [reflexivity|]. apply dict_get_set_same.
    + eauto.
  - intros [= <-]. eauto.
Qed.

Lemma list_fields_nodup : NoDup list_fields.
Proof. repeat constructor; cbn; intuition discriminate. Qed.

Lemma scalar_fields_nodup : NoDup scalar_fields.
Proof. repeat constructor; cbn; intuition discriminate. Qed.

Lemma list_not_scalar f g : In f list_fields -> In g scalar_fields -> f <> g.
Proof.
  cbn. intros Hf Hg ->. intuition (subst; discriminate).
Qed.

Lemma list_not_rel f : In f list_fields -> key_eqb (KStr f) rel = false.
Proof. cbn. intros H. intuition (subst; reflexivity). Qed.

Lemma scalar_not_rel f : In f scalar_fields -> key_eqb (KStr f) rel = false.
Proof. cbn. intros H. intuition (subst; reflexivity). Qed.

Lemma update_character_list_field (ec cd : items) f e' :
  In f list_fields ->
  update_character (VDict ec) (VDict cd) = Ok e' ->
  exists rc, e' = VDict rc /\ list_field rc f = list_field ec f ++ list_field cd f.
Proof.
  intros Hf H. unfold update_character in H. cbn [py_copy bind] in H.
  bind_inv H.
  apply (for_each_fields_at (append_list_field (VDict cd)) f
           (fun o o' => match o' with Some (VList l) => l | _ => [] end
                        = match o with Some (VList l) => l | _ => [] end
                            ++ list_field cd f)) in E;
    [| | |exact list_fields_nodup|exact Hf].
  2:{ intros g rc r Hne. apply append_list_field_other. now apply key_str_neq. }
  2:{ intros rc r Hr. destruct (append_list_field_self _ _ _ _ Hr) as (rd & -> & Hl).
      exists rd. split; [reflexivity|exact Hl]. }
  destruct E as (d1 & -> & H1).
  bind_inv H. apply (merge_relationships_other _ _ _ (KStr f)) in E;
    [|now apply list_not_rel].
  destruct E as (d2 & -> & H2).
  apply (for_each_fields_other _ (KStr f)) in H.
  2:{ intros rc g r Hg. apply replace_if_truthy_other. apply key_str_neq.
      now apply list_not_scalar. }
  destruct H as (d3 & -> & H3). exists d3. split; [reflexivity|].
  unfold list_field at 1 2. now rewrite H3, H2.
Qed.

Lemma update_character_scalar_field (ec cd : items) f e' :
  In f scalar_fields ->
  update_character (VDict ec) (VDict cd) = Ok e' ->
  exists rc, e' = VDict rc
    /\ dict_get (KStr f) rc
       = if truthy (field cd (KStr f)) then dict_get (KStr f) cd
         else dict_get (KStr f) ec.
Proof.
  intros Hf H. unfold update_character in H. cbn [py_copy bind] in H.
  bind_inv H. apply (for_each_fields_other _ (KStr f)) in E.
  2:{ intros rc g r Hg. apply append_list_field_other. apply key_str_neq.
      intros ->. now apply (list_not_scalar g g). }
  destruct E as (d1 & -> & H1).
  bind_inv H. apply (merge_relationships_other _ _ _ (KStr f)) in E;
    [|now apply scalar_not_rel].
  destruct E as (d2 & -> & H2).
  apply (for_each_fields_at (replace_if_truthy (VDict cd)) f
           (fun o o' => o' = if truthy (field cd (KStr f))
                             then dict_get (KStr f) cd else o)) in H;
    [| | |exact scalar_fields_nodup|exact Hf].
  2:{ intros g rc r Hne. apply replace_if_truthy_other. now apply key_str_neq. }
  2:{ intros rc r Hr. destruct (replace_if_truthy_self _ _ _ _ Hr) as (rd & -> & Hl).
      exists rd. split; [reflexivity|exact Hl]. }
  destruct H as (d3 & -> & H3). exists d3. split; [reflexivity|].
  now rewrite H3, H2, H1.
Qed.

(** X6. For a character both dicts hold, each of the list fields
    (evolution, known_facts, secret_facts, revealed_facts) of the merged
    character is the existing list followed by the update's list, a
    missing field counting as empty: a merge never shortens them. *)
Theorem character_list_fields_append
        (d n : items) (char_id : pykey) (ec cd : items) (f : string) (r : pyval) :
  In f list_fields ->
  keys_distinct n = true ->
  dict_get char_id d = Some (VDict ec) ->
  In (char_id, VDict cd) n ->
  merge_characters (VDict d) (VDict n) = Ok r ->
  exists rd rc,
    r = VDict rd
    /\ dict_get char_id rd = Some (VDict rc)
    /\ list_field rc f = list_field ec f ++ list_field cd f
    /\ List.length (list_field ec f) <= List.length (list_field rc f).
Proof.
  intros Hf Hn He Hin H. rewrite merge_characters_loop in H.
  destruct (keyed_loop_entity _ _ _ _ _ _ _ _ Hn Hin eq_refl He H)
    as (rd & e' & -> & Hu & Hg).
  destruct (update_character_list_field _ _ _ _ Hf Hu) as (rc & -> & Hl).
  exists rd, rc. repeat split; try assumption.
  rewrite Hl, length_app. lia.
Qed.

Lemma character_list_fields_append_witness :
  exists rd rc,
    merge_characters (obj [("alice", obj [("known_facts", VList [VStr "a"])])])
      (obj [("alice", obj [("known_facts", VList [VStr "b"])])])
    = Ok (VDict rd)
    /\ dict_get (KStr "alice") rd = Some (VDict rc)
    /\ list_field rc "known_facts" = [VStr "a"; VStr "b"].
Proof.
  destruct (merge_characters
              (obj [("alice", obj [("known_facts", VList [VStr "a"])])])
              (obj [("alice", obj [("known_facts", VList [VStr "b"])])]))
    as [r|e] eqn:H; [|vm_compute in H; discriminate H].
  destruct (character_list_fields_append
              [(KStr "alice", obj [("known_facts", VList [VStr "a"])])]
              [(KStr "alice", obj [("known_facts", VList [VStr "b"])])]
              (KStr "alice")
              [(KStr "known_facts", VList [VStr "a"])]
              [(KStr "known_facts", VList [VStr "b"])] "known_facts" r
              (or_intror (or_introl eq_refl)) eq_refl eq_refl
              (or_introl eq_refl) H) as (rd & rc & -> & Hg & Hl & _).
  exists rd, rc. split; [reflexivity|]. split; [exact Hg|exact Hl].
Defined.

(** X7. For a character both dicts hold, each of name, role and
    backstory of the merged character is the update's value when the
    update holds a true value there, and the existing one otherwise: an
    empty string or [None] in the update erases nothing. *)
Theorem character_scalar_fields_replace_if_nonempty
        (d n : items) (char_id : pykey) (ec cd : items) (f : string) (r : pyval) :
  In f scalar_fields ->
  keys_distinct n = true ->
  dict_get char_id d = Some (VDict ec) ->
  In (char_id, VDict cd) n ->
  merge_characters (VDict d) (VDict n) = Ok r ->
  exists rd rc,
    r = VDict rd
    /\ dict_get char_id rd = Some (VDict rc)
    /\ dict_get (KStr f) rc
       = if truthy (field cd (KStr f)) then dict_get (KStr f) cd
         else dict_get (KStr f) ec.
Proof.
  intros Hf Hn He Hin H. rewrite merge_characters_loop in H.
  destruct (keyed_loop_entity _ _ _ _ _ _ _ _ Hn Hin eq_refl He H)
    as (rd & e' & -> & Hu & Hg).
  destruct (update_character_scalar_field _ _ _ _ Hf Hu) as (rc & -> & Hl).
  exists rd, rc. auto.
Qed.

Lemma character_scalar_fields_replace_if_nonempty_witness :
  exists rd rc,
    merge_characters (obj [("alice", obj [("role", VStr "hero")])])
      (obj [("alice", obj [("role", VStr EmptyString)])])
    = Ok (VDict rd)
    /\ dict_get (KStr "alice") rd = Some (VDict rc)
    /\ dict_get (KStr "role") rc = Some (VStr "hero").
Proof.
  destruct (merge_characters (obj [("alice", obj [("role", VStr "hero")])])
              (obj [("alice", obj [("role", VStr EmptyString)])]))
    as [r|e] eqn:H; [|vm_compute in H; discriminate H].
  destruct (character_scalar_fields_replace_if_nonempty
              [(KStr "alice", obj [("role", VStr "hero")])]
              [(KStr "alice", obj [("role", VStr EmptyString)])]
              (KStr "alice")
              [(KStr "role", VStr "hero")] [(KStr "role", VStr EmptyString)]
              "role" r (or_intror (or_introl eq_refl)) eq_refl eq_refl
              (or_introl eq_refl) H) as (rd & rc & -> & Hg & Hl).
  exists rd, rc. split; [reflexivity|]. split; [exact Hg|exact Hl].
Defined.

(* ------------------------------------------------------------------ *)
(** ** merge_scenes, merge_chapters *)

Lemma merge_scene_notes_other sd (rs : items) r k :
  key_eqb k rn = false ->
  merge_scene_notes sd (VDict rs) = Ok r -> keeps k rs r.
Proof.
  intros Hk H. unfold merge_scene_notes in H. fold rn in H. run_in H;
    eexists; (split; [reflexivity|]); rewrite ?dict_get_set, ?Hk; reflexivity.
Qed.

Lemma update_scene_value_field (es sd : items) f e' :
  In f scene_value_fields ->
  update_scene (VDict es) (VDict sd) = Ok e' ->
  exists rs, e' = VDict rs
    /\ dict_get (KStr f) rs
       = if truthy (field sd (KStr f)) then dict_get (KStr f) sd
         else dict_get (KStr f) es.
Proof.
  intros Hf H. unfold update_scene in H. cbn [py_copy bind] in H.
  bind_inv H. bind_inv H.
  destruct Hf as [<-|[<-|[]]].
  - destruct (replace_if_truthy_self _ _ _ _ E) as (d1 & -> & H1).
    apply (replace_if_truthy_other _ _ _ _ (KStr "content")) in E0;
      [|reflexivity].
    destruct E0 as (d2 & -> & H2).
    apply (merge_scene_notes_other _ _ _ (KStr "content")) in H; [|reflexivity].
    destruct H as (d3 & -> & H3).
    exists d3. split; [reflexivity|]. now rewrite H3, H2.
  - apply (replace_if_truthy_other _ _ _ _ (KStr "structured_reflection")) in E;
      [|reflexivity].
    destruct E as (d1 & -> & H1).
    destruct (replace_if_truthy_self _ _ _ _ E0) as (d2 & -> & H2).
    apply (merge_scene_notes_other _ _ _ (KStr "structured_reflection")) in H;
      [|reflexivity].
    destruct H as (d3 & -> & H3).
    exists d3. split; [reflexivity|]. now rewrite H3, H2, H1.
Qed.

(** X8. For a scene both dicts hold, content and
    structured_reflection of the merged scene are the update's when the
    update holds a true value there, and the existing ones otherwise. *)
Theorem scene_content_replaced_if_nonempty
        (d n : items) (scene_id : pykey) (es sd : items) (f : string) (r : pyval) :
  In f scene_value_fields ->
  keys_distinct n = true ->
  dict_get scene_id d = Some (VDict es) ->
  In (scene_id, VDict sd) n ->
  merge_scenes (VDict d) (VDict n) = Ok r ->
  exists rd rs,
    r = VDict rd
    /\ dict_get scene_id rd = Some (VDict rs)
    /\ dict_get (KStr f) rs
       = if truthy (field sd (KStr f)) then dict_get (KStr f) sd
         else dict_get (KStr f) es.
Proof.
  intros Hf Hn He Hin H. rewrite merge_scenes_loop in H.
  destruct (keyed_loop_entity _ _ _ _ _ _ _ _ Hn Hin eq_refl He H)
    as (rd & e' & -> & Hu & Hg).
  destruct (update_scene_value_field _ _ _ _ Hf Hu) as (rs & -> & Hl).
  exists rd, rs. auto.
Qed.

Lemma scene_content_replaced_if_nonempty_witness :
  exists rd rs,
    merge_scenes (obj [("s1", obj [("content", VStr "old")])])
      (obj [("s1", obj [("content", VStr "new")])])
    = Ok (VDict rd)
    /\ dict_get (KStr "s1") rd = Some (VDict rs)
    /\ dict_get (KStr "content") rs = Some (VStr "new").
Proof.
  destruct (merge_scenes (obj [("s1", obj [("content", VStr "old")])])
              (obj [("s1", obj [("content", VStr "new")])]))
    as [r|e] eqn:H; [|vm_compute in H; discriminate H].
  destruct (scene_content_replaced_if_nonempty
              [(KStr "s1", obj [("content", VStr "old")])]
              [(KStr "s1", obj [("content", VStr "new")])]
              (KStr "s1")
              [(KStr "content", VStr "old")] [(KStr "content", VStr "new")]
              "content" r (or_introl eq_refl) eq_refl eq_refl
              (or_introl eq_refl) H) as (rd & rs & -> & Hg & Hl).
  exists rd, rs. split; [reflexivity|]. split; [exact Hg|exact Hl].
Defined.

Lemma update_chapter_blocks (existing_chapter chapter_data : pyval) :
  update_chapter existing_chapter chapter_data
  = (result_chapter <- py_copy existing_chapter ;;
     result_chapter <- merge_chapter_scenes chapter_data result_chapter ;;
     result_chapter <- merge_chapter_notes chapter_data result_chapter ;;
     for_each ["title"; "outline"] (replace_if_truthy chapter_data) result_chapter).
Proof.
  unfold update_chapter, merge_chapter_scenes, merge_chapter_notes.
  destruct (py_copy existing_chapter) as [rc|]; cbn [bind]; [|reflexivity].
  destruct (py_contains (KStr "scenes") chapter_data) as [c|]; cbn [bind];
    [|reflexivity].
  match goal with
  | |- bind ?x _ = bind ?y _ => destruct x as [rc1|]; cbn [bind]; [|reflexivity]
  end.
  destruct (has_truthy chapter_data "reflection_notes") as [c2|]; cbn [bind];
    reflexivity.
Qed.

Lemma merge_chapter_scenes_run (cd rc : items) r :
  merge_chapter_scenes (VDict cd) (VDict rc) = Ok r ->
  exists rd, r = VDict rd
    /\ (forall k, key_eqb k scenes_key = false -> dict_get k rd = dict_get k rc)
    /\ match dict_get scenes_key cd with
       | Some new_scenes =>
           exists merged,
             merge_scenes match dict_get scenes_key rc with
                          | Some s => s
                          | None => VDict []
                          end new_scenes = Ok merged
             /\ dict_get scenes_key rd = Some merged
       | None => dict_get scenes_key rd = dict_get scenes_key rc
       end.
Proof.
  unfold merge_chapter_scenes. cbn [py_contains bind]. unfold dict_mem.
  fold scenes_key. rewrite py_get_dict. cbn [bind py_getitem]. fold scenes_key.
  destruct (dict_get scenes_key cd) as [ns|]; cbn [bind].
  - destruct (merge_scenes _ ns) as [merged|] eqn:Hm; cbn [bind py_setitem];
      [|discriminate].
    intros [= <-]. eexists. split; [reflexivity|]. split.
    + intros k Hk. now rewrite dict_get_set, Hk.
    + exists merged. split; [reflexivity|apply dict_get_set_same].
  - intros [= <-]. exists rc. auto.
Qed.

Lemma merge_chapter_notes_run (cd rc : items) r :
  merge_chapter_notes (VDict cd) (VDict rc) = Ok r ->
  exists rd, r = VDict rd
    /\ (forall k, key_eqb k rn = false -> dict_get k rd = dict_get k rc)
    /\ (forall notes old,
           dict_get rn cd = Some (VList notes) ->
           dict_get rn rc = Some (VList old) ->
           dict_get rn rd = Some (VList (old ++ notes))).
Proof.
  unfold merge_chapter_notes, has_truthy, and_then.
  cbn [py_contains py_getitem bind]. unfold dict_mem. fold rn.
  destruct (dict_get rn cd) as [notes|] eqn:Hn; cbn [bind].
  2:{ intros [= <-]. exists rc. repeat split; auto. intros ? ? [=]. }
  destruct (truthy notes) eqn:Ht; cbn [bind].
  2:{ intros [= <-]. exists rc. repeat split; auto. intros l old [= ->] Ho.
      destruct l; [|discriminate]. now rewrite app_nil_r. }
  destruct (dict_get rn rc) as [old|] eqn:Ho; cbn [bind].
  - destruct (py_add old notes) as [s|] eqn:Hadd; cbn [bind py_setitem];
      [|discriminate].
    intros [= <-]. eexists. split; [reflexivity|]. split.
    + intros k Hk. now rewrite dict_get_set, Hk.
    + intros l o [= ->] [= ->]. cbn in Hadd. injection Hadd as <-.
      apply dict_get_set_same.
  - cbn [py_setitem]. intros [= <-]. eexists. split; [reflexivity|]. split.
    + intros k Hk. now rewrite dict_get_set, Hk.
    + intros l o _ [=].
Qed.

Lemma update_chapter_run (ec cd : items) e' :
  update_chapter (VDict ec) (VDict cd) = Ok e' ->
  exists rc, e' = VDict rc
    /\ match dict_get scenes_key cd with
       | Some new_scenes =>
           exists merged,
             merge_scenes match dict_get scenes_key ec with
                          | Some s => s
                          | None => VDict []
                          end new_scenes = Ok merged
             /\ dict_get scenes_key rc = Some merged
       | None => dict_get scenes_key rc = dict_get scenes_key ec
       end
    /\ (forall notes old,
           dict_get rn cd = Some (VList notes) ->
           dict_get rn ec = Some (VList old) ->
           dict_get rn rc = Some (VList (old ++ notes))).
Proof.
  rewrite update_chapter_blocks. cbn [py_copy bind]. intros H.
  bind_inv H. destruct (merge_chapter_scenes_run _ _ _ E) as (d1 & -> & K1 & S1).
  bind_inv H. destruct (merge_chapter_notes_run _ _ _ E0) as (d2 & -> & K2 & N2).
  assert (H3 : forall k, key_eqb k (KStr "title") = false ->
                         key_eqb k (KStr "outline") = false ->
                         keeps k d2 e').
  { intros k Ht Ho. apply (for_each_fields_other _ k) in H; [exact H|].
    intros rc g r [<-|[<-|[]]]; now apply replace_if_truthy_other. }
  destruct (H3 scenes_key eq_refl eq_refl) as (d3 & -> & Hs3).
  destruct (H3 rn eq_refl eq_refl) as (d3' & [= <-] & Hn3).
  exists d3. split; [reflexivity|]. split.
  - rewrite Hs3, (K2 scenes_key eq_refl). exact S1.
  - intros notes old Hn Ho. rewrite Hn3. apply N2; [assumption|].
    now rewrite (K1 rn eq_refl).
Qed.

(** X9. For a chapter both dicts hold and an update that has scenes,
    the scenes of the merged chapter are what [merge_scenes] returns for
    the existing scenes (the empty dict when the chapter has none) and
    the update's. *)
Theorem chapter_scenes_merged_by_merge_scenes
        (d n : items) (chapter_id : pykey) (ec cd : items) (new_scenes r : pyval) :
  keys_distinct n = true ->
  dict_get chapter_id d = Some (VDict ec) ->
  In (chapter_id, VDict cd) n ->
  dict_get scenes_key cd = Some new_scenes ->
  merge_chapters (VDict d) (VDict n) = Ok r ->
  exists rd rc merged,
    r = VDict rd
    /\ dict_get chapter_id rd = Some (VDict rc)
    /\ merge_scenes match dict_get scenes_key ec with
                    | Some s => s
                    | None => VDict []
                    end new_scenes = Ok merged
    /\ dict_get scenes_key rc = Some merged.
Proof.
  intros Hn He Hin Hs H. rewrite merge_chapters_loop in H.
  destruct (keyed_loop_entity _ _ _ _ _ _ _ _ Hn Hin eq_refl He H)
    as (rd & e' & -> & Hu & Hg).
  destruct (update_chapter_run _ _ _ Hu) as (rc & -> & Hsc & _).
  rewrite Hs in Hsc. destruct Hsc as (merged & Hm & Hg').
  exists rd, rc, merged. auto.
Qed.

Lemma chapter_scenes_merged_by_merge_scenes_witness :
  exists rd rc,
    merge_chapters
      (obj [("1", obj [("scenes", obj [("1", obj [("content", VStr "a")])])])])
      (obj [("1", obj [("scenes", obj [("2", obj [("content", VStr "b")])])])])
    = Ok (VDict rd)
    /\ dict_get (KStr "1") rd = Some (VDict rc)
    /\ dict_get scenes_key rc
       = Some (obj [("1", obj [("content", VStr "a")]);
                    ("2", obj [("content", VStr "b")])]).
Proof.
  destruct (merge_chapters
              (obj [("1", obj [("scenes", obj [("1", obj [("content", VStr "a")])])])])
              (obj [("1", obj [("scenes", obj [("2", obj [("content", VStr "b")])])])]))
    as [r|e] eqn:H; [|vm_compute in H; discriminate H].
  destruct (chapter_scenes_merged_by_merge_scenes
              [(KStr "1", obj [("scenes", obj [("1", obj [("content", VStr "a")])])])]
              [(KStr "1", obj [("scenes", obj [("2", obj [("content", VStr "b")])])])]
              (KStr "1")
              [(KStr "scenes", obj [("1", obj [("content", VStr "a")])])]
              [(KStr "scenes", obj [("2", obj [("content", VStr "b")])])]
              (obj [("2", obj [("content", VStr "b")])]) r
              eq_refl eq_refl (or_introl eq_refl) eq_refl H)
    as (rd & rc & merged & -> & Hg & Hm & Hs).
  exists rd, rc. split; [reflexivity|]. split; [exact Hg|].
  rewrite Hs. vm_compute in Hm. injection Hm as <-. reflexivity.
Defined.

(** X10. For a chapter both dicts hold, reflection notes of the update
    are added after the existing ones; unlike in a scene, the one-entry
    list "Scene has been revised" replaces nothing. *)
Theorem chapter_notes_always_append
        (d n : items) (chapter_id : pykey) (ec cd : items)
        (notes old : list pyval) (r : pyval) :
  keys_distinct n = true ->
  dict_get chapter_id d = Some (VDict ec) ->
  In (chapter_id, VDict cd) n ->
  dict_get rn cd = Some (VList notes) ->
  dict_get rn ec = Some (VList old) ->
  merge_chapters (VDict d) (VDict n) = Ok r ->
  exists rd rc,
    r = VDict rd
    /\ dict_get chapter_id rd = Some (VDict rc)
    /\ dict_get rn rc = Some (VList (old ++ notes)).
Proof.
  intros Hn He Hin Hnotes Hold H. rewrite merge_chapters_loop in H.
  destruct (keyed_loop_entity _ _ _ _ _ _ _ _ Hn Hin eq_refl He H)
    as (rd & e' & -> & Hu & Hg).
  destruct (update_chapter_run _ _ _ Hu) as (rc & -> & _ & Hno).
  exists rd, rc. auto.
Qed.

Lemma chapter_notes_always_append_witness :
  exists rd rc,
    merge_chapters
      (obj [("1", obj [("reflection_notes", VList [VStr "a"])])])
      (obj [("1", obj [("reflection_notes", VList [VStr "Scene has been revised"])])])
    = Ok (VDict rd)
    /\ dict_get (KStr "1") rd = Some (VDict rc)
    /\ dict_get rn rc = Some (VList [VStr "a"; VStr "Scene has been revised"]).
Proof.
  destruct (merge_chapters
              (obj [("1", obj [("reflection_notes", VList [VStr "a"])])])
              (obj [("1", obj [("reflection_notes",
                                VList [VStr "Scene has been revised"])])]))
    as [r|e] eqn:H; [|vm_compute in H; discriminate H].
  destruct (chapter_notes_always_append
              [(KStr "1", obj [("reflection_notes", VList [VStr "a"])])]
              [(KStr "1", obj [("reflection_notes",
                                VList [VStr "Scene has been revised"])])]
              (KStr "1")
              [(KStr "reflection_notes", VList [VStr "a"])]
              [(KStr "reflection_notes", VList [VStr "Scene has been revised"])]
              [VStr "Scene has been revised"] [VStr "a"] r
              eq_refl eq_refl (or_introl eq_refl) eq_refl eq_refl H)
    as (rd & rc & -> & Hg & Hn).
  exists rd, rc. split; [reflexivity|]. split; [exact Hg|exact Hn].
Defined.

(* ------------------------------------------------------------------ *)
(** ** merge_revelations *)

Lemma merge_plain_key_entry (ed : items) kv :
  merge_plain_key (VDict ed) kv = merge_entry never append_or_replace (VDict ed) kv.
Proof.
  destruct kv as [k v]. unfold merge_plain_key, merge_entry, never, append_or_replace.
  cbn [py_contains py_getitem bind]. unfold dict_mem.
  destruct (dict_get k ed) as [old|]; cbn [bind]; [|reflexivity].
  unfold and_then. cbn [bind].
  destruct v, old; cbn; reflexivity.
Qed.

Lemma for_each_dict_ext (f g : pyval -> pykey * pyval -> result pyval)
      (n : items) (d : items) :
  (forall d x, f (VDict d) x = g (VDict d) x) ->
  (forall d x r, g (VDict d) x = Ok r -> exists rd, r = VDict rd) ->
  for_each n f (VDict d) = for_each n g (VDict d).
Proof.
  intros Hfg Hg. revert d. induction n as [|x n IH]; intros d; [reflexivity|].
  cbn [for_each]. rewrite Hfg. destruct (g (VDict d) x) as [r|] eqn:Hr;
    cbn [bind]; [|reflexivity].
  destruct (Hg _ _ _ Hr) as (rd & ->). apply IH.
Qed.

Lemma merge_entry_stays_dict skip update (d : items) x r :
  merge_entry skip update (VDict d) x = Ok r -> exists rd, r = VDict rd.
Proof.
  destruct x as [k v]. intros H.
  destruct (merge_entry_dict _ _ _ _ _ _ H) as (rd & -> & _). eauto.
Qed.

(** X11. An update without continuity_issues is merged key by key
    and never raises: under a key of the update the merged dict holds the
    existing list followed by the update's when both are lists and the
    update's value otherwise; the other keys keep what they had. *)
Theorem revelations_plain_update_appends (d n : items) :
  dict_get continuity n = None ->
  keys_distinct n = true ->
  exists rd,
    merge_revelations (VDict d) (VDict n) = Ok (VDict rd)
    /\ (forall k v, In (k, v) n ->
          dict_get k rd = Some (plain_value (dict_get k d) v))
    /\ (forall k, dict_mem k n = false -> dict_get k rd = dict_get k d).
Proof.
  intros Hc Hn. unfold merge_revelations.
  cbn [py_copy py_contains or_else bind]. unfold or_else, dict_mem.
  rewrite Hc. cbn [bind negb].
  replace (if negb (truthy (VDict n)) then Ok true else Ok true)
    with (@Ok bool true) by (now destruct (negb _)).
  cbn [bind py_items].
  rewrite (for_each_dict_ext merge_plain_key
             (merge_entry never append_or_replace) n d merge_plain_key_entry
             (merge_entry_stays_dict never append_or_replace)).
  destruct (for_each n (merge_entry never append_or_replace) (VDict d))
    as [r|e] eqn:H.
  - destruct (keyed_loop _ _ _ _ _ H) as (rd & -> & Hout & Hkeys).
    exists rd. split; [reflexivity|]. split; [|assumption].
    intros k v Hin. specialize (Hkeys Hn _ _ Hin).
    unfold merged_entry, never, append_or_replace in Hkeys.
    destruct (dict_get k d) as [old|].
    + destruct Hkeys as (e' & [= <-] & Hg). exact Hg.
    + exact Hkeys.
  - exfalso. clear Hc Hn. revert d H.
    induction n as [|[k v] n IH]; intros d H; cbn [for_each] in H; [discriminate|].
    unfold merge_entry at 1, never, append_or_replace in H.
    cbn [py_contains py_getitem bind] in H. unfold dict_mem in H.
    destruct (dict_get k d); cbn [bind py_setitem] in H; eapply IH; exact H.
Qed.

Lemma revelations_plain_update_appends_witness :
  exists rd,
    merge_revelations (obj [("reader", VList [VStr "a"]); ("characters", VList [])])
      (obj [("reader", VList [VStr "b"])])
    = Ok (VDict rd)
    /\ dict_get (KStr "reader") rd = Some (VList [VStr "a"; VStr "b"])
    /\ dict_get (KStr "characters") rd = Some (VList []).
Proof.
  destruct (revelations_plain_update_appends
              [(KStr "reader", VList [VStr "a"]); (KStr "characters", VList [])]
              [(KStr "reader", VList [VStr "b"])] eq_refl eq_refl)
    as (rd & H & Hin & Hout).
  exists rd. split; [exact H|]. split.
  - rewrite (Hin (KStr "reader") (VList [VStr "b"]) (or_introl eq_refl)).
    reflexivity.
  - rewrite (Hout (KStr "characters") eq_refl). reflexivity.
Defined.

Lemma issue_step_from (step : items -> pyval -> result items) :
  (step = seed_issue \/ step = fold_issue) ->
  forall best issue best',
    step best issue = Ok best' ->
    best' = best
    \/ exists key, best' = dict_set key issue best
                   /\ truthy (after_chapter issue) = true.
Proof.
  intros Hstep best issue best' H.
  assert (Hcase : exists ch,
             py_get issue "after_chapter" VNone = Ok ch
             /\ (truthy ch = false /\ best' = best
                 \/ truthy ch = true
                    /\ exists key, to_key ch = Ok key
                       /\ (best' = best \/ best' = dict_set key issue best))).
  { destruct Hstep as [-> | ->]; [unfold seed_issue in H|unfold fold_issue in H].
    all: destruct (py_get issue "after_chapter" VNone) as [ch|];
      cbn [bind] in H; [|discriminate].
    all: exists ch; split; [reflexivity|].
    all: destruct (truthy ch); cbn [negb] in H; [right|left; split; congruence].
    all: split; [reflexivity|].
    all: destruct (to_key ch) as [key|]; cbn [bind] in H; [|discriminate].
    all: exists key; split; [reflexivity|].
    all: destruct (dict_get key best); [|right; congruence].
    all: match type of H with
         | bind ?c _ = _ => destruct c as [[|]|]; cbn [bind] in H
         end.
    all: first [discriminate | left; congruence | right; congruence]. }
  destruct Hcase as (ch & Hch & [[_ ->]|(Ht & key & _ & [->| ->])]); auto.
  right. exists key. split; [reflexivity|].
  unfold after_chapter. now rewrite Hch.
Qed.

Lemma issues_loop_from (step : items -> pyval -> result items) pool :
  (step = seed_issue \/ step = fold_issue) ->
  forall l best best',
    (forall i, In i l -> In i pool) ->
    from_operands pool best ->
    for_each l step best = Ok best' -> from_operands pool best'.
Proof.
  intros Hstep. induction l as [|i l IH]; intros best best' Hl Hb H;
    cbn [for_each] in H.
  - now injection H as <-.
  - destruct (step best i) as [b1|] eqn:H1; cbn [bind] in H; [|discriminate].
    apply (IH b1); [intros j Hj; apply Hl; now right| |exact H].
    destruct (issue_step_from step Hstep _ _ _ H1) as [->|(key & -> & Ht)];
      [assumption|].
    apply Forall_dict_set; [assumption|].
    intros k0 _. split; [exact Ht|]. apply Hl. now left.
Qed.

(** X12. When the update has continuity_issues, the merged list holds
    only issues of the two operands, and none without a true
    after_chapter: the merge invents no issue and drops those that name
    no chapter. *)
Theorem continuity_issues_come_from_operands (ed nd : items) (new_issues r : pyval) :
  dict_get continuity nd = Some new_issues ->
  merge_revelations (VDict ed) (VDict nd) = Ok r ->
  exists rd issues,
    r = VDict rd
    /\ dict_get continuity rd = Some (VList issues)
    /\ forall i, In i issues ->
         truthy (after_chapter i) = true
         /\ (In i (iterated (field ed continuity)) \/ In i (iterated new_issues)).
Proof.
  intros Hn H. unfold merge_revelations in H.
  cbn [py_copy py_contains bind] in H. unfold or_else, dict_mem in H.
  rewrite Hn in H.
  assert (Hne : truthy (VDict nd) = true)
    by (destruct nd; [discriminate|reflexivity]).
  rewrite Hne in H. cbn [negb bind py_items] in H.
  rewrite !py_get_dict in H. fold continuity in H. rewrite Hn in H.
  set (old_issues := match dict_get continuity ed with
                     | Some v => v
                     | None => VList []
                     end) in *.
  cbn [bind] in H.
  destruct (py_iter old_issues) as [olds|] eqn:Hol; cbn [bind] in H; [|discriminate].
  destruct (for_each olds seed_issue []) as [b1|] eqn:Hb1; cbn [bind] in H;
    [|discriminate].
  destruct (py_iter new_issues) as [news|] eqn:Hnl; cbn [bind] in H; [|discriminate].
  destruct (for_each news fold_issue b1) as [b2|] eqn:Hb2; cbn [bind py_setitem] in H;
    [|discriminate].
  destruct (replace_other_loop nd (dict_set continuity (VList (dict_values b2)) ed))
    as (rd & Hrd & Hg).
  rewrite Hrd in H. injection H as <-.
  exists rd, (dict_values b2). split; [reflexivity|]. split.
  { now rewrite Hg, dict_get_set_same. }
  assert (Hiter_old : iterated (field ed continuity) = olds \/ olds = []).
  { unfold iterated, field. unfold old_issues in Hol.
    destruct (dict_get continuity ed) as [v|].
    - left. now rewrite Hol.
    - right. cbn in Hol. now injection Hol. }
  assert (Hiter_new : iterated new_issues = news).
  { unfold iterated. now rewrite Hnl. }
  set (pool := iterated (field ed continuity) ++ iterated new_issues).
  assert (F1 : from_operands pool b1).
  { apply (issues_loop_from seed_issue pool (or_introl eq_refl) olds [] b1);
      [|constructor|exact Hb1].
    intros i Hi. unfold pool. apply in_or_app. left.
    destruct Hiter_old as [->| ->]; [assumption|destruct Hi]. }
  assert (F2 : from_operands pool b2).
  { apply (issues_loop_from fold_issue pool (or_intror eq_refl) news b1 b2);
      [|exact F1|exact Hb2].
    intros i Hi. unfold pool. apply in_or_app. right. now rewrite Hiter_new. }
  intros i Hi. unfold dict_values in Hi. apply in_map_iff in Hi as (kv & <- & Hkv).
  unfold from_operands in F2. rewrite Forall_forall in F2.
  destruct (F2 _ Hkv) as [Ht Hp]. split; [assumption|].
  unfold pool in Hp. now apply in_app_or in Hp.
Qed.

Lemma continuity_issues_come_from_operands_witness :
  exists rd issues,
    merge_revelations
      (obj [("continuity_issues", VList [issue "1" "open"])])
      (obj [("continuity_issues",
             VList [issue "2" "open"; obj [("description", VStr "x")]])])
    = Ok (VDict rd)
    /\ dict_get continuity rd = Some (VList issues)
    /\ forall i, In i issues -> truthy (after_chapter i) = true.
Proof.
  destruct (merge_revelations
              (obj [("continuity_issues", VList [issue "1" "open"])])
              (obj [("continuity_issues",
                     VList [issue "2" "open"; obj [("description", VStr "x")]])]))
    as [r|e] eqn:H; [|vm_compute in H; discriminate H].
  destruct (continuity_issues_come_from_operands
              [(KStr "continuity_issues", VList [issue "1" "open"])]
              [(KStr "continuity_issues",
                VList [issue "2" "open"; obj [("description", VStr "x")]])]
              (VList [issue "2" "open"; obj [("description", VStr "x")]]) r
              eq_refl H) as (rd & issues & -> & Hg & Hi).
  exists rd, issues. split; [reflexivity|]. split; [exact Hg|].
  intros i Hin. exact (proj1 (Hi i Hin)).
Defined.

(** X13. An update whose continuity_issues is the empty list, and which
    has nothing else, returns the existing dict as it is when its issues
    are filed one per chapter. *)
Theorem empty_issue_update_keeps_filed_issues (ed : items) (ol : list pyval) :
  dict_get continuity ed = Some (VList ol) ->
  well_keyed ol = true ->
  merge_revelations (VDict ed) (VDict [(continuity, VList [])]) = Ok (VDict ed).
Proof.
  intros He Hwk. unfold merge_revelations.
  cbn [py_copy py_contains bind]. unfold or_else.
  change (truthy (VDict [(continuity, VList [])])) with true.
  change (dict_mem continuity [(continuity, VList [])]) with true.
  cbn [negb bind]. rewrite !py_get_dict. fold continuity. rewrite He.
  change (dict_get continuity [(continuity, VList [])]) with (Some (VList [])).
  cbn [bind py_iter].
  unfold well_keyed in Hwk. apply andb_true_iff in Hwk as [Hall Hd].
  rewrite (seed_keyed ol [] Hall Hd). cbn [bind app for_each].
  rewrite (keyed_values ol Hall). cbn [py_setitem bind py_items for_each].
  rewrite (dict_set_idem _ _ _ He). reflexivity.
Qed.

Lemma empty_issue_update_keeps_filed_issues_witness :
  merge_revelations
    (VDict [(KStr "reader", VList [VStr "a"]);
            (continuity, VList [issue "1" "open"; issue "2" "completed"])])
    (VDict [(continuity, VList [])])
  = Ok (VDict [(KStr "reader", VList [VStr "a"]);
               (continuity, VList [issue "1" "open"; issue "2" "completed"])]).
Proof.
  exact (empty_issue_update_keeps_filed_issues
           [(KStr "reader", VList [VStr "a"]);
            (continuity, VList [issue "1" "open"; issue "2" "completed"])]
           [issue "1" "open"; issue "2" "completed"] eq_refl eq_refl).
Defined.

(* ------------------------------------------------------------------ *)
(** ** merge_plot_threads *)

Lemma merge_history_other (ed : items) td r k :
  key_eqb k dh = false ->
  merge_history (VDict ed) td = Ok r -> keeps k ed r.
Proof.
  intros Hk H. unfold merge_history in H. fold dh in H. run_in H;
    eexists; (split; [reflexivity|]); rewrite ?dict_get_set, ?Hk; reflexivity.
Qed.

Lemma update_status_value (ed tdd : items) r :
  update_status (VDict ed) (VDict tdd) = Ok r ->
  exists rd, r = VDict rd
    /\ (forall k, key_eqb k status = false -> dict_get k rd = dict_get k ed)
    /\ dict_get status rd
       = if py_eq (field tdd status) (field ed status)
         then dict_get status ed else dict_get status tdd.
Proof.
  unfold update_status. rewrite !py_get_field. cbn [bind]. fold status.
  destruct (py_eq (field tdd status) (field ed status)); cbn [negb].
  - intros [= <-]. exists ed. auto.
  - cbn [py_getitem]. destruct (dict_get status tdd) as [sd|]; [|discriminate].
    cbn [bind py_setitem]. intros [= <-]. eexists. split; [reflexivity|]. split.
    + intros k Hk. now rewrite dict_get_set, Hk.
    + apply dict_get_set_same.
Qed.

Lemma update_last_seen_value (ed tdd : items) r :
  update_last_seen (VDict ed) (VDict tdd) = Ok r ->
  exists rd, r = VDict rd
    /\ (forall k, key_eqb k last_chapter = false -> key_eqb k last_scene = false ->
                  dict_get k rd = dict_get k ed)
    /\ dict_get last_chapter rd
       = (if both_seen tdd then dict_get last_chapter tdd
          else dict_get last_chapter ed)
    /\ dict_get last_scene rd
       = (if both_seen tdd then dict_get last_scene tdd
          else dict_get last_scene ed).
Proof.
  unfold update_last_seen, and_then, both_seen.
  rewrite !py_get_field. cbn [bind]. fold last_chapter last_scene.
  destruct (truthy (field tdd last_chapter)) eqn:Hc; cbn [bind andb].
  2:{ intros [= <-]. exists ed. auto. }
  destruct (truthy (field tdd last_scene)) eqn:Hs.
  2:{ intros [= <-]. exists ed. auto. }
  cbn [py_getitem]. rewrite (truthy_field _ _ Hc), (truthy_field _ _ Hs).
  cbn [bind py_setitem]. intros [= <-]. eexists. split; [reflexivity|]. split.
  - intros k H1 H2. now rewrite !dict_get_set, H1, H2.
  - split.
    + rewrite !dict_get_set. reflexivity.
    + now rewrite dict_get_set_same.
Qed.

Lemma update_thread_fields (ed tdd : items) r :
  update_thread (VDict ed) (VDict tdd) = Ok r ->
  exists rd, r = VDict rd
    /\ dict_get status rd
       = (if py_eq (field tdd status) (field ed status)
          then dict_get status ed else dict_get status tdd)
    /\ dict_get last_chapter rd
       = (if both_seen tdd then dict_get last_chapter tdd
          else dict_get last_chapter ed)
    /\ dict_get last_scene rd
       = (if both_seen tdd then dict_get last_scene tdd
          else dict_get last_scene ed).
Proof.
  intros H. unfold update_thread in H.
  bind_inv H. destruct (update_status_value _ _ _ E) as (d1 & -> & K1 & S1).
  bind_inv H. destruct (update_last_seen_value _ _ _ E0) as (d2 & -> & K2 & L2 & L2').
  assert (H3 : forall k, key_eqb k dh = false -> keeps k d2 r)
    by (intros k Hk; eapply merge_history_other; eauto).
  destruct (H3 status eq_refl) as (d3 & -> & Hs).
  destruct (H3 last_chapter eq_refl) as (d3' & [= <-] & Hlc).
  destruct (H3 last_scene eq_refl) as (d3' & [= <-] & Hls).
  exists d3. split; [reflexivity|].
  rewrite Hs, Hlc, Hls, L2, L2', (K2 status eq_refl eq_refl), S1,
    (K1 last_chapter eq_refl), (K1 last_scene eq_refl).
  auto.
Qed.

(** X14. For a thread both dicts hold, the merged thread has the
    update's status when it differs from the existing one, and the
    update's last_chapter and last_scene when the update holds a true
    value for both; with only one of the two, neither is changed. *)
Theorem thread_status_and_last_seen
        (d n : items) (name : pykey) (ed tdd : items) (r : pyval) :
  keys_distinct n = true ->
  dict_get name d = Some (VDict ed) ->
  In (name, VDict tdd) n ->
  merge_plot_threads (VDict d) (VDict n) = Ok r ->
  exists rd rt,
    r = VDict rd
    /\ dict_get name rd = Some (VDict rt)
    /\ dict_get status rt
       = (if py_eq (field tdd status) (field ed status)
          then dict_get status ed else dict_get status tdd)
    /\ dict_get last_chapter rt
       = (if both_seen tdd then dict_get last_chapter tdd
          else dict_get last_chapter ed)
    /\ dict_get last_scene rt
       = (if both_seen tdd then dict_get last_scene tdd
          else dict_get last_scene ed).
Proof.
  intros Hn He Hin H. rewrite merge_plot_threads_loop in H.
  destruct (keyed_loop_entity _ _ _ _ _ _ _ _ Hn Hin eq_refl He H)
    as (rd & e' & -> & Hu & Hg).
  destruct (update_thread_fields _ _ _ Hu) as (rt & -> & Hs).
  exists rd, rt. auto.
Qed.

Lemma thread_status_and_last_seen_witness :
  exists rd rt,
    merge_plot_threads
      (obj [("t", obj [("status", VStr "open"); ("last_chapter", VStr "1");
                       ("last_scene", VStr "1")])])
      (obj [("t", obj [("status", VStr "resolved"); ("last_chapter", VStr "2")])])
    = Ok (VDict rd)
    /\ dict_get (KStr "t") rd = Some (VDict rt)
    /\ dict_get status rt = Some (VStr "resolved")
    /\ dict_get last_chapter rt = Some (VStr "1")
    /\ dict_get last_scene rt = Some (VStr "1").
Proof.
  destruct (merge_plot_threads
              (obj [("t", obj [("status", VStr "open"); ("last_chapter", VStr "1");
                               ("last_scene", VStr "1")])])
              (obj [("t", obj [("status", VStr "resolved");
                               ("last_chapter", VStr "2")])]))
    as [r|e] eqn:H; [|vm_compute in H; discriminate H].
  destruct (thread_status_and_last_seen
              [(KStr "t", obj [("status", VStr "open"); ("last_chapter", VStr "1");
                               ("last_scene", VStr "1")])]
              [(KStr "t", obj [("status", VStr "resolved");
                               ("last_chapter", VStr "2")])]
              (KStr "t")
              [(KStr "status", VStr "open"); (KStr "last_chapter", VStr "1");
               (KStr "last_scene", VStr "1")]
              [(KStr "status", VStr "resolved"); (KStr "last_chapter", VStr "2")]
              r eq_refl eq_refl (or_introl eq_refl) H)
    as (rd & rt & -> & Hg & Hs & Hc & Hsc).
  exists rd, rt. split; [reflexivity|]. split; [exact Hg|].
  split; [exact Hs|]. split; [exact Hc|exact Hsc].
Defined.

Lemma str_app_assoc (a b c : string) : ((a ++ b) ++ c = a ++ (b ++ c))%string.
Proof. induction a as [|x a IH]; cbn; [reflexivity|now rewrite IH]. Qed.

Lemma entry_key_strings (chapter scene development : string) :
  entry_key (history_entry chapter scene development)
  = (chapter ++ "_" ++ scene ++ "_" ++ development)%string.
Proof. reflexivity. Qed.

(** X15. History entries are compared by the text
    chapter_scene_development: entries that differ only in where an
    underscore falls between chapter and scene have the same key, and an
    update all of whose entries have the key of an existing entry leaves
    the history of the thread as it was. *)
Theorem history_key_collisions :
  (forall a b c dev : string,
      entry_key (history_entry (a ++ "_" ++ b) c dev)
      = entry_key (history_entry a (b ++ "_" ++ c) dev))
  /\ (forall (d n : items) (name : pykey) (e td r : pyval),
      keys_distinct n = true ->
      thread_shaped td = true ->
      dict_get name d = Some e ->
      In (name, td) n ->
      forallb (fun y => str_mem (entry_key y) (map entry_key (history e)))
              (history td) = true ->
      merge_plot_threads (VDict d) (VDict n) = Ok r ->
      history_of r name = history e).
Proof.
  split.
  - intros a b c dev. rewrite !entry_key_strings.
    now rewrite !str_app_assoc.
  - intros d n name e td r Hn Hs He Hin Hcov H.
    rewrite merge_plot_threads_loop in H.
    destruct (keyed_loop_entity _ _ _ _ _ _ _ _ Hn Hin eq_refl He H)
      as (rd & e' & -> & Hu & Hg).
    destruct td as [| | | | |tdd]; try discriminate.
    destruct (update_thread_run _ _ _ Hs Hu) as (ed & rd' & -> & -> & _ & Hh).
    unfold history_of. cbn [py_getitem]. rewrite Hg, Hh.
    unfold fresh_entries. rewrite filter_none; [apply app_nil_r|].
    now apply forallb_forall.
Qed.

Lemma history_key_collisions_witness :
  exists r,
    merge_plot_threads
      (obj [("t", obj [("development_history",
                        VList [history_entry "1_2" "3" "x"])])])
      (obj [("t", obj [("development_history",
                        VList [history_entry "1" "2_3" "x"])])])
    = Ok r
    /\ history_of r (KStr "t") = [history_entry "1_2" "3" "x"].
Proof.
  destruct (merge_plot_threads
              (obj [("t", obj [("development_history",
                                VList [history_entry "1_2" "3" "x"])])])
              (obj [("t", obj [("development_history",
                                VList [history_entry "1" "2_3" "x"])])]))
    as [r|e] eqn:H; [|vm_compute in H; discriminate H].
  exists r. split; [reflexivity|].
  exact (proj2 history_key_collisions
           [(KStr "t", obj [("development_history",
                             VList [history_entry "1_2" "3" "x"])])]
           [(KStr "t", obj [("development_history",
                             VList [history_entry "1" "2_3" "x"])])]
           (KStr "t")
           (obj [("development_history", VList [history_entry "1_2" "3" "x"])])
           (obj [("development_history", VList [history_entry "1" "2_3" "x"])])
           r eq_refl eq_refl eq_refl (or_introl eq_refl) eq_refl H).
Defined.

(* ------------------------------------------------------------------ *)
(** ** merge_world_elements *)

Lemma append_items_loop (ks : list string) (new acc : list pyval) :
  for_each new
    (fun cur item =>
       if negb (str_mem (py_str item) ks) then py_append cur item else Ok cur)
    (VList acc)
  = Ok (VList (acc ++ filter (fun item => negb (str_mem (py_str item) ks)) new)).
Proof.
  revert acc. induction new as [|x new IH]; intros acc; cbn [for_each filter].
  - now rewrite app_nil_r.
  - destruct (negb (str_mem (py_str x) ks)); cbn [py_append bind].
    + rewrite IH. now rewrite <- app_assoc.
    + apply IH.
Qed.

Lemma merge_element_entry (rc : items) kv :
  merge_element (VDict rc) kv = merge_entry never update_element (VDict rc) kv.
Proof.
  destruct kv as [k v]. unfold merge_element, merge_entry, never, update_element.
  cbn [py_contains py_getitem bind]. unfold dict_mem.
  destruct (dict_get k rc) as [old|] eqn:Ho; cbn [bind]; [|reflexivity].
  unfold and_then. cbn [bind].
  destruct v as [| | | |b|b]; cbn [is_list is_dict bind truthy].
  1-4: destruct old; cbn [element_value truthy];
       match goal with
       | |- (if ?c then _ else _) = _ => destruct c eqn:Hc
       | |- _ => idtac
       end; cbn [py_setitem]; try reflexivity;
       now rewrite (dict_set_idem _ _ _ Ho).
  - destruct old as [| | | |a|a]; cbn [is_list is_dict bind element_value truthy].
    5:{ cbn [py_iter bind]. rewrite append_items_loop. cbn [bind py_setitem].
        reflexivity. }
    all: destruct b; cbn [py_setitem]; try reflexivity;
      now rewrite (dict_set_idem _ _ _ Ho).
  - destruct old as [| | | |a|a]; cbn [is_list is_dict bind element_value truthy];
      try reflexivity.
    all: destruct b; cbn [py_setitem]; try reflexivity;
      now rewrite (dict_set_idem _ _ _ Ho).
Qed.

Lemma update_category_loop (ec els : items) :
  update_category (VDict ec) (VDict els)
  = for_each els (merge_entry never update_element) (VDict ec).
Proof.
  unfold update_category. cbn [py_copy py_items bind].
  apply for_each_dict_ext; [apply merge_element_entry|].
  apply merge_entry_stays_dict.
Qed.

Lemma update_category_total (ec els : items) :
  exists rc, update_category (VDict ec) (VDict els) = Ok (VDict rc).
Proof.
  rewrite update_category_loop. revert ec.
  induction els as [|[k v] els IH]; intros ec; cbn [for_each]; [eauto|].
  unfold merge_entry at 1, never, update_element.
  cbn [py_contains py_getitem bind]. unfold dict_mem.
  destruct (dict_get k ec); cbn [bind py_setitem]; apply IH.
Qed.

Lemma Forall_values_set (P : pyval -> Prop) (d : items) k v :
  Forall (fun kv => P (snd kv)) d -> P v ->
  Forall (fun kv => P (snd kv)) (dict_set k v d).
Proof.
  intros Hd Hv. apply Forall_dict_set; [assumption|]. intros k0 _. exact Hv.
Qed.

(** X16. On dicts of categories (every value a dict)
    [merge_world_elements] returns, and what it returns is again a dict
    of categories: no value inside a category makes it raise. *)
Theorem merge_world_elements_total (d n : items) :
  world_shaped d = true -> world_shaped n = true ->
  exists rd,
    merge_world_elements (VDict d) (VDict n) = Ok (VDict rd)
    /\ world_shaped rd = true.
Proof.
  rewrite merge_world_elements_loop. unfold world_shaped.
  rewrite !forallb_forall. revert d.
  induction n as [|[k v] n IH]; intros d Hd Hn; cbn [for_each].
  - exists d. split; [reflexivity|]. now apply forallb_forall.
  - assert (Hv : is_dict v = true) by (apply (Hn (k, v)); now left).
    destruct v as [| | | | |els]; try discriminate.
    unfold merge_entry at 1, never. cbn [py_contains py_getitem bind].
    unfold dict_mem.
    assert (Hstep : forall w, is_dict w = true ->
              forall x, In x (dict_set k w d) -> is_dict (snd x) = true).
    { intros w Hw. apply Forall_forall. apply Forall_values_set with (P := fun e => is_dict e = true);
        [now apply Forall_forall|assumption]. }
    destruct (dict_get k d) as [e|] eqn:He; cbn [bind].
    + destruct (dict_get_in _ _ _ He) as (k' & Hin & _).
      pose proof (Hd _ Hin) as Hed. cbn [snd] in Hed.
      destruct e as [| | | | |ec]; try discriminate.
      destruct (update_category_total ec els) as (rc & ->).
      cbn [bind py_setitem]. apply IH.
      * now apply Hstep.
      * intros x Hx. apply Hn. now right.
    + cbn [py_setitem]. apply IH.
      * now apply Hstep.
      * intros x Hx. apply Hn. now right.
Qed.

Lemma merge_world_elements_total_witness :
  exists rd,
    merge_world_elements
      (obj [("geography", obj [("places", VList [VStr "a"]); ("climate", VInt 3)])])
      (obj [("geography", obj [("places", VStr "b"); ("climate", VList [])]);
            ("magic", obj [])])
    = Ok (VDict rd)
    /\ world_shaped rd = true.
Proof.
  exact (merge_world_elements_total
           [(KStr "geography",
             obj [("places", VList [VStr "a"]); ("climate", VInt 3)])]
           [(KStr "geography", obj [("places", VStr "b"); ("climate", VList [])]);
            (KStr "magic", obj [])] eq_refl eq_refl).
Defined.

(** X17. For a category both dicts hold, a key of the update holds in
    the merged category: the update's value when the category did not
    have the key; the existing list followed by the update's items whose
    [str] no existing item has, when both are lists; the union of the two
    with the update winning, when both are dicts; and otherwise the
    update's value if it is true and the existing one if not. *)
Theorem world_element_merge_rule
        (d n : items) (category key : pykey) (ec els : items) (value r : pyval) :
  keys_distinct n = true ->
  keys_distinct els = true ->
  dict_get category d = Some (VDict ec) ->
  In (category, VDict els) n ->
  In (key, value) els ->
  merge_world_elements (VDict d) (VDict n) = Ok r ->
  exists rd rc,
    r = VDict rd
    /\ dict_get category rd = Some (VDict rc)
    /\ dict_get key rc = Some (element_value (dict_get key ec) value).
Proof.
  intros Hn Hels He Hin Hkv H.
  rewrite merge_world_elements_loop in H.
  destruct (keyed_loop_entity _ _ _ _ _ _ _ _ Hn Hin eq_refl He H)
    as (rd & e' & -> & Hu & Hg).
  rewrite update_category_loop in Hu.
  destruct (keyed_loop _ _ _ _ _ Hu) as (rc & -> & _ & Hkeys).
  specialize (Hkeys Hels _ _ Hkv). unfold merged_entry, never, update_element in Hkeys.
  exists rd, rc. split; [reflexivity|]. split; [assumption|].
  destruct (dict_get key ec) as [old|].
  - destruct Hkeys as (e'' & [= <-] & Hk). exact Hk.
  - exact Hkeys.
Qed.

Lemma world_element_merge_rule_witness :
  exists rd rc,
    merge_world_elements
      (obj [("geography", obj [("places", VList [VStr "5"])])])
      (obj [("geography", obj [("places", VList [VInt 5; VStr "b"])])])
    = Ok (VDict rd)
    /\ dict_get (KStr "geography") rd = Some (VDict rc)
    /\ dict_get (KStr "places") rc = Some (VList [VStr "5"; VStr "b"]).
Proof.
  destruct (merge_world_elements
              (obj [("geography", obj [("places", VList [VStr "5"])])])
              (obj [("geography", obj [("places", VList [VInt 5; VStr "b"])])]))
    as [r|e] eqn:H; [|vm_compute in H; discriminate H].
  destruct (world_element_merge_rule
              [(KStr "geography", obj [("places", VList [VStr "5"])])]
              [(KStr "geography", obj [("places", VList [VInt 5; VStr "b"])])]
              (KStr "geography") (KStr "places")
              [(KStr "places", VList [VStr "5"])]
              [(KStr "places", VList [VInt 5; VStr "b"])]
              (VList [VInt 5; VStr "b"]) r
              eq_refl eq_refl eq_refl (or_introl eq_refl) (or_introl eq_refl) H)
    as (rd & rc & -> & Hg & Hk).
  exists rd, rc. split; [reflexivity|]. split; [exact Hg|exact Hk].
Defined.

(* ================================================================== *)
(** * Properties of the key concepts tracker *)
(* ================================================================== *)

Import Exposition.

Lemma select_loop (chapter : pyval) (l acc r : list pyval) :
  for_each l (select_concept chapter) acc = Ok r ->
  exists sel, r = acc ++ sel
    /\ (forall c, In c sel -> In c l /\ due chapter c = true).
Proof.
  revert acc r. induction l as [|c l IH]; intros acc r H; cbn [for_each] in H.
  - injection H as <-. exists []. split; [now rewrite app_nil_r|intros ? []].
  - destruct (select_concept chapter acc c) as [acc1|] eqn:H1; cbn [bind] in H;
      [|discriminate].
    destruct (IH _ _ H) as (sel & -> & Hsel).
    unfold select_concept, and_then in H1.
    destruct (py_getitem c (KStr "recommended_chapter")) as [rc|] eqn:Hrc;
      cbn [bind] in H1; [|discriminate].
    destruct (py_eq rc chapter) eqn:Heq.
    + destruct (py_getitem c (KStr "introduced")) as [i|] eqn:Hi;
        cbn [bind] in H1; [|discriminate].
      destruct (truthy i) eqn:Ht; cbn [negb] in H1; injection H1 as <-.
      * exists sel. split; [reflexivity|]. intros x Hx.
        destruct (Hsel x Hx). split; [now right|assumption].
      * exists (c :: sel). split; [now rewrite <- app_assoc|].
        intros x [<-|Hx].
        -- split; [now left|]. unfold due. now rewrite Hrc, Hi, Heq, Ht.
        -- destruct (Hsel x Hx). split; [now right|assumption].
    + cbn [bind] in H1. injection H1 as <-.
      exists sel. split; [reflexivity|]. intros x Hx.
      destruct (Hsel x Hx). split; [now right|assumption].
Qed.

(** X18. Once the state has chapters, current_chapter and
    current_scene, [check_concept_introduction] never raises, whatever
    the memory search returns or raises: it returns the empty dict, or a
    dict whose concepts_to_introduce is a non-empty list of concepts
    recommended for the current chapter and not yet introduced. *)
Theorem check_concept_introduction_never_raises
        (sd : items) (search : result search_result)
        (chapters current_chapter current_scene : pyval) :
  dict_get (KStr "chapters") sd = Some chapters ->
  dict_get (KStr "current_chapter") sd = Some current_chapter ->
  dict_get (KStr "current_scene") sd = Some current_scene ->
  check_concept_introduction (VDict sd) search = Ok (VDict [])
  \/ exists concepts,
      check_concept_introduction (VDict sd) search
      = Ok (VDict [(KStr "concepts_to_introduce", VList concepts)])
      /\ concepts <> []
      /\ forall c, In c concepts -> due current_chapter c = true.
Proof.
  intros Hc Hcc Hcs. unfold check_concept_introduction.
  cbn [py_getitem]. rewrite Hc, Hcc, Hcs. cbn [bind].
  match goal with
  | |- try_except ?b _ = _ \/ _ => destruct b as [v|e] eqn:Hb
  end; cbn [try_except]; [|now left].
  destruct search as [results|]; cbn [bind] in Hb; [|discriminate].
  destruct (find_tracker results) as [tracker|]; cbn [bind] in Hb; [|discriminate].
  destruct (truthy tracker); cbn [negb] in Hb.
  2:{ injection Hb as <-. now left. }
  destruct (py_getitem tracker (KStr "key_concepts")) as [cs|]; cbn [bind] in Hb;
    [|discriminate].
  destruct (py_iter cs) as [l|]; cbn [bind] in Hb; [|discriminate].
  destruct (for_each l (select_concept current_chapter) []) as [sel|] eqn:Hsel;
    cbn [bind] in Hb; [|discriminate].
  destruct (select_loop _ _ _ _ Hsel) as (sel' & Heq & Hdue). cbn in Heq. subst sel'.
  destruct sel as [|c sel]; injection Hb as <-; [now left|].
  right. exists (c :: sel). split; [reflexivity|]. split; [discriminate|].
  intros x Hx. now destruct (Hdue x Hx).
Qed.

Lemma check_concept_introduction_never_raises_witness :
  check_concept_introduction (VDict example_state) (Raise KeyError) = Ok (VDict [])
  \/ exists concepts,
      check_concept_introduction (VDict example_state) (Raise KeyError)
      = Ok (VDict [(KStr "concepts_to_introduce", VList concepts)])
      /\ concepts <> []
      /\ forall c, In c concepts -> due (VStr "2") c = true.
Proof.
  exact (check_concept_introduction_never_raises example_state (Raise KeyError)
           (VDict []) (VStr "2") (VStr "1") eq_refl eq_refl eq_refl).
Defined.

Lemma select_loop_exact (chapter : pyval) (l acc : list pyval) :
  forallb concept_shaped l = true ->
  for_each l (select_concept chapter) acc = Ok (acc ++ filter (due chapter) l).
Proof.
  revert acc. induction l as [|c l IH]; intros acc H; cbn [for_each filter].
  - now rewrite app_nil_r.
  - simpl in H. apply andb_true_iff in H as [Hc Hl].
    destruct c as [| | | | |d]; try discriminate.
    unfold concept_shaped, dict_mem in Hc.
    destruct (dict_get (KStr "recommended_chapter") d) as [rc|] eqn:Hrc;
      [|discriminate].
    destruct (dict_get (KStr "introduced") d) as [i|] eqn:Hi; [|discriminate].
    assert (Hdue : due chapter (VDict d) = py_eq rc chapter && negb (truthy i)).
    { unfold due. cbn [py_getitem]. now rewrite Hrc, Hi. }
    assert (Hsel : select_concept chapter acc (VDict d)
                   = Ok (if due chapter (VDict d) then acc ++ [VDict d] else acc)).
    { rewrite Hdue. unfold select_concept, and_then. cbn [py_getitem].
      rewrite Hrc, Hi. cbn [bind].
      destruct (py_eq rc chapter); cbn [bind andb]; [|reflexivity].
      now destruct (truthy i). }
    rewrite Hsel. cbn [bind]. destruct (due chapter (VDict d)).
    + rewrite IH by assumption. now rewrite <- app_assoc.
    + now apply IH.
Qed.

Lemma find_tracker_value (tracker : pyval) :
  find_tracker (Found (VDict [(KStr "value", tracker)])) = Ok tracker.
Proof. reflexivity. Qed.

(** X19. When the search returns the tracker as a dict with a value,
    and the tracker lists well-formed concepts, the concepts returned are
    exactly those recommended for the current chapter and not yet
    introduced, in the tracker's order; the empty dict when there is
    none. *)
Theorem check_concept_introduction_selects_due
        (sd td : items) (concepts : list pyval)
        (chapters current_chapter current_scene : pyval) :
  dict_get (KStr "chapters") sd = Some chapters ->
  dict_get (KStr "current_chapter") sd = Some current_chapter ->
  dict_get (KStr "current_scene") sd = Some current_scene ->
  dict_get (KStr "key_concepts") td = Some (VList concepts) ->
  forallb concept_shaped concepts = true ->
  check_concept_introduction (VDict sd)
    (Ok (Found (VDict [(KStr "value", VDict td)])))
  = Ok match filter (due current_chapter) concepts with
       | [] => VDict []
       | selected => VDict [(KStr "concepts_to_introduce", VList selected)]
       end.
Proof.
  intros Hc Hcc Hcs Htd Hshape. unfold check_concept_introduction.
  cbn [py_getitem]. rewrite Hc, Hcc, Hcs. cbn [bind].
  rewrite find_tracker_value. cbn [bind].
  assert (Ht : truthy (VDict td) = true)
    by (destruct td; [discriminate|reflexivity]).
  rewrite Ht. cbn [negb py_getitem]. rewrite Htd. cbn [bind py_iter].
  rewrite (select_loop_exact _ _ [] Hshape). cbn [app bind].
  destruct (filter (due current_chapter) concepts); reflexivity.
Qed.

Lemma check_concept_introduction_selects_due_witness :
  check_concept_introduction (VDict example_state)
    (Ok (Found (VDict [(KStr "value", VDict example_tracker)])))
  = Ok (VDict [(KStr "concepts_to_introduce",
                VList [VDict [(KStr "name", VStr "magic");
                              (KStr "recommended_chapter", VStr "2");
                              (KStr "introduced", VBool false)]])]).
Proof.
  exact (check_concept_introduction_selects_due example_state example_tracker
           example_concepts (VDict []) (VStr "2") (VStr "1")
           eq_refl eq_refl eq_refl eq_refl eq_refl).
Defined.

Lemma mark_loop (name ch sc : pyval) (l acc : list pyval) :
  forallb concept_shaped l = true ->
  for_each l (mark_concept name ch sc) acc = Ok (acc ++ map (mark name ch sc) l).
Proof.
  revert acc. induction l as [|c l IH]; intros acc H; cbn [for_each map].
  - now rewrite app_nil_r.
  - simpl in H. apply andb_true_iff in H as [Hc Hl].
    destruct c as [| | | | |d]; try discriminate.
    unfold concept_shaped, dict_mem in Hc.
    destruct (dict_get (KStr "name") d) as [nm|] eqn:Hnm;
      [|rewrite andb_false_r in Hc; discriminate].
    assert (Hm : mark_concept name ch sc acc (VDict d)
                 = Ok (acc ++ [mark name ch sc (VDict d)])).
    { unfold mark_concept, mark. cbn [py_getitem]. rewrite Hnm. cbn [bind].
      destruct (py_eq nm name); reflexivity. }
    rewrite Hm. cbn [bind]. rewrite IH by assumption. now rewrite <- app_assoc.
Qed.

(** X20. With the tracker found and well-formed,
    [update_concept_introduction_status] hands to the memory tool a
    tracker with as many concepts, in which every concept of the given
    name is marked (introduced, with the current chapter and scene and
    clarity score 7) and the others are as they were; it returns that
    tracker, or the empty dict when storing it raises. *)
Theorem update_concept_introduction_status_marks
        (sd td : items) (concepts : list pyval) (concept_name : pyval)
        (store : pyval -> result unit) (current_chapter current_scene : pyval) :
  dict_get (KStr "current_chapter") sd = Some current_chapter ->
  dict_get (KStr "current_scene") sd = Some current_scene ->
  dict_get (KStr "key_concepts") td = Some (VList concepts) ->
  forallb concept_shaped concepts = true ->
  let updated :=
    VDict [(KStr "key_concepts",
            VList (map (mark concept_name current_chapter current_scene) concepts))] in
  update_concept_introduction_status (VDict sd) concept_name
    (Ok (Found (VDict [(KStr "value", VDict td)]))) store
  = Ok match store updated with
       | Ok _ => VDict [(KStr "key_concepts_tracker", updated)]
       | Raise _ => VDict []
       end
  /\ List.length (map (mark concept_name current_chapter current_scene) concepts)
     = List.length concepts.
Proof.
  intros Hcc Hcs Htd Hshape. cbv zeta. split; [|apply length_map].
  unfold update_concept_introduction_status.
  cbn [py_getitem]. rewrite Hcc, Hcs. cbn [bind].
  rewrite find_tracker_value. cbn [bind].
  assert (Ht : truthy (VDict td) = true)
    by (destruct td; [discriminate|reflexivity]).
  rewrite Ht. cbn [negb py_getitem]. rewrite Htd. cbn [bind py_iter].
  rewrite (mark_loop _ _ _ _ [] Hshape). cbn [app bind].
  destruct (store _) as [[]|]; reflexivity.
Qed.

Lemma update_concept_introduction_status_marks_witness :
  update_concept_introduction_status (VDict example_state) (VStr "magic")
    (Ok (Found (VDict [(KStr "value", VDict example_tracker)])))
    (fun _ => Ok tt)
  = Ok (VDict
          [(KStr "key_concepts_tracker",
            VDict
              [(KStr "key_concepts",
                VList [VDict [(KStr "name", VStr "magic");
                              (KStr "recommended_chapter", VStr "2");
                              (KStr "introduced", VBool true);
                              (KStr "introduction_chapter", VStr "2");
                              (KStr "introduction_scene", VStr "1");
                              (KStr "clarity_score", VInt 7)];
                       VDict [(KStr "name", VStr "guild");
                              (KStr "recommended_chapter", VStr "2");
                              (KStr "introduced", VBool true)]])])]).
Proof.
  exact (proj1 (update_concept_introduction_status_marks example_state
                  example_tracker example_concepts (VStr "magic")
                  (fun _ => Ok tt) (VStr "2") (VStr "1")
                  eq_refl eq_refl eq_refl eq_refl)).
Defined.

(* ================================================================== *)
(** * Properties of the progress tracking *)
(* ================================================================== *)

Import Progress.

Section TrackingFacts.
Variable time : Type.
Variable callback : Type.
Variable invoke : callback -> string -> pyval -> result unit.

Lemma count_call_get (name other : string) (counts : list (pykey * Z)) :
  dict_get (KStr other) (count_call name counts)
  = if String.eqb other name
    then Some (match dict_get (KStr name) counts with
               | Some c => c + 1
               | None => 1
               end)%Z
    else dict_get (KStr other) counts.
Proof.
  unfold count_call, dict_mem.
  destruct (dict_get (KStr name) counts) as [c|] eqn:Hc; cbn [negb].
  - rewrite Hc, dict_get_set. reflexivity.
  - rewrite dict_get_set_same, !dict_get_set. cbn [key_eqb].
    destruct (String.eqb other name); reflexivity.
Qed.

Lemma wrapper_globals (name : string) (f : pyval -> result pyval) (now : time)
      (state : pyval) (g : tracking time callback) :
  globals (wrapper invoke name f now state g)
  = {| progress_callback := progress_callback g;
       start_time := match start_time g with
                     | None => Some now
                     | Some t => Some t
                     end;
       node_counts := count_call name (node_counts g) |}.
Proof.
  unfold wrapper. destruct (f state); [|reflexivity].
  cbn. destruct (progress_callback g); reflexivity.
Qed.

Lemma run_step_count (g : tracking time callback) (s : step time) (name : string) :
  count_of name (run_step invoke g s)
  = (count_of name g + if String.eqb name (step_name s) then 1 else 0)%Z.
Proof.
  unfold run_step, count_of. rewrite wrapper_globals. cbn [node_counts].
  rewrite count_call_get.
  destruct (String.eqb name (step_name s)) eqn:He.
  - apply String.eqb_eq in He. subst name.
    destruct (dict_get (KStr (step_name s)) (node_counts g)); lia.
  - destruct (dict_get (KStr name) (node_counts g)); lia.
Qed.

(** X21. Each call of a tracked node adds one to the count of its name,
    whether the node returns or raises and whether a callback is set:
    after a run the count of a name is what it was plus the number of
    calls of nodes of that name, and after [reset_progress_tracking] it
    is that number. *)
Theorem node_counts_count_calls
        (steps : list (step time)) (g : tracking time callback) (name : string) :
  count_of name (run invoke steps g)
  = (count_of name g + Z.of_nat (calls_of name steps))%Z
  /\ count_of name (run invoke steps (reset_progress_tracking g))
     = Z.of_nat (calls_of name steps).
Proof.
  assert (H : forall (steps : list (step time)) (g : tracking time callback),
             count_of name (run invoke steps g)
             = (count_of name g + Z.of_nat (calls_of name steps))%Z).
  { clear. intros steps. induction steps as [|s steps IH]; intros g.
    - unfold calls_of. cbn. lia.
    - unfold run in *. cbn [fold_left]. rewrite IH, run_step_count.
      unfold calls_of. cbn [filter].
      destruct (String.eqb name (step_name s)); cbn [List.length]; lia. }
  split; [apply H|]. rewrite H. unfold count_of. cbn. lia.
Qed.

Lemma run_step_start (g : tracking time callback) (s : step time) :
  start_time (run_step invoke g s)
  = match start_time g with
    | None => Some (step_now s)
    | Some t => Some t
    end
  /\ progress_callback (run_step invoke g s) = progress_callback g.
Proof.
  unfold run_step. rewrite wrapper_globals. split; reflexivity.
Qed.

(** X22. The start time is read once: after a run of at least one call
    it is the start time there was, or the clock's reading at the first
    call when there was none (as after [set_progress_callback] and
    [reset_progress_tracking]), whatever the later calls read; and the
    calls leave the callback as it is. *)
Theorem start_time_is_first_call
        (s : step time) (steps : list (step time)) (g : tracking time callback) :
  let g' := run invoke (s :: steps) g in
  start_time g'
  = match start_time g with
    | None => Some (step_now s)
    | Some t => Some t
    end
  /\ progress_callback g' = progress_callback g
  /\ start_time (run invoke (s :: steps) (reset_progress_tracking g))
     = Some (step_now s)
  /\ forall cb, start_time (run invoke (s :: steps) (set_progress_callback cb g))
                = Some (step_now s).
Proof.
  assert (H : forall (steps : list (step time)) (g1 : tracking time callback) t,
             start_time g1 = Some t ->
             start_time (fold_left (run_step invoke) steps g1) = Some t
             /\ progress_callback (fold_left (run_step invoke) steps g1)
                = progress_callback g1).
  { clear. intros steps. induction steps as [|s steps IH]; intros g1 t H; [auto|].
    cbn [fold_left]. destruct (run_step_start g1 s) as [Hs Hc].
    rewrite H in Hs. destruct (IH _ _ Hs) as [H1 H2]. split; congruence. }
  assert (G : forall g : tracking time callback,
             start_time (run invoke (s :: steps) g)
             = match start_time g with
               | None => Some (step_now s)
               | Some t => Some t
               end
             /\ progress_callback (run invoke (s :: steps) g) = progress_callback g).
  { intros g0. unfold run. cbn [fold_left].
    destruct (run_step_start g0 s) as [Hs Hc].
    destruct (start_time g0) as [t|].
    - destruct (H steps _ t Hs) as [H1 H2]. split; congruence.
    - destruct (H steps _ (step_now s) Hs) as [H1 H2]. split; congruence. }
  cbv zeta. destruct (G g) as [G1 G2]. split; [exact G1|]. split; [exact G2|].
  split.
  - destruct (G (reset_progress_tracking g)) as [G3 _]. exact G3.
  - intros cb. destruct (G (set_progress_callback cb g)) as [G3 _]. exact G3.
Qed.

End TrackingFacts.

(* ================================================================== *)
(** * The copying reducers leave the objects there are *)
(* ================================================================== *)

Import Store StoreReducers.

Lemma same_below_refl n st : same_below n st st.
Proof. split; auto. Qed.

Lemma same_below_trans n st1 st2 st3 :
  same_below n st1 st2 -> same_below n st2 st3 -> same_below n st1 st3.
Proof.
  intros [L1 H1] [L2 H2]. split; [lia|].
  intros a Ha. now rewrite H2, H1.
Qed.

Lemma list_set_length {A : Type} (i : nat) (v : A) (l : list A) :
  List.length (list_set i v l) = List.length l.
Proof.
  revert i. induction l as [|x l IH]; intros [|i]; cbn; auto.
Qed.

Lemma list_set_other {A : Type} (i j : nat) (v : A) (l : list A) :
  i <> j -> nth_error (list_set i v l) j = nth_error l j.
Proof.
  revert i j. induction l as [|x l IH]; intros [|i] [|j] H; cbn; auto;
    congruence.
Qed.

(** *** Calls that only read *)

Lemma reads_ret {A : Type} (a : A) : reads (ret a).
Proof. intros st. reflexivity. Qed.

Lemma reads_raise {A : Type} e : reads (@raise A e).
Proof. intros st. reflexivity. Qed.

Lemma reads_bind {A B : Type} (c : M A) (k : A -> M B) :
  reads c -> (forall a, reads (k a)) -> reads (bind c k).
Proof.
  intros Hc Hk st. unfold bind. specialize (Hc st).
  destruct (c st) as [a st'|e st']; cbn in Hc; subst; [apply Hk|reflexivity].
Qed.

Lemma reads_view v : reads (view v).
Proof. intros st. reflexivity. Qed.

Lemma reads_value v : reads (value v).
Proof. intros st. unfold value. now destruct (snapshot st v). Qed.

Lemma reads_map_m {A B : Type} (f : A -> M B) (xs : list A) :
  (forall x, reads (f x)) -> reads (map_m f xs).
Proof.
  intros Hf. induction xs as [|x xs IH]; cbn [map_m]; [apply reads_ret|].
  apply reads_bind; [apply Hf|]. intros y.
  apply reads_bind; [apply IH|]. intros ys. apply reads_ret.
Qed.

Ltac reads_step :=
  first [ apply reads_ret | apply reads_raise | apply reads_view
        | apply reads_value
        | apply reads_bind; [|intros ?]
        | apply reads_map_m; intros ?
        | match goal with
          | |- reads (match ?x with _ => _ end) => destruct x
          | |- reads (if ?x then _ else _) => destruct x
          end ].

Ltac reads_all := repeat reads_step.

Lemma reads_truthy v : reads (s_truthy v).
Proof. unfold s_truthy. reads_all. Qed.

Lemma reads_is_list v : reads (s_is_list v).
Proof. unfold s_is_list. reads_all. Qed.

Lemma reads_is_dict v : reads (s_is_dict v).
Proof. unfold s_is_dict. reads_all. Qed.

Lemma reads_items x : reads (s_items x).
Proof. unfold s_items. reads_all. Qed.

Lemma reads_contains k x : reads (s_contains k x).
Proof. unfold s_contains. reads_all. Qed.

Lemma reads_getitem x k : reads (s_getitem x k).
Proof. unfold s_getitem. reads_all. Qed.

Lemma reads_get x k d : reads (s_get x k d).
Proof. unfold s_get. reads_all. Qed.

Lemma reads_iter x : reads (s_iter x).
Proof. unfold s_iter. reads_all. Qed.

Lemma reads_len x : reads (s_len x).
Proof. unfold s_len. reads_all. Qed.

Lemma reads_to_key v : reads (s_to_key v).
Proof. unfold s_to_key. reads_all. Qed.

Lemma reads_and_then a b : reads a -> reads b -> reads (and_then a b).
Proof.
  intros Ha Hb. unfold and_then. apply reads_bind; [assumption|].
  intros [|]; [assumption|apply reads_ret].
Qed.

Lemma reads_has_value x k : reads (has_value x k).
Proof.
  unfold has_value. apply reads_and_then; [apply reads_contains|].
  apply reads_bind; [apply reads_getitem|intros ?; apply reads_ret].
Qed.

Lemma reads_has_truthy x k : reads (has_truthy x k).
Proof.
  unfold has_truthy. apply reads_and_then; [apply reads_contains|].
  apply reads_bind; [apply reads_getitem|intros ?; apply reads_truthy].
Qed.

Lemma reads_all_dicts rel : reads (all_dicts rel).
Proof.
  unfold all_dicts. apply reads_bind; [apply reads_iter|intros its].
  apply reads_bind; [|intros ?; apply reads_ret].
  apply reads_map_m. intros x. apply reads_is_dict.
Qed.

Lemma reads_completed issue : reads (completed issue).
Proof.
  unfold completed. apply reads_bind; [apply reads_get|intros ?; apply reads_ret].
Qed.

(** *** Calls that write to new objects *)

Lemma wf_reads {A : Type} n (c : M A) : reads c -> writes_fresh n c (fun _ => True).
Proof.
  intros Hc st Hn. rewrite Hc. split; [apply same_below_refl|].
  now destruct (c st).
Qed.

Lemma wf_ret {A : Type} n (a : A) (Q : A -> Prop) : Q a -> writes_fresh n (ret a) Q.
Proof. intros H st Hn. split; [apply same_below_refl|exact H]. Qed.

Lemma wf_weaken {A : Type} n (c : M A) (Q R : A -> Prop) :
  writes_fresh n c Q -> (forall a, Q a -> R a) -> writes_fresh n c R.
Proof.
  intros Hc HQ st Hn. destruct (Hc st Hn) as [Hs Ha]. split; [assumption|].
  destruct (c st); auto.
Qed.

Lemma wf_bind {A B : Type} n (c : M A) (k : A -> M B) (Q : A -> Prop) (R : B -> Prop) :
  writes_fresh n c Q -> (forall a, Q a -> writes_fresh n (k a) R) ->
  writes_fresh n (bind c k) R.
Proof.
  intros Hc Hk st Hn. unfold bind. destruct (Hc st Hn) as [Hs Ha].
  destruct (c st) as [a st'|e st']; cbn [store_after] in *; [|auto].
  assert (Hn' : n <= List.length st') by (destruct Hs; lia).
  destruct (Hk a Ha st' Hn') as [Hs' Hb]. split; [|assumption].
  eapply same_below_trans; eassumption.
Qed.

Lemma wf_alloc n o : writes_fresh n (alloc o) (is_fresh n).
Proof.
  intros st Hn. unfold alloc. cbn. split; [|assumption].
  split; [rewrite length_app; lia|].
  intros a Ha. apply nth_error_app1. lia.
Qed.

Lemma wf_update n a o : n <= a -> writes_fresh n (update a o) (fun _ => True).
Proof.
  intros Ha st Hn. unfold update. cbn. split; [|exact I].
  split; [now rewrite list_set_length|].
  intros b Hb. apply list_set_other. lia.
Qed.

Lemma wf_raise {A : Type} n e (Q : A -> Prop) : writes_fresh n (@raise A e) Q.
Proof. intros st Hn. split; [apply same_below_refl|exact I]. Qed.

Lemma wf_copy n x : writes_fresh n (s_copy x) (is_fresh n).
Proof.
  unfold s_copy. eapply wf_bind; [apply wf_reads, reads_view|].
  intros [ob|] _; [apply wf_alloc|apply wf_raise].
Qed.

Lemma is_new_fresh n v : is_new n v -> is_fresh n v.
Proof. intros (a & -> & Ha). exact Ha. Qed.

Lemma wf_copy_new n x : writes_fresh n (s_copy x) (is_new n).
Proof.
  unfold s_copy. eapply wf_bind; [apply wf_reads, reads_view|].
  intros [ob|] _; [|apply wf_raise].
  intros st Hn. destruct (wf_alloc n ob st Hn) as [Hs _]. split; [exact Hs|].
  cbn. exists (List.length st). auto.
Qed.

Lemma wf_add n a b : writes_fresh n (s_add a b) (is_fresh n).
Proof.
  unfold s_add. eapply wf_bind; [apply wf_reads, reads_view|]. intros x _.
  eapply wf_bind; [apply wf_reads, reads_view|]. intros y _.
  assert (H : writes_fresh n
                match a, b with
                | SStr s, SStr t => ret (SStr (s ++ t)%string)
                | _, _ =>
                    match s_num a, s_num b with
                    | Some m, Some n => ret (SInt (m + n))
                    | _, _ => raise TypeError
                    end
                end (is_fresh n)).
  { destruct a, b; cbn; try apply wf_raise; apply wf_ret; exact I. }
  destruct x as [[l|d]|]; try exact H.
  destruct y as [[r|d]|]; try exact H. apply wf_alloc.
Qed.

Lemma wf_setitem n x k v :
  is_fresh n x -> writes_fresh n (s_setitem x k v) (fun _ => True).
Proof.
  intros Hx. unfold s_setitem. eapply wf_bind; [apply wf_reads, reads_view|].
  intros o _. destruct x as [| | | |a]; try apply wf_raise.
  cbn in Hx. destruct o as [[l|d]|]; try apply wf_raise.
  - destruct (key_index k); [|apply wf_raise].
    destruct (seq_index z (List.length l)); [|apply wf_raise].
    now apply wf_update.
  - now apply wf_update.
Qed.

Lemma wf_for_each {A : Type} n (xs : list A) (body : A -> M unit) :
  (forall x, writes_fresh n (body x) (fun _ => True)) ->
  writes_fresh n (for_each xs body) (fun _ => True).
Proof.
  intros Hb. induction xs as [|x xs IH]; cbn [for_each].
  - now apply wf_ret.
  - eapply wf_bind; [apply Hb|]. intros _ _. exact IH.
Qed.

Lemma wf_try {A : Type} n (body handler : M A) (Q : A -> Prop) :
  writes_fresh n body Q -> writes_fresh n handler Q ->
  writes_fresh n (try_except body handler) Q.
Proof.
  intros Hb Hh st Hn. unfold try_except. destruct (Hb st Hn) as [Hs Ha].
  destruct (body st) as [a st'|e st']; cbn [store_after] in *; [auto|].
  assert (Hn' : n <= List.length st') by (destruct Hs; lia).
  destruct (Hh st' Hn') as [Hs' Hb']. split; [|assumption].
  eapply same_below_trans; eassumption.
Qed.

(** One step of a proof that a call writes to new objects only. *)
Ltac wf_read :=
  apply wf_reads;
  first [ apply reads_truthy | apply reads_is_list | apply reads_is_dict
        | apply reads_items | apply reads_contains | apply reads_getitem
        | apply reads_get | apply reads_iter | apply reads_len
        | apply reads_to_key | apply reads_has_value | apply reads_has_truthy
        | apply reads_all_dicts | apply reads_completed
        | apply reads_and_then; reads_all
        | reads_all ].

Ltac wf_step :=
  match goal with
  | |- writes_fresh _ (ret _) _ => apply wf_ret; exact I
  | |- writes_fresh _ (raise _) _ => apply wf_raise
  | |- writes_fresh _ (s_setitem _ _ _) _ => apply wf_setitem; assumption
  | |- writes_fresh _ (for_each _ _) _ => apply wf_for_each; intros ?
  | |- writes_fresh _ (try_except _ _) _ => apply wf_try
  | |- writes_fresh _ (bind (s_copy _) _) _ =>
      eapply wf_bind; [apply wf_copy|intros ? ?]
  | |- writes_fresh _ (bind (s_add _ _) _) _ =>
      eapply wf_bind; [apply wf_add|intros ? ?]
  | |- writes_fresh _ (bind (alloc _) _) _ =>
      eapply wf_bind; [apply wf_alloc|intros ? ?]
  | |- writes_fresh _ (if ?b then _ else _) _ => destruct b
  | |- writes_fresh _ (let '(_, _) := ?p in _) _ => destruct p
  end.

Lemma wf_replace_if_truthy n data target field :
  is_fresh n target ->
  writes_fresh n (replace_if_truthy data target field) (fun _ => True).
Proof.
  intros Ht. unfold replace_if_truthy.
  eapply wf_bind; [wf_read|intros c _]. destruct c; [|now apply wf_ret].
  eapply wf_bind; [wf_read|intros v _]. now apply wf_setitem.
Qed.

Lemma wf_merge_lists n existing new :
  writes_fresh n (merge_lists existing new) (fun _ => True).
Proof.
  unfold merge_lists. eapply wf_bind; [wf_read|intros t _].
  destruct t; cbn [negb]; [|now apply wf_ret].
  eapply wf_bind; [wf_read|intros t' _].
  destruct t'; cbn [negb]; [|now apply wf_ret].
  eapply wf_weaken; [apply wf_add|auto].
Qed.

Lemma wf_merge_dicts n existing new :
  writes_fresh n (merge_dicts existing new) (is_new n).
Proof.
  unfold merge_dicts.
  eapply wf_bind; [apply wf_copy_new|intros result Hnew].
  pose proof (is_new_fresh _ _ Hnew) as Hr.
  eapply wf_bind; [wf_read|intros new_items _].
  eapply wf_bind; [|intros _ _; now apply wf_ret].
  wf_step. destruct x as [key value]. now apply wf_setitem.
Qed.

Lemma wf_merge_creative_elements n existing new :
  writes_fresh n (merge_creative_elements existing new) (is_new n).
Proof. exact (wf_merge_dicts n existing new). Qed.

Lemma wf_relationships_of_list n rel :
  writes_fresh n (relationships_of_list rel) (is_fresh n).
Proof.
  unfold relationships_of_list. eapply wf_bind; [wf_read|intros its _].
  wf_step. eapply wf_bind; [|intros _ _; now apply wf_ret].
  wf_step. destruct x as [i item].
  eapply wf_bind; [wf_read|intros k _].
  eapply wf_bind; [wf_read|intros v _].
  eapply wf_bind; [wf_read|intros key _].
  now apply wf_setitem.
Qed.

Lemma wf_append_list_field n char_data result_char f :
  is_fresh n result_char ->
  writes_fresh n (append_list_field char_data result_char f) (fun _ => True).
Proof.
  intros Hr. unfold append_list_field.
  eapply wf_bind; [wf_read|intros c _]. destruct c; [|now apply wf_ret].
  eapply wf_bind; [wf_read|intros v _].
  eapply wf_bind; [wf_read|intros t _]. destruct t; [|now apply wf_ret].
  eapply wf_bind; [wf_read|intros c' _]. destruct c'; [|now apply wf_setitem].
  eapply wf_bind; [wf_read|intros w _]. wf_step. now apply wf_setitem.
Qed.

Lemma wf_set_empty_relationships n result_char :
  is_fresh n result_char ->
  writes_fresh n (set_empty_relationships result_char) (fun _ => True).
Proof.
  intros Hr. unfold set_empty_relationships. wf_step. now apply wf_setitem.
Qed.

Lemma wf_merge_relationships n char_data result_char :
  is_fresh n result_char ->
  writes_fresh n (merge_relationships char_data result_char) (fun _ => True).
Proof.
  intros Hr. unfold merge_relationships.
  assert (Hconv : forall new_rel,
             writes_fresh n
               (d <~ relationships_of_list new_rel ;;
                s_setitem result_char (KStr "relationships") d) (fun _ => True)).
  { intros new_rel. eapply wf_bind; [apply wf_relationships_of_list|].
    intros d _. now apply wf_setitem. }
  pose proof (wf_set_empty_relationships n result_char Hr) as Hempty.
  eapply wf_bind; [wf_read|intros c _]. destruct c; [|now apply wf_ret].
  eapply wf_bind; [wf_read|intros new_rel _].
  eapply wf_bind; [wf_read|intros c' _]. destruct c'.
  - eapply wf_bind; [wf_read|intros old_rel _].
    eapply wf_bind; [wf_read|intros od _].
    eapply wf_bind; [wf_read|intros nd _].
    destruct od, nd; cbn [andb].
    + eapply wf_bind; [wf_read|intros a _].
      eapply wf_bind; [wf_read|intros b _].
      wf_step. now apply wf_setitem.
    + now apply wf_ret.
    + now apply wf_setitem.
    + apply wf_try; [|exact Hempty].
      eapply wf_bind; [wf_read|intros c'' _]. destruct c''; [apply Hconv|exact Hempty].
  - eapply wf_bind; [wf_read|intros nd _]. destruct nd; [now apply wf_setitem|].
    eapply wf_bind; [wf_read|intros nl _]. destruct nl; [|exact Hempty].
    apply wf_try; [|exact Hempty].
    eapply wf_bind; [wf_read|intros c'' _]. destruct c''; [apply Hconv|exact Hempty].
Qed.

Lemma wf_update_character n existing_char char_data :
  writes_fresh n (update_character existing_char char_data) (is_fresh n).
Proof.
  unfold update_character. wf_step.
  eapply wf_bind; [apply wf_for_each; intros f; now apply wf_append_list_field|].
  intros _ _.
  eapply wf_bind; [now apply wf_merge_relationships|]. intros _ _.
  eapply wf_bind; [apply wf_for_each; intros f; now apply wf_replace_if_truthy|].
  intros _ _. now apply wf_ret.
Qed.

Lemma wf_merge_characters n existing new :
  writes_fresh n (merge_characters existing new) (fun _ => True).
Proof.
  unfold merge_characters. destruct (s_is_none existing).
  { destruct (s_is_none new); [|now apply wf_ret].
    eapply wf_weaken; [apply wf_alloc|auto]. }
  destruct (s_is_none new); [now apply wf_ret|].
  wf_step. eapply wf_bind; [wf_read|intros new_items _].
  eapply wf_bind; [|intros _ _; now apply wf_ret].
  wf_step. destruct x as [char_id char_data].
  destruct (s_is_none char_data); [now apply wf_ret|].
  eapply wf_bind; [wf_read|intros c _]. destruct c; [|now apply wf_setitem].
  eapply wf_bind; [wf_read|intros existing_char _].
  eapply wf_bind; [apply wf_update_character|intros result_char _].
  now apply wf_setitem.
Qed.

Lemma wf_merge_scene_notes n scene_data result_scene :
  is_fresh n result_scene ->
  writes_fresh n (merge_scene_notes scene_data result_scene) (fun _ => True).
Proof.
  intros Hr. unfold merge_scene_notes.
  eapply wf_bind; [wf_read|intros c _]. destruct c; [|now apply wf_ret].
  eapply wf_bind; [wf_read|intros notes _].
  eapply wf_bind; [wf_read|intros len _].
  eapply wf_bind; [wf_read|intros revised _].
  destruct revised; [now apply wf_setitem|].
  eapply wf_bind; [wf_read|intros t _]. destruct t; [|now apply wf_ret].
  eapply wf_bind; [wf_read|intros c' _]. destruct c'; [|now apply wf_setitem].
  eapply wf_bind; [wf_read|intros old _]. wf_step. now apply wf_setitem.
Qed.

Lemma wf_update_scene n existing_scene scene_data :
  writes_fresh n (update_scene existing_scene scene_data) (is_fresh n).
Proof.
  unfold update_scene. wf_step.
  eapply wf_bind; [now apply wf_replace_if_truthy|intros _ _].
  eapply wf_bind; [now apply wf_replace_if_truthy|intros _ _].
  eapply wf_bind; [now apply wf_merge_scene_notes|intros _ _].
  now apply wf_ret.
Qed.

Lemma wf_merge_scenes n existing new :
  writes_fresh n (merge_scenes existing new) (is_new n).
Proof.
  unfold merge_scenes.
  eapply wf_bind; [apply wf_copy_new|intros result Hnew].
  pose proof (is_new_fresh _ _ Hnew) as Hr.
  eapply wf_bind; [wf_read|intros new_items _].
  eapply wf_bind; [|intros _ _; now apply wf_ret].
  wf_step. destruct x as [scene_id scene_data].
  eapply wf_bind; [wf_read|intros c _]. destruct c; [|now apply wf_setitem].
  eapply wf_bind; [wf_read|intros existing_scene _].
  eapply wf_bind; [apply wf_update_scene|intros result_scene _].
  now apply wf_setitem.
Qed.

Lemma wf_update_chapter n existing_chapter chapter_data :
  writes_fresh n (update_chapter existing_chapter chapter_data) (is_fresh n).
Proof.
  unfold update_chapter. wf_step.
  eapply wf_bind; [wf_read|intros c _].
  eapply wf_bind with (Q := fun _ => True).
  { destruct c; [|now apply wf_ret]. wf_step.
    eapply wf_bind; [wf_read|intros scenes _].
    eapply wf_bind; [wf_read|intros new_scenes _].
    eapply wf_bind; [apply wf_merge_scenes|intros merged _].
    now apply wf_setitem. }
  intros _ _. eapply wf_bind; [wf_read|intros c2 _].
  eapply wf_bind with (Q := fun _ => True).
  { destruct c2; [|now apply wf_ret].
    eapply wf_bind; [wf_read|intros c' _]. destruct c'.
    - eapply wf_bind; [wf_read|intros old _].
      eapply wf_bind; [wf_read|intros notes _].
      wf_step. now apply wf_setitem.
    - eapply wf_bind; [wf_read|intros notes _]. now apply wf_setitem. }
  intros _ _.
  eapply wf_bind; [apply wf_for_each; intros f; now apply wf_replace_if_truthy|].
  intros _ _. now apply wf_ret.
Qed.

Lemma wf_merge_chapters n existing new :
  writes_fresh n (merge_chapters existing new) (is_new n).
Proof.
  unfold merge_chapters.
  eapply wf_bind; [apply wf_copy_new|intros result Hnew].
  pose proof (is_new_fresh _ _ Hnew) as Hr.
  eapply wf_bind; [wf_read|intros new_items _].
  eapply wf_bind; [|intros _ _; now apply wf_ret].
  wf_step. destruct x as [chapter_id chapter_data].
  eapply wf_bind; [wf_read|intros c _]. destruct c; [|now apply wf_setitem].
  eapply wf_bind; [wf_read|intros existing_chapter _].
  eapply wf_bind; [apply wf_update_chapter|intros result_chapter _].
  now apply wf_setitem.
Qed.

Lemma wf_seed_issue n best issue :
  is_fresh n best -> writes_fresh n (seed_issue best issue) (fun _ => True).
Proof.
  intros Hb. unfold seed_issue.
  eapply wf_bind; [wf_read|intros chapter _].
  eapply wf_bind; [wf_read|intros t _]. destruct t; cbn [negb]; [|now apply wf_ret].
  eapply wf_bind; [wf_read|intros key _].
  eapply wf_bind; [wf_read|intros c _].
  destruct c; cbn [negb]; [|now apply wf_setitem].
  eapply wf_bind with (Q := fun _ => True).
  { apply wf_reads. apply reads_and_then; [apply reads_completed|].
    apply reads_bind; [apply reads_getitem|intros current].
    apply reads_bind; [apply reads_completed|intros x; apply reads_ret]. }
  intros better _. destruct better; [now apply wf_setitem|now apply wf_ret].
Qed.

Lemma wf_fold_issue n best issue :
  is_fresh n best -> writes_fresh n (fold_issue best issue) (fun _ => True).
Proof.
  intros Hb. unfold fold_issue.
  eapply wf_bind; [wf_read|intros chapter _].
  eapply wf_bind; [wf_read|intros t _]. destruct t; cbn [negb]; [|now apply wf_ret].
  eapply wf_bind; [wf_read|intros key _].
  eapply wf_bind; [wf_read|intros c _].
  destruct c; cbn [negb]; [|now apply wf_setitem].
  eapply wf_bind; [wf_read|intros resolved _].
  eapply wf_bind with (Q := fun _ => True).
  { apply wf_reads. destruct resolved; [apply reads_ret|].
    apply reads_bind; [apply reads_getitem|intros current].
    apply reads_bind; [apply reads_completed|intros x; apply reads_ret]. }
  intros wins _. destruct wins; [now apply wf_setitem|now apply wf_ret].
Qed.

Lemma wf_merge_plain_key n result kv :
  is_fresh n result -> writes_fresh n (merge_plain_key result kv) (fun _ => True).
Proof.
  intros Hr. destruct kv as [key values]. unfold merge_plain_key.
  eapply wf_bind; [wf_read|intros c _]. destruct c; [|now apply wf_setitem].
  eapply wf_bind with (Q := fun _ => True).
  { apply wf_reads. apply reads_and_then; [apply reads_is_list|].
    apply reads_bind; [apply reads_getitem|intros old; apply reads_is_list]. }
  intros both _. destruct both; [|now apply wf_setitem].
  eapply wf_bind; [wf_read|intros old _]. wf_step. now apply wf_setitem.
Qed.

Lemma wf_replace_other_key n result kv :
  is_fresh n result -> writes_fresh n (replace_other_key result kv) (fun _ => True).
Proof.
  intros Hr. destruct kv as [key value]. unfold replace_other_key.
  destruct (negb _); [now apply wf_setitem|now apply wf_ret].
Qed.

Lemma wf_merge_revelations n existing new :
  writes_fresh n (merge_revelations existing new) (is_new n).
Proof.
  unfold merge_revelations.
  eapply wf_bind; [apply wf_copy_new|intros result Hnew].
  pose proof (is_new_fresh _ _ Hnew) as Hr.
  eapply wf_bind; [wf_read|intros t _].
  eapply wf_bind with (Q := fun _ => True).
  { apply wf_reads. destruct t; cbn [negb]; [|apply reads_ret].
    apply reads_bind; [apply reads_contains|intros c; apply reads_ret]. }
  intros plain _. destruct plain.
  - eapply wf_bind; [wf_read|intros new_items _].
    eapply wf_bind; [|intros _ _; now apply wf_ret].
    apply wf_for_each. intros kv. now apply wf_merge_plain_key.
  - wf_step. eapply wf_bind; [wf_read|intros old_issues _].
    wf_step. eapply wf_bind; [wf_read|intros new_issues _].
    wf_step. eapply wf_bind; [wf_read|intros olds _].
    eapply wf_bind; [apply wf_for_each; intros i; now apply wf_seed_issue|].
    intros _ _. eapply wf_bind; [wf_read|intros news _].
    eapply wf_bind; [apply wf_for_each; intros i; now apply wf_fold_issue|].
    intros _ _. eapply wf_bind; [wf_read|intros best _].
    wf_step. eapply wf_bind; [now apply wf_setitem|intros _ _].
    eapply wf_bind; [wf_read|intros new_items _].
    eapply wf_bind; [|intros _ _; now apply wf_ret].
    apply wf_for_each. intros kv. now apply wf_replace_other_key.
Qed.

(** On these inputs the reducers on the store return what the reducers
    on values return. *)
Lemma copying_reducers_agree_on_examples :
  returned_value merge_lists (VList [VStr "a"]) (VList [VStr "b"])
  = value_of (Models.merge_lists (VList [VStr "a"]) (VList [VStr "b"]))
  /\ returned_value merge_lists (VList []) (VList [VStr "b"])
     = value_of (Models.merge_lists (VList []) (VList [VStr "b"]))
  /\ returned_value merge_dicts
       (Spec.obj [("a", VInt 1)]) (Spec.obj [("a", VInt 2); ("b", VInt 3)])
     = value_of (Models.merge_dicts
                   (Spec.obj [("a", VInt 1)]) (Spec.obj [("a", VInt 2); ("b", VInt 3)]))
  /\ returned_value merge_creative_elements (Spec.obj [("a", VInt 1)]) VNone
     = value_of (Models.merge_creative_elements (Spec.obj [("a", VInt 1)]) VNone)
  /\ returned_value merge_characters alice_bare alice_delta
     = value_of (Models.merge_characters alice_bare alice_delta)
  /\ returned_value merge_characters alice_no_relationships alice_delta
     = value_of (Models.merge_characters alice_no_relationships alice_delta)
  /\ returned_value merge_characters VNone alice_bare
     = value_of (Models.merge_characters VNone alice_bare)
  /\ returned_value merge_characters
       (Spec.obj [("alice", Spec.obj [("known_facts", VList [VStr "a"]);
                                      ("role", VStr "hero");
                                      ("relationships",
                                       Spec.obj [("bob", VStr "ally")])])])
       (Spec.obj [("alice", Spec.obj [("known_facts", VList [VStr "b"]);
                                      ("role", VStr EmptyString);
                                      ("relationships",
                                       Spec.obj [("eve", VStr "rival")])]);
                  ("bob", VNone)])
     = value_of
         (Models.merge_characters
            (Spec.obj [("alice", Spec.obj [("known_facts", VList [VStr "a"]);
                                           ("role", VStr "hero");
                                           ("relationships",
                                            Spec.obj [("bob", VStr "ally")])])])
            (Spec.obj [("alice", Spec.obj [("known_facts", VList [VStr "b"]);
                                           ("role", VStr EmptyString);
                                           ("relationships",
                                            Spec.obj [("eve", VStr "rival")])]);
                       ("bob", VNone)]))
  /\ returned_value merge_scenes
       (VDict [(KStr "s1", VDict scene_with_five_notes)])
       (VDict [(KStr "s1", VDict scene_revised)])
     = value_of (Models.merge_scenes
                   (VDict [(KStr "s1", VDict scene_with_five_notes)])
                   (VDict [(KStr "s1", VDict scene_revised)]))
  /\ returned_value merge_scenes
       (VDict [(KStr "s1", VDict scene_revised)])
       (VDict [(KStr "s1", VDict scene_with_five_notes); (KStr "s2", VDict [])])
     = value_of (Models.merge_scenes
                   (VDict [(KStr "s1", VDict scene_revised)])
                   (VDict [(KStr "s1", VDict scene_with_five_notes);
                           (KStr "s2", VDict [])]))
  /\ returned_value merge_chapters
       (Spec.obj [("1", Spec.obj [("title", VStr "One");
                                  ("reflection_notes", VList [VStr "a"]);
                                  ("scenes",
                                   VDict [(KStr "1", VDict scene_with_five_notes)])])])
       (Spec.obj [("1", Spec.obj [("title", VStr "First");
                                  ("reflection_notes", VList [VStr "b"]);
                                  ("scenes",
                                   VDict [(KStr "1", VDict scene_revised)])]);
                  ("2", Spec.obj [])])
     = value_of
         (Models.merge_chapters
            (Spec.obj [("1", Spec.obj [("title", VStr "One");
                                       ("reflection_notes", VList [VStr "a"]);
                                       ("scenes",
                                        VDict [(KStr "1",
                                                VDict scene_with_five_notes)])])])
            (Spec.obj [("1", Spec.obj [("title", VStr "First");
                                       ("reflection_notes", VList [VStr "b"]);
                                       ("scenes",
                                        VDict [(KStr "1", VDict scene_revised)])]);
                       ("2", Spec.obj [])]))
  /\ returned_value merge_chapters (Spec.obj []) VNone
     = value_of (Models.merge_chapters (Spec.obj []) VNone)
  /\ returned_value merge_revelations revelations_before revelations_delta
     = value_of (Models.merge_revelations revelations_before revelations_delta)
  /\ returned_value merge_revelations revelations_before revelations_delta_plain
     = value_of (Models.merge_revelations revelations_before revelations_delta_plain)
  /\ returned_value merge_revelations
       (Spec.obj [("continuity_issues",
                   VList [issue "3" "completed"; issue "4" "open"])])
       (Spec.obj [("continuity_issues",
                   VList [issue "3" "open"; issue "4" "completed";
                          Spec.obj [("description", VStr "x")]])])
     = value_of
         (Models.merge_revelations
            (Spec.obj [("continuity_issues",
                        VList [issue "3" "completed"; issue "4" "open"])])
            (Spec.obj [("continuity_issues",
                        VList [issue "3" "open"; issue "4" "completed";
                               Spec.obj [("description", VStr "x")]])])).
Proof. repeat split. Qed.

(** *** Values read the same in a store that kept their objects *)

Lemma map_option_ext {A B : Type} (f g : A -> option B) (l : list A) ys :
  (forall x y, In x l -> f x = Some y -> g x = Some y) ->
  map_option f l = Some ys -> map_option g l = Some ys.
Proof.
  revert ys. induction l as [|x l IH]; intros ys H Hm; cbn in *; [assumption|].
  destruct (f x) as [y|] eqn:Hx; [|discriminate].
  destruct (map_option f l) as [ys'|] eqn:Hl; [|discriminate].
  rewrite (H x y (or_introl eq_refl) Hx), (IH ys'); auto.
Qed.

Lemma reify_kept (st st' : store) :
  (forall a o, nth_error st a = Some o -> nth_error st' a = Some o) ->
  forall fuel fuel' v pv,
    fuel <= fuel' -> reify fuel st v = Some pv -> reify fuel' st' v = Some pv.
Proof.
  intros Hst. induction fuel as [|fuel IH]; intros fuel' v pv Hf H.
  - destruct v; cbn in H; try discriminate; destruct fuel'; exact H.
  - destruct fuel' as [|fuel']; [lia|].
    destruct v as [| | | |a]; try exact H.
    cbn [reify] in *.
    destruct (nth_error st a) as [o|] eqn:Ha; [|discriminate].
    rewrite (Hst _ _ Ha).
    assert (Hle : fuel <= fuel') by lia.
    destruct o as [l|d].
    + destruct (map_option (reify fuel st) l) as [ys|] eqn:Hl; [|discriminate].
      rewrite (map_option_ext (reify fuel st) (reify fuel' st') l ys);
        [exact H| |exact Hl].
      intros x y _ Hx. now apply (IH fuel').
    + destruct (map_option
                  (fun kv => option_map (pair (fst kv)) (reify fuel st (snd kv))) d)
        as [ys|] eqn:Hd; [|discriminate].
      rewrite (map_option_ext
                 (fun kv => option_map (pair (fst kv)) (reify fuel st (snd kv)))
                 (fun kv => option_map (pair (fst kv)) (reify fuel' st' (snd kv)))
                 d ys); [exact H| |exact Hd].
      intros x y _ Hx.
      destruct (reify fuel st (snd x)) as [p|] eqn:Hp; [|discriminate].
      now rewrite (IH fuel' _ _ Hle Hp).
Qed.

Lemma snapshot_kept (st st' : store) w pv :
  same_below (List.length st) st st' ->
  snapshot st w = Some pv -> snapshot st' w = Some pv.
Proof.
  intros [Hl Hs] H. unfold snapshot in *.
  apply (reify_kept st st') with (fuel := S (List.length st)); [|lia|exact H].
  intros a o Ha. rewrite Hs; [exact Ha|].
  apply nth_error_Some. congruence.
Qed.

Lemma copying_reducers_wf f :
  In f copying_reducers ->
  forall n existing new, writes_fresh n (f existing new) (fun _ => True).
Proof.
  unfold copying_reducers.
  intros [<-|[<-|[<-|[<-|[<-|[<-|[<-|[]]]]]]]] n existing new.
  - apply wf_merge_lists.
  - eapply wf_weaken; [apply wf_merge_dicts|auto].
  - apply wf_merge_characters.
  - eapply wf_weaken; [apply wf_merge_scenes|auto].
  - eapply wf_weaken; [apply wf_merge_chapters|auto].
  - eapply wf_weaken; [apply wf_merge_revelations|auto].
  - eapply wf_weaken; [apply wf_merge_creative_elements|auto].
Qed.

(** X23. [merge_lists], [merge_dicts], [merge_characters],
    [merge_scenes], [merge_chapters], [merge_revelations] and
    [merge_creative_elements] write to objects they create only: every
    value there is before the call, the two operands and what they hold
    included, reads after the call as it did before, whether the call
    returns or raises. *)
Theorem copying_reducers_leave_objects
        (f : sval -> sval -> M sval) (st : store) (existing new w : sval)
        (pv : pyval) :
  In f copying_reducers ->
  snapshot st w = Some pv ->
  snapshot (store_after (f existing new st)) w = Some pv.
Proof.
  intros Hf Hw.
  destruct (copying_reducers_wf f Hf (List.length st) existing new st (le_n _))
    as [Hs _].
  now apply (snapshot_kept st).
Qed.

Lemma copying_reducers_leave_objects_witness :
  let st := [ODict [(KStr "content", SStr "a");
                    (KStr "reflection_notes", SRef 1)];
             OList [SStr "first"];
             ODict [(KStr "s1", SRef 0)];
             OList [SStr "second"];
             ODict [(KStr "content", SStr "b");
                    (KStr "reflection_notes", SRef 3)];
             ODict [(KStr "s1", SRef 4)]] in
  match merge_scenes (SRef 2) (SRef 5) st with
  | Done r st' =>
      snapshot st' r
      = Some (Spec.obj [("s1", Spec.obj [("content", VStr "b");
                               ("reflection_notes",
                                VList [VStr "first"; VStr "second"])])])
  | Fail _ _ => False
  end
  /\ snapshot (store_after (merge_scenes (SRef 2) (SRef 5) st)) (SRef 2)
     = Some (Spec.obj [("s1", Spec.obj [("content", VStr "a");
                              ("reflection_notes", VList [VStr "first"])])]).
Proof.
  cbv zeta. split; [reflexivity|].
  apply (copying_reducers_leave_objects merge_scenes);
    [right; right; right; left; reflexivity|reflexivity].
Defined.

Lemma dict_reducers_wf f :
  In f dict_reducers ->
  forall n existing new, writes_fresh n (f existing new) (is_new n).
Proof.
  unfold dict_reducers.
  intros [<-|[<-|[<-|[<-|[<-|[]]]]]] n existing new.
  - apply wf_merge_dicts.
  - apply wf_merge_scenes.
  - apply wf_merge_chapters.
  - apply wf_merge_revelations.
  - apply wf_merge_creative_elements.
Qed.

(** X24. What [merge_dicts], [merge_scenes], [merge_chapters],
    [merge_revelations] and [merge_creative_elements] return is a
    reference to an object that did not exist before the call, so it is
    neither operand nor anything they hold: writing to the returned dict
    changes no object the caller had. *)
Theorem dict_reducers_return_new_object
        (f : sval -> sval -> M sval) (st st' : store) (existing new r : sval) :
  In f dict_reducers ->
  f existing new st = Done r st' ->
  exists a, r = SRef a /\ List.length st <= a /\ nth_error st a = None.
Proof.
  intros Hf H.
  destruct (dict_reducers_wf f Hf (List.length st) existing new st (le_n _))
    as [Hs Hr].
  rewrite H in Hr. destruct Hr as (a & -> & Ha).
  exists a. split; [reflexivity|]. split; [exact Ha|].
  apply nth_error_None. exact Ha.
Qed.

Lemma dict_reducers_return_new_object_witness :
  exists a,
    merge_revelations (SRef 1) (SRef 3)
      [OList [SStr "a"]; ODict [(KStr "reader", SRef 0)];
       OList [SStr "b"]; ODict [(KStr "reader", SRef 2)]]
    = Done (SRef a)
        [OList [SStr "a"]; ODict [(KStr "reader", SRef 0)];
         OList [SStr "b"]; ODict [(KStr "reader", SRef 2)];
         ODict [(KStr "reader", SRef 5)]; OList [SStr "a"; SStr "b"]]
    /\ 4 <= a.
Proof.
  destruct (dict_reducers_return_new_object merge_revelations
              [OList [SStr "a"]; ODict [(KStr "reader", SRef 0)];
               OList [SStr "b"]; ODict [(KStr "reader", SRef 2)]]
              [OList [SStr "a"]; ODict [(KStr "reader", SRef 0)];
               OList [SStr "b"]; ODict [(KStr "reader", SRef 2)];
               ODict [(KStr "reader", SRef 5)]; OList [SStr "a"; SStr "b"]]
              (SRef 1) (SRef 3) (SRef 4)
              (or_intror (or_intror (or_intror (or_introl eq_refl)))) eq_refl)
    as (a & Hr & Ha & _).
  exists a. injection Hr as <-. split; [reflexivity|exact Ha].
Defined.
